(** * status-checker: the check evaluation engine

    A shallow embedding of [src/evaluator.ts] (class [CheckEvaluator]) and of
    the check-selection part of [src/checker.ts] ([StatusChecker.checkUrl]),
    with the properties the specification states about them.

    Modelling conventions.
    - A JavaScript string is a Rocq [string], one character per code unit;
      the model covers code units below 256.
    - A JavaScript number is an IEEE 754 binary64 value, [spec_float] of the
      standard library with precision 53 and maximal exponent 1024.
    - A [try { ... } catch] block is a computation in the [completion] monad:
      [Normal v] or [Throw e].
    - [JSON.parse] and [RegExp] belong to the host; they are the fields of the
      class [Host], and every property is proved for every host. *)

From Stdlib Require Import String Ascii List ZArith NArith Bool Lia.
From Stdlib Require Import DecimalString.
From Stdlib Require Import Floats.SpecFloat.
Import ListNotations.

Local Open Scope string_scope.
Local Open Scope bool_scope.

Set Warnings "-register-all".

(** ** Strings *)

Module JsString.

Definition charCode (c : ascii) : N := N_of_ascii c.

Definition inRange (lo hi : N) (c : ascii) : bool :=
  (lo <=? charCode c)%N && (charCode c <=? hi)%N.

(** WhiteSpace and LineTerminator of ECMAScript, below code unit 256:
    TAB, LF, VT, FF, CR, SP and NBSP. *)
Definition isWhiteSpace (c : ascii) : bool :=
  inRange 9 13 c || (charCode c =? 32)%N || (charCode c =? 160)%N.

Definition isDigit (c : ascii) : bool := inRange 48 57 c.

Definition digitValue (c : ascii) : Z := Z.of_N (charCode c) - 48.

(** The class [\w] of a regular expression without flags. *)
Definition isWordChar (c : ascii) : bool :=
  inRange 65 90 c || inRange 97 122 c || isDigit c || (charCode c =? 95)%N.

Definition toLowerChar (c : ascii) : ascii :=
  if inRange 65 90 c
     || (inRange 192 222 c && negb (charCode c =? 215)%N)
  then ascii_of_N (charCode c + 32)
  else c.

(** [s.toLowerCase()] *)
Fixpoint toLowerCase (s : string) : string :=
  match s with
  | EmptyString => EmptyString
  | String c s' => String (toLowerChar c) (toLowerCase s')
  end.

Fixpoint trimStart (s : string) : string :=
  match s with
  | EmptyString => EmptyString
  | String c s' => if isWhiteSpace c then trimStart s' else s
  end.

Fixpoint trimEnd (s : string) : string :=
  match s with
  | EmptyString => EmptyString
  | String c s' =>
      match trimEnd s' with
      | EmptyString => if isWhiteSpace c then EmptyString else String c EmptyString
      | t => String c t
      end
  end.

(** [s.trim()] *)
Definition trim (s : string) : string := trimEnd (trimStart s).

(** [s.split(sep)] for a separator of one character. *)
Fixpoint split (sep : ascii) (s : string) : list string :=
  match s with
  | EmptyString => [EmptyString]
  | String c s' =>
      if Ascii.eqb c sep then EmptyString :: split sep s'
      else match split sep s' with
           | h :: t => String c h :: t
           | [] => [String c EmptyString]
           end
  end.

(** [items.join(sep)] on strings. *)
Definition join (sep : string) (items : list string) : string :=
  String.concat sep items.

(** [s.startsWith(p)] *)
Fixpoint startsWith (s p : string) {struct p} : bool :=
  match p, s with
  | EmptyString, _ => true
  | String b p', String a s' => Ascii.eqb a b && startsWith s' p'
  | String _ _, EmptyString => false
  end.

(** [s.includes(search)] *)
Fixpoint includes (s search : string) : bool :=
  if startsWith s search then true
  else match s with
       | EmptyString => false
       | String _ s' => includes s' search
       end.

(** [s.substring(0, n)] *)
Definition substring0 (n : nat) (s : string) : string := String.substring 0 n s.

(** [s.substring(1)] *)
Definition substring1 (s : string) : string :=
  match s with
  | EmptyString => EmptyString
  | String _ s' => s'
  end.

(** The longest prefix whose characters satisfy [p], and the rest. *)
Fixpoint span (p : ascii -> bool) (s : string) : string * string :=
  match s with
  | EmptyString => (EmptyString, EmptyString)
  | String c s' =>
      if p c then let '(w, r) := span p s' in (String c w, r)
      else (EmptyString, s)
  end.

(** Whether every character of [s] satisfies [p]. *)
Fixpoint forallChars (p : ascii -> bool) (s : string) : bool :=
  match s with
  | EmptyString => true
  | String c s' => p c && forallChars p s'
  end.

Fixpoint repeat (c : ascii) (n : nat) : string :=
  match n with
  | O => EmptyString
  | S k => String c (repeat c k)
  end.

(** [value || ''] on an optional string. *)
Definition orEmpty (value : option string) : string :=
  match value with
  | Some s => s
  | None => EmptyString
  end.

End JsString.

(** ** Numbers *)

Module JsNumber.
Import JsString.

Definition number : Type := spec_float.

Definition prec : Z := 53.
Definition emax : Z := 1024.

Definition NaN : number := S754_nan.
Definition Infinity (negative : bool) : number := S754_infinity negative.

(** The number nearest to the integer [z]. *)
Definition ofZ (z : Z) : number := binary_normalize prec emax z 0 false.

(** The number nearest to [m * 10 ^ e10], for [0 <= m], ties to even. *)
Definition ofDecimal (negative : bool) (m e10 : Z) : number :=
  match m with
  | Z0 => S754_zero negative
  | Zneg _ => NaN
  | Zpos _ =>
      if (0 <=? e10)%Z
      then binary_normalize prec emax (cond_Zopp negative (m * 10 ^ e10)) 0 negative
      else
        let '(q, e, l) := SFdiv_core_binary prec emax m 0 (10 ^ (- e10)) 0 in
        binary_round_aux prec emax negative q e l
  end.

(** The value of a string of decimal digits. *)
Definition digitsValue (digits : string) : Z :=
  let fix go (acc : Z) (s : string) : Z :=
    match s with
    | EmptyString => acc
    | String c s' => go (10 * acc + digitValue c)%Z s'
    end in
  go 0%Z digits.

Definition isHexDigit (c : ascii) : bool :=
  isDigit c || inRange 65 70 c || inRange 97 102 c.

Definition hexDigitValue (c : ascii) : Z :=
  if isDigit c then digitValue c
  else if inRange 65 70 c then Z.of_N (charCode c) - 55
  else Z.of_N (charCode c) - 87.

(** The value of a string of digits in radix 16, 8 or 2; [None] when the
    string is empty or holds another character. *)
Definition radixValue (radix : Z) (digits : string) : option Z :=
  let fix go (acc : Z) (s : string) : option Z :=
    match s with
    | EmptyString => Some acc
    | String c s' =>
        if isHexDigit c && (hexDigitValue c <? radix)%Z
        then go (radix * acc + hexDigitValue c)%Z s'
        else None
    end in
  match digits with
  | EmptyString => None
  | _ => go 0%Z digits
  end.

Definition splitSign (s : string) : bool * string :=
  match s with
  | String "-" r => (true, r)
  | String "+" r => (false, r)
  | _ => (false, s)
  end.

(** ExponentPart followed by the end of the string: the exponent, 0 when the
    part is missing, [None] when something else follows. *)
Definition exponentPart (s : string) : option Z :=
  match s with
  | EmptyString => Some 0%Z
  | String c r =>
      if Ascii.eqb c "e" || Ascii.eqb c "E" then
        let '(negative, r1) := splitSign r in
        match span isDigit r1 with
        | (String d ds, EmptyString) =>
            Some (cond_Zopp negative (digitsValue (String d ds)))
        | _ => None
        end
      else None
  end.

(** StrUnsignedDecimalLiteral, without [Infinity]. *)
Definition unsignedDecimal (negative : bool) (s : string) : number :=
  let '(int, r) := span isDigit s in
  let '(dot, frac, r1) :=
    match r with
    | String "." r' => let '(f, r'') := span isDigit r' in (true, f, r'')
    | _ => (false, EmptyString, r)
    end in
  match (int ++ frac)%string with
  | EmptyString => NaN
  | mantissa =>
      match exponentPart r1 with
      | Some e =>
          ofDecimal negative (digitsValue mantissa) (e - Z.of_nat (String.length frac))
      | None => NaN
      end
  end.

(** StringToNumber: [Number(s)] for a string [s]. *)
Definition StringToNumber (input : string) : number :=
  let s := trim input in
  match s with
  | EmptyString => S754_zero false
  | String "0" (String x digits) =>
      let nonDecimal (radix : Z) :=
        match radixValue radix digits with
        | Some v => ofDecimal false v 0
        | None => NaN
        end in
      if Ascii.eqb x "x" || Ascii.eqb x "X" then nonDecimal 16%Z
      else if Ascii.eqb x "o" || Ascii.eqb x "O" then nonDecimal 8%Z
      else if Ascii.eqb x "b" || Ascii.eqb x "B" then nonDecimal 2%Z
      else unsignedDecimal false s
  | _ =>
      let '(negative, r) := splitSign s in
      if String.eqb r "Infinity" then Infinity negative
      else unsignedDecimal negative r
  end.

(** [parseInt(input, 10)] *)
Definition parseInt (input : string) : number :=
  let '(negative, r) := splitSign (trimStart input) in
  match span isDigit r with
  | (EmptyString, _) => NaN
  | (digits, _) => ofDecimal negative (digitsValue digits) 0
  end.

(** [x < y] and [x > y] *)
Definition lt (x y : number) : bool := SFltb x y.
Definition gt (x y : number) : bool := SFltb y x.

(** SameValueZero, the equality of [Array.prototype.includes]. *)
Definition SameValueZero (x y : number) : bool :=
  match x, y with
  | S754_nan, S754_nan => true
  | _, _ => SFeqb x y
  end.

(** [x - y] *)
Definition sub (x y : number) : number := SFsub prec emax x y.

(** Whether [x] is a finite number other than zero. *)
Definition isFinite (x : number) : bool :=
  match x with
  | S754_finite _ _ _ => true
  | _ => false
  end.

(** *** Number::toString *)

Definition decimalOfZ (z : Z) : string :=
  NilZero.string_of_uint (N.to_uint (Z.to_N z)).

(** [scaleDown num den q] is the fraction [num / den / 10 ^ q]. *)
Definition scaleDown (num den q : Z) : Z * Z :=
  if (0 <=? q)%Z then (num, den * 10 ^ q)%Z else (num * 10 ^ (- q), den)%Z.

(** The least [n], from [n0] on, with [num / den < 10 ^ n]. *)
Fixpoint decimalExponent (fuel : nat) (num den n0 : Z) : Z :=
  match fuel with
  | O => n0
  | S fuel' =>
      let '(a, b) := scaleDown num den n0 in
      if (a <? b)%Z then n0 else decimalExponent fuel' num den (n0 + 1)%Z
  end.

Definition sameFloat (x y : number) : bool :=
  match x, y with
  | S754_finite s m e, S754_finite s' m' e' =>
      Bool.eqb s s' && Pos.eqb m m' && Z.eqb e e'
  | _, _ => false
  end.

(** The digits [s] of [k] places nearest to [num / den / 10 ^ (n - k)] among
    those that read back as [x]. *)
Definition digitsAt (x : number) (num den n k : Z) : option Z :=
  let '(a, b) := scaleDown num den (n - k) in
  let lo := (a / b)%Z in
  let r := (a mod b)%Z in
  let hi := (lo + 1)%Z in
  let back (s : Z) := sameFloat (ofDecimal false s (n - k)) x in
  if (r =? 0)%Z then (if back lo then Some lo else None)
  else
    match back lo, back hi with
    | true, true =>
        match (2 * r ?= b)%Z with
        | Lt => Some lo
        | Gt => Some hi
        | Eq => if Z.even lo then Some lo else Some hi
        end
    | true, false => Some lo
    | false, true => Some hi
    | false, false => None
    end.

Fixpoint shortestDigits (fuel : nat) (x : number) (num den n k : Z) : Z * Z :=
  match fuel with
  | O => ((fst (scaleDown num den (n - k)) / snd (scaleDown num den (n - k)))%Z, k)
  | S fuel' =>
      match digitsAt x num den n k with
      | Some s => (s, k)
      | None => shortestDigits fuel' x num den n (k + 1)%Z
      end
  end.

(** The text of a positive finite number with digits [digits] and decimal
    exponent [n]: its value is [0.digits * 10 ^ n]. *)
Definition formatDecimal (digits : string) (n : Z) : string :=
  let k := Z.of_nat (String.length digits) in
  if (k <=? n)%Z && (n <=? 21)%Z then
    digits ++ repeat "0" (Z.to_nat (n - k))
  else if (0 <? n)%Z && (n <=? 21)%Z then
    String.substring 0 (Z.to_nat n) digits ++ "."
      ++ String.substring (Z.to_nat n) (Z.to_nat (k - n)) digits
  else if (-6 <? n)%Z && (n <=? 0)%Z then
    "0." ++ repeat "0" (Z.to_nat (- n)) ++ digits
  else
    let e := (n - 1)%Z in
    let exponent := (if (e <? 0)%Z then "-" else "+") ++ decimalOfZ (Z.abs e) in
    match digits with
    | String d EmptyString => String d ("e" ++ exponent)
    | String d ds => String d ("." ++ ds ++ "e" ++ exponent)
    | EmptyString => EmptyString
    end.

Definition positiveToString (m : positive) (e : Z) : string :=
  match binary_round prec emax false m e with
  | S754_finite _ m' e' =>
      let x := S754_finite false m' e' in
      let '(num, den) :=
        if (0 <=? e')%Z then (Zpos m' * 2 ^ e', 1)%Z else (Zpos m', 2 ^ (- e'))%Z in
      let b := (Zpos (digits2_pos m') + e' - 1)%Z in
      let n := decimalExponent 8 num den (b * 30103 / 100000 - 2)%Z in
      let '(s, k) := shortestDigits 17 x num den n 1%Z in
      if (s =? 10 ^ k)%Z then formatDecimal "1" (n + 1)
      else formatDecimal (decimalOfZ s) n
  | _ => "Infinity"
  end.

(** [String(x)] for a number [x]. *)
Definition toString (x : number) : string :=
  match x with
  | S754_nan => "NaN"
  | S754_zero _ => "0"
  | S754_infinity negative => if negative then "-Infinity" else "Infinity"
  | S754_finite negative m e =>
      (if negative then "-" else "") ++ positiveToString m e
  end.

End JsNumber.
(** ** Exceptions and completions *)

Inductive Error : Type :=
  | SyntaxError (msg : string)
  | TypeError (msg : string).

(** [err.message] *)
Definition message (e : Error) : string :=
  match e with
  | SyntaxError msg => msg
  | TypeError msg => msg
  end.

Inductive completion (A : Type) : Type :=
  | Normal (a : A)
  | Throw (e : Error).

Arguments Normal {A} a.
Arguments Throw {A} e.

Definition bind {A B : Type} (c : completion A) (k : A -> completion B)
  : completion B :=
  match c with
  | Normal a => k a
  | Throw e => Throw e
  end.

Notation "x <- c ;; k" := (bind c (fun x => k))
  (at level 61, c at next level, right associativity).
Notation "' p <- c ;; k" := (bind c (fun x => let 'p := x in k))
  (at level 61, p pattern, c at next level, right associativity).

(** [items.map(f)] where [f] can throw: the first exception ends the loop. *)
Fixpoint mapM {A B : Type} (f : A -> completion B) (items : list A)
  : completion (list B) :=
  match items with
  | [] => Normal []
  | a :: rest =>
      b <- f a ;;
      bs <- mapM f rest ;;
      Normal (b :: bs)
  end.

(** ** Values *)

Module JsValue.
Import JsString JsNumber.

(** The values the evaluator handles: [undefined] and what [JSON.parse]
    builds. The fields of an object are in own-property order and their keys
    are distinct. *)
Inductive value : Type :=
  | VUndefined
  | VNull
  | VBoolean (b : bool)
  | VNumber (x : number)
  | VString (s : string)
  | VArray (items : list value)
  | VObject (fields : list (string * value)).

Definition isNullish (v : value) : bool :=
  match v with
  | VUndefined | VNull => true
  | _ => false
  end.

(** [typeof v === 'object'] *)
Definition isObjectType (v : value) : bool :=
  match v with
  | VNull | VArray _ | VObject _ => true
  | _ => false
  end.

Fixpoint lookup (key : string) (fields : list (string * value)) : option value :=
  match fields with
  | [] => None
  | (k, v) :: rest => if String.eqb k key then Some v else lookup key rest
  end.

Definition cannotConvert : Error :=
  TypeError "Cannot convert object to primitive value".

(** [String(v)]. An array is joined with commas, its [null] and [undefined]
    elements giving the empty string. An object gives ["[object Object]"]
    unless it has a property [toString] of its own, which no method of the
    prototype replaces: the conversion throws. *)
Fixpoint ToString (v : value) : completion string :=
  match v with
  | VUndefined => Normal "undefined"
  | VNull => Normal "null"
  | VBoolean b => Normal (if b then "true" else "false")
  | VNumber x => Normal (toString x)
  | VString s => Normal s
  | VArray items =>
      let fix elements (l : list value) : completion (list string) :=
        match l with
        | [] => Normal []
        | item :: rest =>
            s <- (if isNullish item then Normal "" else ToString item) ;;
            ss <- elements rest ;;
            Normal (s :: ss)
        end in
      ss <- elements items ;;
      Normal (join "," ss)
  | VObject fields =>
      match lookup "toString" fields with
      | Some _ => Throw cannotConvert
      | None => Normal "[object Object]"
      end
  end.

(** [Number(v)] *)
Definition ToNumber (v : value) : completion number :=
  match v with
  | VUndefined => Normal NaN
  | VNull => Normal (S754_zero false)
  | VBoolean b => Normal (if b then ofZ 1 else S754_zero false)
  | VNumber x => Normal x
  | VString s => Normal (StringToNumber s)
  | VArray _ | VObject _ =>
      s <- ToString v ;;
      Normal (StringToNumber s)
  end.

(** Whether a property key is an integer index in canonical form. *)
Definition indexOfKey (key : string) : option nat :=
  match key with
  | EmptyString => None
  | String "0" EmptyString => Some O
  | String "0" _ => None
  | _ =>
      match span isDigit key with
      | (_, EmptyString) => Some (Z.to_nat (digitsValue key))
      | _ => None
      end
  end.

(** [current[key]] on a value that is neither [null] nor [undefined]: own
    properties, indices and [length]. Members inherited from the built-in
    prototypes are functions, which the value model leaves out: looking one
    up gives [undefined] here, and [inherits] tells when a read is one of
    these. *)
Definition Get (current : value) (key : string) : value :=
  match current with
  | VObject fields =>
      match lookup key fields with
      | Some v => v
      | None => VUndefined
      end
  | VArray items =>
      match indexOfKey key with
      | Some i => nth i items VUndefined
      | None =>
          if String.eqb key "length"
          then VNumber (ofZ (Z.of_nat (List.length items)))
          else VUndefined
      end
  | VString s =>
      match indexOfKey key with
      | Some i =>
          match String.get i s with
          | Some c => VString (String c EmptyString)
          | None => VUndefined
          end
      | None =>
          if String.eqb key "length"
          then VNumber (ofZ (Z.of_nat (String.length s)))
          else VUndefined
      end
  | _ => VUndefined
  end.

(** [current[x]] for a number [x]. *)
Definition GetNumber (current : value) (x : number) : value :=
  Get current (toString x).

(** Whether [v] is a primitive value: the values a check result reports
    are. *)
Definition isPrimitive (v : value) : bool :=
  match v with
  | VArray _ | VObject _ => false
  | _ => true
  end.

(** *** JSON.stringify *)

Definition hexDigit (n : N) : ascii :=
  if (n <? 10)%N then ascii_of_N (48 + n) else ascii_of_N (87 + n).

Definition doubleQuote : ascii := ascii_of_N 34.

Definition quoteChar (c : ascii) : string :=
  let n := charCode c in
  if (n =? 34)%N then String "\" (String doubleQuote EmptyString)
  else if (n =? 92)%N then "\\"
  else if (n =? 8)%N then "\b"
  else if (n =? 12)%N then "\f"
  else if (n =? 10)%N then "\n"
  else if (n =? 13)%N then "\r"
  else if (n =? 9)%N then "\t"
  else if (n <? 32)%N then
    "\u00" ++ String (hexDigit (n / 16)) (String (hexDigit (n mod 16)) EmptyString)
  else String c EmptyString.

Fixpoint quoteBody (s : string) : string :=
  match s with
  | EmptyString => EmptyString
  | String c s' => quoteChar c ++ quoteBody s'
  end.

(** QuoteJSONString *)
Definition quote (s : string) : string :=
  String doubleQuote (quoteBody s ++ String doubleQuote EmptyString).

(** SerializeJSONProperty: [None] for [undefined]. *)
Fixpoint serialize (v : value) : option string :=
  match v with
  | VUndefined => None
  | VNull => Some "null"
  | VBoolean b => Some (if b then "true" else "false")
  | VNumber x =>
      match x with
      | S754_nan | S754_infinity _ => Some "null"
      | _ => Some (toString x)
      end
  | VString s => Some (quote s)
  | VArray items =>
      let fix elements (l : list value) : list string :=
        match l with
        | [] => []
        | item :: rest =>
            match serialize item with
            | Some s => s
            | None => "null"
            end :: elements rest
        end in
      Some ("[" ++ join "," (elements items) ++ "]")
  | VObject fields =>
      let fix members (l : list (string * value)) : list string :=
        match l with
        | [] => []
        | (k, item) :: rest =>
            match serialize item with
            | Some s => (quote k ++ ":" ++ s) :: members rest
            | None => members rest
            end
        end in
      Some ("{" ++ join "," (members fields) ++ "}")
  end.

(** [JSON.stringify(v)] *)
Definition JSON_stringify (v : value) : value :=
  match serialize v with
  | Some s => VString s
  | None => VUndefined
  end.

End JsValue.

Import JsString JsNumber JsValue.

(** ** The host *)

(** What the evaluator takes from the JavaScript engine. [RegExp_new] is
    [new RegExp(pattern)], a regular expression without flags, so that
    [regex.test] keeps no state between calls; [JSON_parse] is [JSON.parse].
    Both throw a [SyntaxError], whose message an engine never leaves empty. *)
Class Host : Type := {
  RegExp : Type;
  RegExp_new : string -> completion RegExp;
  RegExp_test : RegExp -> string -> bool;
  JSON_parse : string -> completion value;
  RegExp_new_message :
    forall pattern e, RegExp_new pattern = Throw e -> message e <> "";
  JSON_parse_message :
    forall text e, JSON_parse text = Throw e -> message e <> ""
}.

(** ** The check model ([src/types.ts]) *)

Inductive ComparisonOperator : Type :=
  | equals | not_equals | contains | not_contains | matches | not_matches
  | greater_than | less_than | exists_ | not_exists.

(** The operators of a [StatusCodeCheck]. *)
Inductive StatusCodeOperator : Type :=
  | sc_equals | sc_not_equals | sc_matches | sc_not_matches.

(** The operators of a [ResponseTimeCheck]. *)
Inductive ResponseTimeOperator : Type :=
  | rt_less_than | rt_greater_than.

(** The field [element] of a [JsonPathCheck]. *)
Inductive Element : Type :=
  | First | Last | Any | All | Index (n : number).

Record StatusCodeCheck : Type := {
  sc_operator : StatusCodeOperator;
  sc_value : string
}.

Record HeaderCheck : Type := {
  h_name : string;
  h_operator : ComparisonOperator;
  h_value : option string
}.

Record BodyCheck : Type := {
  b_operator : ComparisonOperator;
  b_value : option string
}.

Record JsonPathCheck : Type := {
  j_path : string;
  j_operator : ComparisonOperator;
  j_value : option string;
  j_element : option Element
}.

Record ResponseTimeCheck : Type := {
  rt_operator : ResponseTimeOperator;
  rt_value : number
}.

(** The union [Check], by its field [type]; [OfUnknown] is a check whose
    [type] the evaluator does not know. *)
Inductive Check : Type :=
  | OfStatusCode (check : StatusCodeCheck)
  | OfHeader (check : HeaderCheck)
  | OfBody (check : BodyCheck)
  | OfJsonPath (check : JsonPathCheck)
  | OfResponseTime (check : ResponseTimeCheck)
  | OfUnknown (type : string).

Record IndividualCheckResult : Type := {
  type : string;
  description : string;
  passed : bool;
  error : option string;
  actualValue : value;
  expectedValue : value
}.

(** [ResponseData] of [src/evaluator.ts]; [headers] holds the entries of the
    record in the order of [Object.entries]. *)
Record ResponseData : Type := {
  statusCode : number;
  headers : list (string * string);
  body : string;
  responseTime : number
}.

Definition operatorName (operator : ComparisonOperator) : string :=
  match operator with
  | equals => "equals"
  | not_equals => "not_equals"
  | contains => "contains"
  | not_contains => "not_contains"
  | matches => "matches"
  | not_matches => "not_matches"
  | greater_than => "greater_than"
  | less_than => "less_than"
  | exists_ => "exists"
  | not_exists => "not_exists"
  end.

Definition statusCodeOperatorName (operator : StatusCodeOperator) : string :=
  match operator with
  | sc_equals => "equals"
  | sc_not_equals => "not_equals"
  | sc_matches => "matches"
  | sc_not_matches => "not_matches"
  end.

Definition responseTimeOperatorName (operator : ResponseTimeOperator) : string :=
  match operator with
  | rt_less_than => "less_than"
  | rt_greater_than => "greater_than"
  end.

Definition elementName (element : Element) : string :=
  match element with
  | First => "first"
  | Last => "last"
  | Any => "any"
  | All => "all"
  | Index n => toString n
  end.

(** An optional string as a value: [undefined] when it is missing. *)
Definition ofOption (expected : option string) : value :=
  match expected with
  | Some s => VString s
  | None => VUndefined
  end.

(** [a === b] on optional strings. *)
Definition strictEquals (a b : option string) : bool :=
  match a, b with
  | Some x, Some y => String.eqb x y
  | None, None => true
  | _, _ => false
  end.

(** What a [catch] block leaves in [passed] and [error]. *)
Definition caught (c : completion bool) : bool * string :=
  match c with
  | Normal b => (b, "")
  | Throw e => (false, message e)
  end.

(** [error || undefined] *)
Definition orUndefined (error : string) : option string :=
  match error with
  | EmptyString => None
  | _ => Some error
  end.

(** ** The check evaluator ([src/evaluator.ts]) *)

Section CheckEvaluator.
Context {host : Host}.

(** [compareValues(actual, operator, expected)] *)
Definition compareValues (actual : value) (operator : ComparisonOperator)
    (expected : option string) : completion bool :=
  match operator with
  | exists_ => Normal (negb (isNullish actual))
  | not_exists => Normal (isNullish actual)
  | equals =>
      s <- ToString actual ;;
      Normal (strictEquals (Some s) expected)
  | not_equals =>
      s <- ToString actual ;;
      Normal (negb (strictEquals (Some s) expected))
  | contains =>
      s <- ToString actual ;;
      Normal (includes s (orEmpty expected))
  | not_contains =>
      s <- ToString actual ;;
      Normal (negb (includes s (orEmpty expected)))
  | matches =>
      regex <- RegExp_new (orEmpty expected) ;;
      s <- ToString actual ;;
      Normal (RegExp_test regex s)
  | not_matches =>
      notRegex <- RegExp_new (orEmpty expected) ;;
      s <- ToString actual ;;
      Normal (negb (RegExp_test notRegex s))
  | greater_than =>
      a <- ToNumber actual ;;
      e <- ToNumber (ofOption expected) ;;
      Normal (gt a e)
  | less_than =>
      a <- ToNumber actual ;;
      e <- ToNumber (ofOption expected) ;;
      Normal (lt a e)
  end.

(** The pattern [/\[(\w+)\]/] at the start of [s]: the text of the group and
    the length of the match. *)
Definition matchBracket (s : string) : option (string * nat) :=
  match s with
  | String open r =>
      match span isWordChar r with
      | (String c w, String close _) =>
          if Ascii.eqb open "[" && Ascii.eqb close "]"
          then Some (String c w, S (S (String.length (String c w))))
          else None
      | _ => None
      end
  | EmptyString => None
  end.

(** [s.replace(/\[(\w+)\]/g, '.$1')]: the matches are found from left to
    right and do not overlap; [skip] counts the characters of the last match
    that are still to pass. *)
Fixpoint replaceBrackets (skip : nat) (s : string) : string :=
  match s with
  | EmptyString => EmptyString
  | String c s' =>
      match skip with
      | S k => replaceBrackets k s'
      | O =>
          match matchBracket s with
          | Some (w, len) => String "." w ++ replaceBrackets (Nat.pred len) s'
          | None => String c (replaceBrackets O s')
          end
      end
  end.

(** [s.replace(/^\./, '')] *)
Definition removeLeadingDot (s : string) : string :=
  match s with
  | String "." s' => s'
  | _ => s
  end.

(** The segments of a path. *)
Definition pathSegments (path : string) : list string :=
  let normalizedPath := if startsWith path "$" then substring1 path else path in
  split "." (removeLeadingDot (replaceBrackets O normalizedPath)).

(** The loop of [extractJsonPath] over the segments still to follow. *)
Fixpoint traverse (current : value) (segments : list string) : value :=
  match segments with
  | [] => current
  | segment :: rest =>
      if isNullish current then VUndefined
      else traverse (Get current segment) rest
  end.

(** [extractJsonPath(json, path)] *)
Definition extractJsonPath (json : value) (path : string) : value :=
  traverse json (pathSegments path).

(** The [try] block of [evaluateStatusCodeCheck]. *)
Definition statusCodeTry (check : StatusCodeCheck) (response : ResponseData)
  : completion bool :=
  let codes := map (fun code => parseInt (trim code)) (split "|" (sc_value check)) in
  let includes_ := existsb (fun code => SameValueZero code (statusCode response)) codes in
  match sc_operator check with
  | sc_equals => Normal includes_
  | sc_not_equals => Normal (negb includes_)
  | sc_matches =>
      regex <- RegExp_new (sc_value check) ;;
      Normal (RegExp_test regex (toString (statusCode response)))
  | sc_not_matches =>
      notRegex <- RegExp_new (sc_value check) ;;
      Normal (negb (RegExp_test notRegex (toString (statusCode response))))
  end.

(** [evaluateStatusCodeCheck(check, response)] *)
Definition evaluateStatusCodeCheck (check : StatusCodeCheck)
    (response : ResponseData) : IndividualCheckResult :=
  let '(passed, error) := caught (statusCodeTry check response) in
  {| type := "status_code";
     description :=
       "Status code " ++ statusCodeOperatorName (sc_operator check) ++ " "
         ++ sc_value check;
     passed := passed;
     error := orUndefined error;
     actualValue := VNumber (statusCode response);
     expectedValue := VString (sc_value check) |}.

(** The loop of [evaluateHeaderCheck] over [Object.entries(headers)]: the
    value of the first entry whose name is [headerName] in lower case. *)
Fixpoint findHeader (headerName : string) (entries : list (string * string))
  : option string :=
  match entries with
  | [] => None
  | (key, val) :: rest =>
      if String.eqb (toLowerCase key) headerName then Some val
      else findHeader headerName rest
  end.

(** The [try] block of [evaluateHeaderCheck]. *)
Definition headerTry (check : HeaderCheck) (headerValue : option string)
  : completion bool :=
  let found (test : string -> bool) :=
    match headerValue with
    | Some h => test h
    | None => false
    end in
  match h_operator check with
  | exists_ => Normal (found (fun _ => true))
  | not_exists => Normal (negb (found (fun _ => true)))
  | equals => Normal (strictEquals headerValue (h_value check))
  | not_equals => Normal (negb (strictEquals headerValue (h_value check)))
  | contains => Normal (found (fun h => includes h (orEmpty (h_value check))))
  | not_contains =>
      Normal (negb (found (fun h => includes h (orEmpty (h_value check)))))
  | matches =>
      regex <- RegExp_new (orEmpty (h_value check)) ;;
      Normal (found (RegExp_test regex))
  | not_matches =>
      notRegex <- RegExp_new (orEmpty (h_value check)) ;;
      Normal (negb (found (RegExp_test notRegex)))
  | greater_than | less_than => Normal false
  end.

(** [evaluateHeaderCheck(check, response)] *)
Definition evaluateHeaderCheck (check : HeaderCheck) (response : ResponseData)
  : IndividualCheckResult :=
  let headerName := toLowerCase (h_name check) in
  let headerValue := findHeader headerName (headers response) in
  let '(passed, error) := caught (headerTry check headerValue) in
  {| type := "header";
     description :=
       "Header " ++ h_name check ++ " " ++ operatorName (h_operator check) ++ " "
         ++ orEmpty (h_value check);
     passed := passed;
     error := orUndefined error;
     actualValue := ofOption headerValue;
     expectedValue := ofOption (h_value check) |}.

(** The [try] block of [evaluateBodyCheck]. *)
Definition bodyTry (check : BodyCheck) (body : string) : completion bool :=
  match b_operator check with
  | exists_ => Normal (0 <? String.length body)%nat
  | not_exists => Normal (String.length body =? 0)%nat
  | equals => Normal (strictEquals (Some body) (b_value check))
  | not_equals => Normal (negb (strictEquals (Some body) (b_value check)))
  | contains => Normal (includes body (orEmpty (b_value check)))
  | not_contains => Normal (negb (includes body (orEmpty (b_value check))))
  | matches =>
      regex <- RegExp_new (orEmpty (b_value check)) ;;
      Normal (RegExp_test regex body)
  | not_matches =>
      notRegex <- RegExp_new (orEmpty (b_value check)) ;;
      Normal (negb (RegExp_test notRegex body))
  | greater_than | less_than => Normal false
  end.

(** [body.length > 100 ? `${body.substring(0, 100)}...` : body], and the
    same at 1024 in [checkUrl]. *)
Definition truncate (limit : nat) (body : string) : string :=
  if (limit <? String.length body)%nat then substring0 limit body ++ "..."
  else body.

(** [evaluateBodyCheck(check, response)] *)
Definition evaluateBodyCheck (check : BodyCheck) (response : ResponseData)
  : IndividualCheckResult :=
  let '(passed, error) := caught (bodyTry check (body response)) in
  {| type := "body";
     description :=
       "Body " ++ operatorName (b_operator check) ++ " " ++ orEmpty (b_value check);
     passed := passed;
     error := orUndefined error;
     actualValue := VString (truncate 100 (body response));
     expectedValue := ofOption (b_value check) |}.

(** The result that [evaluateJsonPathCheck] returns after its [try] block. *)
Definition jsonPathResult (check : JsonPathCheck) (passed : bool)
    (error : string) (actualValue : value) : IndividualCheckResult :=
  {| type := "jsonpath";
     description :=
       "JSON path " ++ j_path check ++ " " ++ operatorName (j_operator check)
         ++ " " ++ orEmpty (j_value check);
     passed := passed;
     error := orUndefined error;
     actualValue :=
       if isObjectType actualValue then JSON_stringify actualValue
       else actualValue;
     expectedValue := ofOption (j_value check) |}.

(** The result that the branch for ['any'] and ['all'] returns. *)
Definition jsonPathEach (check : JsonPathCheck) (element : Element)
    (extractedValue : list value) (results : list bool) : IndividualCheckResult :=
  {| type := "jsonpath";
     description :=
       "JSON path " ++ j_path check ++ " " ++ elementName element ++ " "
         ++ operatorName (j_operator check) ++ " " ++ orEmpty (j_value check);
     passed :=
       match element with
       | Any => existsb (fun result => result) results
       | _ => forallb (fun result => result) results
       end;
     error := None;
     actualValue := JSON_stringify (VArray extractedValue);
     expectedValue := ofOption (j_value check) |}.

(** The end of the [try] block of [evaluateJsonPathCheck], on one value: the
    value of [actualValue] when the block ends, and its completion. *)
Definition jsonPathCompare (check : JsonPathCheck) (actualValue : value)
  : value * completion (IndividualCheckResult + bool) :=
  let actualValue :=
    match j_operator check with
    | contains | not_contains =>
        if isObjectType actualValue && negb (isNullish actualValue)
        then JSON_stringify actualValue
        else actualValue
    | _ => actualValue
    end in
  (actualValue,
   passed <- compareValues actualValue (j_operator check) (j_value check) ;;
   Normal (inr passed)).

(** The [try] block of [evaluateJsonPathCheck]: the value of the variable
    [actualValue] when the block ends, with either the result returned from
    inside the block, or [passed], or the exception. *)
Definition jsonPathTry (check : JsonPathCheck) (response : ResponseData)
  : value * completion (IndividualCheckResult + bool) :=
  let element :=
    match j_element check with
    | Some element => element
    | None => First
    end in
  match JSON_parse (body response) with
  | Throw e => (VNull, Throw e)
  | Normal jsonBody =>
      let extractedValue := extractJsonPath jsonBody (j_path check) in
      match extractedValue with
      | VArray items =>
          match element with
          | Index n => jsonPathCompare check (GetNumber extractedValue n)
          | First => jsonPathCompare check (GetNumber extractedValue (ofZ 0))
          | Last =>
              jsonPathCompare check
                (GetNumber extractedValue
                   (sub (ofZ (Z.of_nat (List.length items))) (ofZ 1)))
          | Any | All =>
              (VNull,
               results <-
                 mapM (fun item =>
                         compareValues item (j_operator check) (j_value check))
                      items ;;
               Normal (inl (jsonPathEach check element items results)))
          end
      | _ => jsonPathCompare check extractedValue
      end
  end.

(** [evaluateJsonPathCheck(check, response)] *)
Definition evaluateJsonPathCheck (check : JsonPathCheck)
    (response : ResponseData) : IndividualCheckResult :=
  match jsonPathTry check response with
  | (_, Normal (inl result)) => result
  | (actualValue, Normal (inr passed)) =>
      jsonPathResult check passed "" actualValue
  | (actualValue, Throw e) => jsonPathResult check false (message e) actualValue
  end.

(** [evaluateResponseTimeCheck(check, response)] *)
Definition evaluateResponseTimeCheck (check : ResponseTimeCheck)
    (response : ResponseData) : IndividualCheckResult :=
  {| type := "response_time";
     description :=
       "Response time " ++ responseTimeOperatorName (rt_operator check) ++ " "
         ++ toString (rt_value check) ++ "ms";
     passed :=
       match rt_operator check with
       | rt_less_than => lt (responseTime response) (rt_value check)
       | rt_greater_than => gt (responseTime response) (rt_value check)
       end;
     error := None;
     actualValue := VNumber (responseTime response);
     expectedValue := VNumber (rt_value check) |}.

(** [evaluateCheck(check, response)] *)
Definition evaluateCheck (check : Check) (response : ResponseData)
  : IndividualCheckResult :=
  match check with
  | OfStatusCode check => evaluateStatusCodeCheck check response
  | OfHeader check => evaluateHeaderCheck check response
  | OfBody check => evaluateBodyCheck check response
  | OfJsonPath check => evaluateJsonPathCheck check response
  | OfResponseTime check => evaluateResponseTimeCheck check response
  | OfUnknown type =>
      {| type := "unknown";
         description := "Unknown check type";
         passed := false;
         error := Some ("Unknown check type: " ++ type);
         actualValue := VUndefined;
         expectedValue := VUndefined |}
  end.

(** [evaluateChecks(checks, response)] *)
Definition evaluateChecks (checks : list Check) (response : ResponseData)
  : list IndividualCheckResult :=
  map (fun check => evaluateCheck check response) checks.

(** A failure of the evaluation of a check: the exception that its [try]
    block throws on a pattern that is no regular expression, on a body that
    is no JSON text, or in the comparison of the extracted value. *)
Inductive EvaluationFailure : Check -> ResponseData -> Error -> Prop :=
  | MalformedStatusPattern (check : StatusCodeCheck) response e :
      sc_operator check = sc_matches \/ sc_operator check = sc_not_matches ->
      RegExp_new (sc_value check) = Throw e ->
      EvaluationFailure (OfStatusCode check) response e
  | MalformedHeaderPattern (check : HeaderCheck) response e :
      h_operator check = matches \/ h_operator check = not_matches ->
      RegExp_new (orEmpty (h_value check)) = Throw e ->
      EvaluationFailure (OfHeader check) response e
  | MalformedBodyPattern (check : BodyCheck) response e :
      b_operator check = matches \/ b_operator check = not_matches ->
      RegExp_new (orEmpty (b_value check)) = Throw e ->
      EvaluationFailure (OfBody check) response e
  | UnparsableJson (check : JsonPathCheck) response e :
      JSON_parse (body response) = Throw e ->
      EvaluationFailure (OfJsonPath check) response e
  | ComparisonThrows (check : JsonPathCheck) response e :
      snd (jsonPathTry check response) = Throw e ->
      EvaluationFailure (OfJsonPath check) response e.

End CheckEvaluator.

(** ** The probe ([src/checker.ts]) *)

Record UrlConfig : Type := {
  url : string;
  name : option string;
  timeout : option number;
  successCodes : option (list number);
  requestHeaders : option (list (string * string));
  method : option string;
  requestBody : option string;
  contentType : option string;
  checks : option (list Check)
}.

Record Config : Type := {
  urls : list UrlConfig;
  globalTimeout : option number;
  globalSuccessCodes : option (list number)
}.

(** What [makeRequest] resolves to. *)
Record HttpResponse : Type := {
  res_statusCode : number;
  res_headers : list (string * string);
  res_body : string
}.

Record CheckResult : Type := {
  r_url : string;
  r_name : option string;
  r_success : bool;
  r_statusCode : option number;
  r_headers : option (list (string * string));
  r_body : option string;
  r_error : option string;
  r_responseTime : number;
  r_timestamp : number;
  r_checkResults : option (list IndividualCheckResult)
}.

(** What one run of [checkUrl] takes from outside: the outcome of
    [makeRequest], [Throw] when the promise is rejected, and the clock, read
    before the request, when the request settles and for the time stamp. *)
Record Run : Type := {
  startTime : number;
  response : completion HttpResponse;
  settledTime : number;
  timestamp : number
}.

Section StatusChecker.
Context {host : Host}.

(** [urlConfig.successCodes || this.config.globalSuccessCodes || [200]]: an
    array is truthy, the empty one too. *)
Definition effectiveSuccessCodes (config : Config) (urlConfig : UrlConfig)
  : list number :=
  match successCodes urlConfig with
  | Some codes => codes
  | None =>
      match globalSuccessCodes config with
      | Some codes => codes
      | None => [ofZ 200]
      end
  end.

(** The checks [checkUrl] runs. *)
Definition effectiveChecks (config : Config) (urlConfig : UrlConfig)
  : list Check :=
  match checks urlConfig with
  | Some (check :: rest) => check :: rest
  | _ =>
      let successCodes := effectiveSuccessCodes config urlConfig in
      let statusCodeCheck :=
        {| sc_operator := sc_equals;
           sc_value := join "|" (map toString successCodes) |} in
      [OfStatusCode statusCodeCheck]
  end.

(** The text of one failed check in [checkResult.error]. *)
Definition failedCheckText (check : IndividualCheckResult) : completion string :=
  expected <- ToString (expectedValue check) ;;
  actual <- ToString (actualValue check) ;;
  Normal (description check ++ " - Expected: " ++ expected ++ ", Actual: "
            ++ actual).

(** The [try] block of [checkUrl]. *)
Definition checkUrlTry (config : Config) (urlConfig : UrlConfig) (run : Run)
  : completion CheckResult :=
  response <- response run ;;
  let responseTime := sub (settledTime run) (startTime run) in
  let checks := effectiveChecks config urlConfig in
  let checkResults :=
    evaluateChecks checks
      {| statusCode := res_statusCode response;
         headers := res_headers response;
         body := res_body response;
         responseTime := responseTime |} in
  let success := forallb passed checkResults in
  error <-
    (if success then Normal None
     else
       let failedChecks := filter (fun result => negb (passed result)) checkResults in
       texts <- mapM failedCheckText failedChecks ;;
       Normal (Some (join "; " texts))) ;;
  Normal
    {| r_url := url urlConfig;
       r_name := name urlConfig;
       r_success := success;
       r_statusCode := Some (res_statusCode response);
       r_headers := Some (res_headers response);
       r_body := Some (truncate 1024 (res_body response));
       r_error := error;
       r_responseTime := responseTime;
       r_timestamp := timestamp run;
       r_checkResults := Some checkResults |}.

(** [checkUrl(urlConfig)]; what it writes to the log is left out. *)
Definition checkUrl (config : Config) (urlConfig : UrlConfig) (run : Run)
  : CheckResult :=
  match checkUrlTry config urlConfig run with
  | Normal checkResult => checkResult
  | Throw e =>
      {| r_url := url urlConfig;
         r_name := name urlConfig;
         r_success := false;
         r_statusCode := None;
         r_headers := None;
         r_body := None;
         r_error := Some (message e);
         r_responseTime := sub (settledTime run) (startTime run);
         r_timestamp := timestamp run;
         r_checkResults := None |}
  end.

End StatusChecker.

(** ** A reference host

    An executable host, to run the evaluator on concrete responses:
    [JSON.parse] after ECMA-404 on the code units the model covers, and
    regular expressions over the syntax described at [Regex.parse]. *)

Module Json.

Definition isJsonSpace (c : ascii) : bool :=
  (charCode c =? 32)%N || (charCode c =? 9)%N || (charCode c =? 10)%N
  || (charCode c =? 13)%N.

Fixpoint skipSpace (s : string) : string :=
  match s with
  | String c s' => if isJsonSpace c then skipSpace s' else s
  | EmptyString => EmptyString
  end.

Definition simpleEscape (c : ascii) : option ascii :=
  let n := charCode c in
  if (n =? 34)%N || (n =? 92)%N || (n =? 47)%N then Some c
  else if Ascii.eqb c "b" then Some (ascii_of_N 8)
  else if Ascii.eqb c "f" then Some (ascii_of_N 12)
  else if Ascii.eqb c "n" then Some (ascii_of_N 10)
  else if Ascii.eqb c "r" then Some (ascii_of_N 13)
  else if Ascii.eqb c "t" then Some (ascii_of_N 9)
  else None.

Definition cons (c : ascii) (r : option (string * string)) : option (string * string) :=
  match r with
  | Some (s, rest) => Some (String c s, rest)
  | None => None
  end.

(** The characters of a string literal after its opening quote, and what
    follows the closing quote. An escape [\uXXXX] of a code unit from 256 on
    is outside the model and refused. *)
Fixpoint parseChars (s : string) : option (string * string) :=
  match s with
  | EmptyString => None
  | String c r =>
      if Ascii.eqb c doubleQuote then Some (EmptyString, r)
      else if Ascii.eqb c "\" then
        match r with
        | String "u" (String h1 (String h2 (String h3 (String h4 r')))) =>
            match radixValue 16 (String h1 (String h2 (String h3 (String h4 EmptyString)))) with
            | Some n => if (n <? 256)%Z then cons (ascii_of_N (Z.to_N n)) (parseChars r') else None
            | None => None
            end
        | String e r' =>
            match simpleEscape e with
            | Some c' => cons c' (parseChars r')
            | None => None
            end
        | EmptyString => None
        end
      else if (charCode c <? 32)%N then None
      else cons c (parseChars r)
  end.

(** A number literal at the start of [s]. *)
Definition parseNumber (s : string) : option (number * string) :=
  let '(negative, r) :=
    match s with
    | String "-" r => (true, r)
    | _ => (false, s)
    end in
  let '(int, r1) := span isDigit r in
  let intOk :=
    match int with
    | EmptyString => false
    | String "0" (String _ _) => false
    | _ => true
    end in
  let frac :=
    match r1 with
    | String "." r2 =>
        match span isDigit r2 with
        | (EmptyString, _) => None
        | (f, r3) => Some (f, r3)
        end
    | _ => Some (EmptyString, r1)
    end in
  match intOk, frac with
  | true, Some (f, r3) =>
      let mantissa := digitsValue (int ++ f) in
      let scale := Z.of_nat (String.length f) in
      match r3 with
      | String x r4 =>
          if Ascii.eqb x "e" || Ascii.eqb x "E" then
            let '(expNegative, r5) := splitSign r4 in
            match span isDigit r5 with
            | (EmptyString, _) => None
            | (digits, r6) =>
                Some (ofDecimal negative mantissa
                        (cond_Zopp expNegative (digitsValue digits) - scale), r6)
            end
          else Some (ofDecimal negative mantissa (- scale), r3)
      | EmptyString => Some (ofDecimal negative mantissa (- scale), r3)
      end
  | _, _ => None
  end.

Definition isIndexKey (key : string) : bool :=
  match indexOfKey key with
  | Some _ => true
  | None => false
  end.

(** Whether the new key [key] comes before the key [k] of an object: integer
    indices first, in ascending order, then the other keys as they came. *)
Definition keyBefore (key k : string) : bool :=
  match indexOfKey key, indexOfKey k with
  | Some i, Some j => (i <? j)%nat
  | Some _, None => true
  | None, _ => false
  end.

Fixpoint insertField (key : string) (v : value) (fields : list (string * value))
  : list (string * value) :=
  match fields with
  | [] => [(key, v)]
  | (k, w) :: rest =>
      if keyBefore key k then (key, v) :: fields
      else (k, w) :: insertField key v rest
  end.

Fixpoint replaceField (key : string) (v : value) (fields : list (string * value))
  : list (string * value) :=
  match fields with
  | [] => []
  | (k, w) :: rest =>
      if String.eqb k key then (k, v) :: rest
      else (k, w) :: replaceField key v rest
  end.

(** CreateDataProperty on the object under construction. *)
Definition defineField (key : string) (v : value) (fields : list (string * value))
  : list (string * value) :=
  match lookup key fields with
  | Some _ => replaceField key v fields
  | None => insertField key v fields
  end.

Definition literal (word : string) (v : value) (s : string)
  : option (value * string) :=
  if startsWith s word
  then Some (v, String.substring (String.length word)
                  (String.length s - String.length word) s)
  else None.

(** A JSON value at the start of [s], after white space. *)
Fixpoint parseValue (fuel : nat) (s : string) : option (value * string) :=
  match fuel with
  | O => None
  | S fuel' =>
      match skipSpace s with
      | EmptyString => None
      | String c r =>
          if Ascii.eqb c doubleQuote then
            match parseChars r with
            | Some (text, rest) => Some (VString text, rest)
            | None => None
            end
          else if Ascii.eqb c "[" then
            match skipSpace r with
            | String "]" rest => Some (VArray [], rest)
            | _ =>
                (fix elements (n : nat) (acc : list value) (s : string) {struct n}
                   : option (value * string) :=
                   match n with
                   | O => None
                   | S n' =>
                       match parseValue fuel' s with
                       | Some (v, rest) =>
                           match skipSpace rest with
                           | String "," rest' => elements n' (v :: acc) rest'
                           | String "]" rest' => Some (VArray (rev (v :: acc)), rest')
                           | _ => None
                           end
                       | None => None
                       end
                   end) fuel' [] r
            end
          else if Ascii.eqb c "{" then
            match skipSpace r with
            | String "}" rest => Some (VObject [], rest)
            | _ =>
                (fix members (n : nat) (acc : list (string * value)) (s : string)
                   {struct n} : option (value * string) :=
                   match n with
                   | O => None
                   | S n' =>
                       match skipSpace s with
                       | String q s1 =>
                           if Ascii.eqb q doubleQuote then
                             match parseChars s1 with
                             | Some (key, s2) =>
                                 match skipSpace s2 with
                                 | String ":" s3 =>
                                     match parseValue fuel' s3 with
                                     | Some (v, rest) =>
                                         let acc' := defineField key v acc in
                                         match skipSpace rest with
                                         | String "," rest' => members n' acc' rest'
                                         | String "}" rest' => Some (VObject acc', rest')
                                         | _ => None
                                         end
                                     | None => None
                                     end
                                 | _ => None
                                 end
                             | None => None
                             end
                           else None
                       | EmptyString => None
                       end
                   end) fuel' [] r
            end
          else if Ascii.eqb c "t" then literal "true" (VBoolean true) (String c r)
          else if Ascii.eqb c "f" then literal "false" (VBoolean false) (String c r)
          else if Ascii.eqb c "n" then literal "null" VNull (String c r)
          else
            match parseNumber (String c r) with
            | Some (x, rest) => Some (VNumber x, rest)
            | None => None
            end
      end
  end.

(** [JSON.parse(text)] *)
Definition parse (text : string) : completion value :=
  match parseValue (S (String.length text)) text with
  | Some (v, rest) =>
      match skipSpace rest with
      | EmptyString => Normal v
      | _ => Throw (SyntaxError "Unexpected non-whitespace character after JSON")
      end
  | None => Throw (SyntaxError "Unexpected token in JSON")
  end.

End Json.

(** Regular expressions without flags, decided by derivatives. The input is
    read between a mark for its start and a mark for its end, which the
    assertions [^] and [$] consume. *)
Module Regex.

Inductive token : Type :=
  | Bos
  | Chr (c : ascii)
  | Eos.

Inductive re : Type :=
  | Void
  | Eps
  | Tok (p : token -> bool)
  | Cat (r1 r2 : re)
  | Alt (r1 r2 : re)
  | Star (r : re).

Definition cat (r1 r2 : re) : re :=
  match r1, r2 with
  | Void, _ | _, Void => Void
  | Eps, r | r, Eps => r
  | _, _ => Cat r1 r2
  end.

Definition alt (r1 r2 : re) : re :=
  match r1, r2 with
  | Void, r | r, Void => r
  | _, _ => Alt r1 r2
  end.

Fixpoint nullable (r : re) : bool :=
  match r with
  | Void => false
  | Eps => true
  | Tok _ => false
  | Cat r1 r2 => nullable r1 && nullable r2
  | Alt r1 r2 => nullable r1 || nullable r2
  | Star _ => true
  end.

Fixpoint deriv (t : token) (r : re) : re :=
  match r with
  | Void | Eps => Void
  | Tok p => if p t then Eps else Void
  | Cat r1 r2 =>
      if nullable r1 then alt (cat (deriv t r1) r2) (deriv t r2)
      else cat (deriv t r1) r2
  | Alt r1 r2 => alt (deriv t r1) (deriv t r2)
  | Star r1 => cat (deriv t r1) (Star r1)
  end.

Definition anything : re := Star (Tok (fun _ => true)).

Definition tokens (s : string) : list token :=
  Bos :: map Chr (list_ascii_of_string s) ++ [Eos].

(** [regex.test(s)]: some part of [s] matches. *)
Definition test (r : re) (s : string) : bool :=
  nullable (fold_left (fun r t => deriv t r) (tokens s) (cat anything (cat r anything))).

Definition chr (p : ascii -> bool) : re :=
  Tok (fun t => match t with Chr c => p c | _ => false end).

Definition isLineTerminator (c : ascii) : bool :=
  (charCode c =? 10)%N || (charCode c =? 13)%N.

Fixpoint power (r : re) (n : nat) : re :=
  match n with
  | O => Eps
  | S k => cat r (power r k)
  end.

Inductive quantifier : Type :=
  | AtLeast (n : nat)
  | Between (n m : nat).

Definition quantify (r : re) (q : quantifier) : re :=
  match q with
  | AtLeast n => cat (power r n) (Star r)
  | Between n m => cat (power r n) (power (alt Eps r) (m - n))
  end.

Definition invalid (reason : string) : Error := SyntaxError reason.

(** [{n}], [{n,}] or [{n,m}] at the start of [s], after the brace. *)
Definition braces (s : string) : option (completion quantifier * string) :=
  match span isDigit s with
  | (EmptyString, _) => None
  | (lo, String "}" r) =>
      let n := Z.to_nat (digitsValue lo) in Some (Normal (Between n n), r)
  | (lo, String "," r) =>
      let n := Z.to_nat (digitsValue lo) in
      match span isDigit r with
      | (EmptyString, String "}" r') => Some (Normal (AtLeast n), r')
      | (hi, String "}" r') =>
          let m := Z.to_nat (digitsValue hi) in
          if (m <? n)%nat
          then Some (Throw (invalid "numbers out of order in {} quantifier"), r')
          else Some (Normal (Between n m), r')
      | _ => None
      end
  | _ => None
  end.

(** The quantifier at the start of [s], with what follows it. *)
Definition quantifierAt (s : string) : option (completion quantifier * string) :=
  let lazy (r : string) :=
    match r with
    | String "?" r' => r'
    | _ => r
    end in
  match s with
  | String "*" r => Some (Normal (AtLeast 0), lazy r)
  | String "+" r => Some (Normal (AtLeast 1), lazy r)
  | String "?" r => Some (Normal (Between 0 1), lazy r)
  | String "{" r =>
      match braces r with
      | Some (q, r') => Some (q, lazy r')
      | None => None
      end
  | _ => None
  end.

(** The set of a class escape [\d], [\w], [\s] and their complements. *)
Definition classEscape (c : ascii) : option (ascii -> bool) :=
  if Ascii.eqb c "d" then Some isDigit
  else if Ascii.eqb c "D" then Some (fun x => negb (isDigit x))
  else if Ascii.eqb c "w" then Some isWordChar
  else if Ascii.eqb c "W" then Some (fun x => negb (isWordChar x))
  else if Ascii.eqb c "s" then Some isWhiteSpace
  else if Ascii.eqb c "S" then Some (fun x => negb (isWhiteSpace x))
  else None.

(** The character of a control escape. *)
Definition controlEscape (c : ascii) : option ascii :=
  if Ascii.eqb c "t" then Some (ascii_of_N 9)
  else if Ascii.eqb c "n" then Some (ascii_of_N 10)
  else if Ascii.eqb c "v" then Some (ascii_of_N 11)
  else if Ascii.eqb c "f" then Some (ascii_of_N 12)
  else if Ascii.eqb c "r" then Some (ascii_of_N 13)
  else None.

Definition isLetter (c : ascii) : bool := inRange 65 90 c || inRange 97 122 c.

(** An escape after its backslash: a set of characters and what follows.
    Back references, word boundaries and the escapes [\c], [\x], [\u] and
    [\0] are not covered and refused. *)
Definition escape (inClass : bool) (s : string) : completion ((ascii -> bool) * string) :=
  match s with
  | EmptyString => Throw (invalid "\ at end of pattern")
  | String c r =>
      match classEscape c, controlEscape c with
      | Some p, _ => Normal (p, r)
      | None, Some x => Normal (Ascii.eqb x, r)
      | None, None =>
          if inClass && Ascii.eqb c "b" then Normal (Ascii.eqb (ascii_of_N 8), r)
          else if isLetter c || isDigit c then Throw (invalid "escape not covered")
          else Normal (Ascii.eqb c, r)
      end
  end.

(** The members of a class after [[] or [[^], up to the closing bracket. *)
Fixpoint classItems (fuel : nat) (acc : ascii -> bool) (s : string)
  : completion ((ascii -> bool) * string) :=
  match fuel with
  | O => Throw (invalid "Unterminated character class")
  | S fuel' =>
      match s with
      | EmptyString => Throw (invalid "Unterminated character class")
      | String "]" r => Normal (acc, r)
      | String "\" r =>
          '(p, r') <- escape true r ;;
          classItems fuel' (fun x => acc x || p x) r'
      | String lo (String "-" (String hi r)) =>
          if Ascii.eqb hi "]" then
            classItems fuel' (fun x => acc x || Ascii.eqb x lo) (String "-" (String hi r))
          else if Ascii.eqb hi "\" then Throw (invalid "escape not covered")
          else if (charCode hi <? charCode lo)%N
          then Throw (invalid "Range out of order in character class")
          else classItems fuel' (fun x => acc x || inRange (charCode lo) (charCode hi) x) r
      | String c r => classItems fuel' (fun x => acc x || Ascii.eqb x c) r
      end
  end.

Definition class (s : string) : completion (re * string) :=
  match s with
  | String "^" r =>
      '(p, r') <- classItems (String.length s) (fun _ => false) r ;;
      Normal (chr (fun x => negb (p x)), r')
  | _ =>
      '(p, r') <- classItems (S (String.length s)) (fun _ => false) s ;;
      Normal (chr p, r')
  end.

(** Disjunction: alternatives of terms, up to the end of the pattern or to a
    closing parenthesis, which is left in place. Groups [(...)] and
    [(?:...)] are covered; look-around and named groups are refused. *)
Fixpoint disjunction (fuel : nat) (s : string) : completion (re * string) :=
  match fuel with
  | O => Throw (invalid "pattern too deep")
  | S fuel' =>
      let atom (s : string) : completion (re * bool * string) :=
        match s with
        | EmptyString => Normal (Eps, false, s)
        | String c r =>
            if Ascii.eqb c "(" then
              r' <-
                match r with
                | String "?" (String ":" r1) => Normal r1
                | String "?" _ => Throw (invalid "group not covered")
                | _ => Normal r
                end ;;
              '(g, r'') <- disjunction fuel' r' ;;
              match r'' with
              | String ")" rest => Normal (g, true, rest)
              | _ => Throw (invalid "Unterminated group")
              end
            else if Ascii.eqb c "[" then
              '(g, rest) <- class r ;; Normal (g, true, rest)
            else if Ascii.eqb c "\" then
              '(p, rest) <- escape false r ;; Normal (chr p, true, rest)
            else if Ascii.eqb c "." then
              Normal (chr (fun x => negb (isLineTerminator x)), true, r)
            else if Ascii.eqb c "^" then
              Normal (Tok (fun t => match t with Bos => true | _ => false end), false, r)
            else if Ascii.eqb c "$" then
              Normal (Tok (fun t => match t with Eos => true | _ => false end), false, r)
            else Normal (chr (Ascii.eqb c), true, r)
        end in
      let fix terms (n : nat) (acc : re) (s : string) {struct n}
        : completion (re * string) :=
        match n with
        | O => Throw (invalid "pattern too long")
        | S n' =>
            match s with
            | EmptyString => Normal (acc, s)
            | String "|" _ | String ")" _ => Normal (acc, s)
            | _ =>
                match quantifierAt s with
                | Some _ => Throw (invalid "Nothing to repeat")
                | None =>
                    '(a, quantifiable, r) <- atom s ;;
                    match quantifierAt r with
                    | Some (q, r') =>
                        if quantifiable then
                          q <- q ;; terms n' (cat acc (quantify a q)) r'
                        else Throw (invalid "Nothing to repeat")
                    | None => terms n' (cat acc a) r
                    end
                end
            end
        end in
      let fix alternatives (n : nat) (acc : re) (s : string) {struct n}
        : completion (re * string) :=
        match n with
        | O => Throw (invalid "pattern too long")
        | S n' =>
            '(r, rest) <- terms (S (String.length s)) Eps s ;;
            match rest with
            | String "|" rest' => alternatives n' (alt acc r) rest'
            | _ => Normal (alt acc r, rest)
            end
        end in
      alternatives (S (String.length s)) Void s
  end.

Definition pattern (source : string) : completion re :=
  '(r, rest) <- disjunction (S (String.length source)) source ;;
  match rest with
  | EmptyString => Normal r
  | _ => Throw (invalid "Unmatched ')'")
  end.

(** [new RegExp(source)] *)
Definition parse (source : string) : completion re :=
  match pattern source with
  | Normal r => Normal r
  | Throw e =>
      Throw (SyntaxError ("Invalid regular expression: /" ++ source ++ "/: "
                            ++ message e))
  end.

End Regex.

#[export] Instance reference_host : Host.
Proof.
  refine {| RegExp := Regex.re;
            RegExp_new := Regex.parse;
            RegExp_test := Regex.test;
            JSON_parse := Json.parse |}.
  - intros source e. unfold Regex.parse.
    destruct (Regex.pattern source); intro E; inversion E; discriminate.
  - intros text e. unfold Json.parse.
    destruct (Json.parseValue _ _) as [[v rest]|]; [destruct (Json.skipSpace rest)|];
      intro E; inversion E; discriminate.
Defined.

(** ** Responses and probes for the examples *)

(** The text of a document: the body a server sends for it. *)
Definition textOf (document : value) : string :=
  match JSON_stringify document with
  | VString text => text
  | _ => ""
  end.

Definition respond (status : Z) (headers : list (string * string)) (body : string)
  : ResponseData :=
  {| statusCode := ofZ status; headers := headers; body := body;
     responseTime := ofZ 100 |}.

Definition tagsBody : string :=
  textOf (VObject [("tags", VArray [VString "developer"; VString "typescript"])]).

Definition tagsCheck (operator : ComparisonOperator) (expected : string)
    (element : Element) : JsonPathCheck :=
  {| j_path := "tags"; j_operator := operator; j_value := Some expected;
     j_element := Some element |}.

(** An array whose second element has a property [toString] of its own. *)
Definition oddTagsBody : string :=
  textOf (VObject [("tags", VArray [VString "typescript";
                                     VObject [("toString", VNumber (ofZ 1))]])]).

Definition longBody : string := JsString.repeat "a" 1994 ++ "needle".

Definition plainConfig : Config :=
  {| urls := []; globalTimeout := None; globalSuccessCodes := None |}.

Definition probe (checks : option (list Check)) : UrlConfig :=
  {| url := "http://localhost/"; name := None; timeout := None;
     successCodes := None; requestHeaders := None; method := None;
     requestBody := None; contentType := None; checks := checks |}.

Definition answered (status : Z) (body : string) : Run :=
  {| startTime := ofZ 1000;
     response := Normal {| res_statusCode := ofZ status; res_headers := [];
                           res_body := body |};
     settledTime := ofZ 1100;
     timestamp := ofZ 1100 |}.

(** The responses of the tests of the evaluator. *)
Definition headersResponse : ResponseData :=
  respond 200 [("content-type", "application/json; charset=utf-8");
               ("x-custom-header", "test-value")] "".

Definition personText : string :=
  textOf (VObject [("name", VString "John Doe"); ("age", VNumber (ofZ 30));
                   ("active", VBoolean true)]).

Definition profileText : string :=
  textOf (VObject [("name", VString "John Doe"); ("age", VNumber (ofZ 30));
                   ("address", VObject [("city", VString "Sydney");
                                        ("country", VString "Australia")]);
                   ("tags", VArray [VString "developer"; VString "typescript"]);
                   ("active", VBoolean true)]).

Definition statusCheck (operator : StatusCodeOperator) (expected : string) : Check :=
  OfStatusCode {| sc_operator := operator; sc_value := expected |}.

Definition headerCheck (name : string) (operator : ComparisonOperator)
    (expected : option string) : Check :=
  OfHeader {| h_name := name; h_operator := operator; h_value := expected |}.

Definition bodyCheck (operator : ComparisonOperator) (expected : option string)
  : Check :=
  OfBody {| b_operator := operator; b_value := expected |}.

Definition pathCheck (path : string) (operator : ComparisonOperator)
    (expected : option string) : Check :=
  OfJsonPath {| j_path := path; j_operator := operator; j_value := expected;
                j_element := None |}.

Definition timeCheck (operator : ResponseTimeOperator) (ms : Z) : Check :=
  OfResponseTime {| rt_operator := operator; rt_value := ofZ ms |}.

(** ** Negated operators *)

(** The operator that states the contrary, for the operators that have
    one. *)
Definition negated (operator : ComparisonOperator) : option ComparisonOperator :=
  match operator with
  | equals => Some not_equals
  | not_equals => Some equals
  | contains => Some not_contains
  | not_contains => Some contains
  | matches => Some not_matches
  | not_matches => Some matches
  | exists_ => Some not_exists
  | not_exists => Some exists_
  | greater_than | less_than => None
  end.

Definition negatedStatusCode (operator : StatusCodeOperator) : StatusCodeOperator :=
  match operator with
  | sc_equals => sc_not_equals
  | sc_not_equals => sc_equals
  | sc_matches => sc_not_matches
  | sc_not_matches => sc_matches
  end.

(** The check with the contrary operator: for a JSON-path check, when its
    [element] is neither ['any'] nor ['all']. *)
Definition negatedCheck (check : Check) : option Check :=
  match check with
  | OfStatusCode c =>
      Some (OfStatusCode {| sc_operator := negatedStatusCode (sc_operator c);
                            sc_value := sc_value c |})
  | OfHeader c =>
      match negated (h_operator c) with
      | Some operator =>
          Some (OfHeader {| h_name := h_name c; h_operator := operator;
                            h_value := h_value c |})
      | None => None
      end
  | OfBody c =>
      match negated (b_operator c) with
      | Some operator =>
          Some (OfBody {| b_operator := operator; b_value := b_value c |})
      | None => None
      end
  | OfJsonPath c =>
      match j_element c, negated (j_operator c) with
      | (Some Any | Some All), _ => None
      | _, Some operator =>
          Some (OfJsonPath {| j_path := j_path c; j_operator := operator;
                              j_value := j_value c; j_element := j_element c |})
      | _, None => None
      end
  | OfResponseTime _ | OfUnknown _ => None
  end.

(** ** Measures used in the statements about paths *)

(** The number of nodes of a value. *)
Fixpoint weight (v : value) : nat :=
  match v with
  | VArray items =>
      S ((fix sum (l : list value) : nat :=
            match l with
            | [] => O
            | item :: rest => weight item + sum rest
            end) items)
  | VObject fields =>
      S ((fix sum (l : list (string * value)) : nat :=
            match l with
            | [] => O
            | (_, item) :: rest => weight item + sum rest
            end) fields)
  | _ => 1
  end.

(** Whether a path, used after a dot, starts a segment of its own: it starts
    with none of ['$'], ['.'] and ['[']. *)
Definition startsSegment (path : string) : bool :=
  match path with
  | EmptyString => true
  | String c _ =>
      negb (Ascii.eqb c "$") && negb (Ascii.eqb c ".") && negb (Ascii.eqb c "[")
  end.

(** ** Success codes as text *)

(** Whether two numbers are the same datum. *)
Definition sameNumber (x y : number) : bool :=
  match x, y with
  | S754_zero s, S754_zero s' => Bool.eqb s s'
  | S754_infinity s, S754_infinity s' => Bool.eqb s s'
  | S754_nan, S754_nan => true
  | S754_finite s m e, S754_finite s' m' e' =>
      Bool.eqb s s' && Pos.eqb m m' && Z.eqb e e'
  | _, _ => false
  end.

(** Whether a success code between 0 and 999 is written without ['|'] and
    read back as itself by the check on the status code. *)
Definition readsBack (code : nat) : bool :=
  let text := toString (ofZ (Z.of_nat code)) in
  forallChars (fun c => negb (Ascii.eqb c "|")) text
  && sameNumber (parseInt (trim text)) (ofZ (Z.of_nat code)).

(** ** The logger *)

(** The own property [key] of an object, whose fields are in own-property
    order. *)
Fixpoint getOwn {A : Type} (key : string) (fields : list (string * A)) : option A :=
  match fields with
  | [] => None
  | (k, v) :: rest => if String.eqb k key then Some v else getOwn key rest
  end.

(** [logLevels] of [Logger] *)
Definition logLevels : list (string * number) :=
  [("error", ofZ 0); ("warn", ofZ 1); ("info", ofZ 2); ("debug", ofZ 3)].

(** The members every object inherits from [Object.prototype]. *)
Definition inheritedNames : list string :=
  ["constructor"; "hasOwnProperty"; "isPrototypeOf"; "propertyIsEnumerable";
   "toLocaleString"; "toString"; "valueOf"; "__proto__"; "__defineGetter__";
   "__defineSetter__"; "__lookupGetter__"; "__lookupSetter__"].

(** Whether [!x] holds of a number. *)
Definition isFalsyNumber (x : number) : bool :=
  match x with
  | S754_zero _ | S754_nan => true
  | _ => false
  end.

(** [this.logLevels[name] || 2], the name being any string. An inherited
    member is a function or an object, which is no number: [None]. *)
Definition levelOf (name : string) : option number :=
  match getOwn name logLevels with
  | Some x => Some (if isFalsyNumber x then ofZ 2 else x)
  | None =>
      if existsb (String.eqb name) inheritedNames then None else Some (ofZ 2)
  end.

(** [x <= y] *)
Definition leq (x y : number) : bool := SFleb x y.

(** [shouldLog(level)] of a logger whose level is [logLevel]; [None] when one
    of the two names is an inherited member. *)
Definition shouldLog (logLevel level : string) : option bool :=
  match levelOf logLevel, levelOf level with
  | Some configLevel, Some messageLevel => Some (leq messageLevel configLevel)
  | _, _ => None
  end.

(** The level of the logger [checkUrls] gives to the loader of the
    configuration: [options?.log ? 'info' : 'error']. *)
Definition loaderLevel (log : option bool) : string :=
  match log with
  | Some true => "info"
  | _ => "error"
  end.

(** ** Members that a value inherits

    [current[key]] also finds the members of the prototype of [current],
    which are functions and objects of the platform and no values of
    [JSON.parse]: [Get] covers the reads of own properties, and the
    statements that depend on a missing key are about walks that read
    nothing inherited. The members are those of ECMAScript 2025 with its
    Annex B. *)

(** The members of [Array.prototype] with a string for key; [length] is a
    property of the array itself. *)
Definition arrayMembers : list string :=
  ["at"; "concat"; "copyWithin"; "entries"; "every"; "fill"; "filter"; "find";
   "findIndex"; "findLast"; "findLastIndex"; "flat"; "flatMap"; "forEach";
   "includes"; "indexOf"; "join"; "keys"; "lastIndexOf"; "map"; "pop"; "push";
   "reduce"; "reduceRight"; "reverse"; "shift"; "slice"; "some"; "sort";
   "splice"; "toReversed"; "toSorted"; "toSpliced"; "unshift"; "values"; "with"].

(** The members of [String.prototype]. *)
Definition stringMembers : list string :=
  ["anchor"; "at"; "big"; "blink"; "bold"; "charAt"; "charCodeAt"; "codePointAt";
   "concat"; "endsWith"; "fixed"; "fontcolor"; "fontsize"; "includes"; "indexOf";
   "isWellFormed"; "italics"; "lastIndexOf"; "link"; "localeCompare"; "match";
   "matchAll"; "normalize"; "padEnd"; "padStart"; "repeat"; "replace";
   "replaceAll"; "search"; "slice"; "small"; "split"; "startsWith"; "strike";
   "sub"; "substr"; "substring"; "sup"; "toLocaleLowerCase";
   "toLocaleUpperCase"; "toLowerCase"; "toUpperCase"; "toWellFormed"; "trim";
   "trimEnd"; "trimLeft"; "trimRight"; "trimStart"].

(** The members of [Number.prototype]. *)
Definition numberMembers : list string :=
  ["toExponential"; "toFixed"; "toPrecision"].

(** Whether [current[key]] is a member that [current] inherits: one of its
    prototype or of [Object.prototype], which no property of its own
    hides. *)
Definition inherits (current : value) (key : string) : bool :=
  let among (names : list string) := existsb (String.eqb key) names in
  match current with
  | VUndefined | VNull => false
  | VBoolean _ => among inheritedNames
  | VNumber _ => among numberMembers || among inheritedNames
  | VString _ => among stringMembers || among inheritedNames
  | VArray _ => among arrayMembers || among inheritedNames
  | VObject fields =>
      match lookup key fields with
      | Some _ => false
      | None => among inheritedNames
      end
  end.

(** Whether the loop of [extractJsonPath], from [current] over [segments],
    reads own properties only. *)
Fixpoint readsOwn (current : value) (segments : list string) : bool :=
  match segments with
  | [] => true
  | segment :: rest =>
      isNullish current
      || negb (inherits current segment) && readsOwn (Get current segment) rest
  end.

(** ** The request *)

(** The array index a property key stands for. *)
Definition arrayIndex (key : string) : option Z :=
  match key with
  | EmptyString => None
  | String c rest =>
      if forallChars isDigit key
         && (negb (Ascii.eqb c "0") || String.eqb rest EmptyString)
      then
        if (digitsValue key <? 4294967295)%Z then Some (digitsValue key) else None
      else None
  end.

Fixpoint replaceOwn {A : Type} (key : string) (v : A) (fields : list (string * A))
  : list (string * A) :=
  match fields with
  | [] => []
  | (k, x) :: rest =>
      if String.eqb k key then (k, v) :: rest else (k, x) :: replaceOwn key v rest
  end.

(** The place of a new property whose key is the array index [i]: after the
    smaller indices. *)
Fixpoint insertIndex {A : Type} (i : Z) (key : string) (v : A)
    (fields : list (string * A)) : list (string * A) :=
  match fields with
  | [] => [(key, v)]
  | (k, x) :: rest =>
      match arrayIndex k with
      | Some j =>
          if (j <? i)%Z then (k, x) :: insertIndex i key v rest
          else (key, v) :: fields
      | None => (key, v) :: fields
      end
  end.

(** [object[key] = v]: the value of an own property is replaced where it
    is; a new property comes after the others, one whose key is an array
    index in the order of the indices, before the others. *)
Definition setOwn {A : Type} (key : string) (v : A) (fields : list (string * A))
  : list (string * A) :=
  match getOwn key fields with
  | Some _ => replaceOwn key v fields
  | None =>
      match arrayIndex key with
      | Some i => insertIndex i key v fields
      | None => (fields ++ [(key, v)])%list
      end
  end.

(** Whether a string that may be missing is truthy. *)
Definition isTruthyText (text : option string) : bool :=
  match text with
  | Some (String _ _) => true
  | _ => false
  end.

(** What [new URL(url)] gives. *)
Record ParsedUrl : Type := {
  protocol : string;
  hostname : string;
  port : string;
  pathname : string;
  search : string
}.

(** The options [makeRequest] hands to [request]. *)
Record RequestOptions : Type := {
  o_secure : bool;
  o_hostname : string;
  o_port : value;
  o_path : string;
  o_method : string;
  o_timeout : number;
  o_headers : list (string * string)
}.

(** The request [makeRequest] sends: its options and the body written. *)
Record Request : Type := {
  q_options : RequestOptions;
  q_written : option string
}.

(** [urlConfig.timeout || this.config.globalTimeout || 5000] *)
Definition effectiveTimeout (config : Config) (urlConfig : UrlConfig) : number :=
  match timeout urlConfig with
  | Some t =>
      if isFalsyNumber t then
        match globalTimeout config with
        | Some g => if isFalsyNumber g then ofZ 5000 else g
        | None => ofZ 5000
        end
      else t
  | None =>
      match globalTimeout config with
      | Some g => if isFalsyNumber g then ofZ 5000 else g
      | None => ofZ 5000
      end
  end.

Section Request.
Variable URL_new : string -> completion ParsedUrl.

(** The request [makeRequest(urlConfig, timeout)] sends, and the probe as the
    call leaves it: [headers] is the object of the probe, when it has one, so
    that the header added is added to the probe. What the server answers is
    in [Run]. *)
Definition makeRequest (urlConfig : UrlConfig) (timeoutMs : number)
  : completion (Request * UrlConfig) :=
  parsedUrl <- URL_new (url urlConfig) ;;
  let isHttps := String.eqb (protocol parsedUrl) "https:" in
  let methodName :=
    match method urlConfig with
    | Some (String c rest) => String c rest
    | _ => "GET"
    end in
  let headers :=
    match requestHeaders urlConfig with
    | Some headers => headers
    | None => []
    end in
  let adds :=
    isTruthyText (requestBody urlConfig) && isTruthyText (contentType urlConfig)
    && negb (isTruthyText (getOwn "content-type" headers)) in
  let headers' :=
    if adds then setOwn "content-type" (orEmpty (contentType urlConfig)) headers
    else headers in
  let urlConfig' :=
    match requestHeaders urlConfig with
    | Some _ =>
        {| url := url urlConfig; name := name urlConfig;
           timeout := timeout urlConfig;
           successCodes := successCodes urlConfig;
           requestHeaders := Some headers';
           method := method urlConfig;
           requestBody := requestBody urlConfig;
           contentType := contentType urlConfig;
           checks := checks urlConfig |}
    | None => urlConfig
    end in
  let options :=
    {| o_secure := isHttps;
       o_hostname := hostname parsedUrl;
       o_port :=
         match port parsedUrl with
         | String c rest => VString (String c rest)
         | EmptyString => VNumber (if isHttps then ofZ 443 else ofZ 80)
         end;
       o_path := pathname parsedUrl ++ search parsedUrl;
       o_method := methodName;
       o_timeout := timeoutMs;
       o_headers := headers' |} in
  Normal
    ({| q_options := options;
        q_written :=
          if isTruthyText (requestBody urlConfig)
             && negb (existsb (String.eqb methodName) ["GET"; "HEAD"])
          then requestBody urlConfig
          else None |},
     urlConfig').

End Request.

(** ** The loader of the configuration ([src/config.ts]) *)

(** What the loader throws: an error of the platform, or [new Error(text)]. *)
Inductive Thrown : Type :=
  | OfPlatform (e : Error)
  | NewError (text : string).

(** [error.message] *)
Definition thrownMessage (t : Thrown) : string :=
  match t with
  | OfPlatform e => message e
  | NewError text => text
  end.

Inductive outcome (A : Type) : Type :=
  | Returned (a : A)
  | Failed (t : Thrown).

Arguments Returned {A} a.
Arguments Failed {A} t.

(** Whether [!v] fails. *)
Definition isTruthy (v : value) : bool :=
  match v with
  | VUndefined | VNull => false
  | VBoolean b => b
  | VNumber x => negb (isFalsyNumber x)
  | VString s => negb (String.eqb s EmptyString)
  | VArray _ | VObject _ => true
  end.

(** The error of reading the property [key] of [null] or [undefined]. *)
Definition cannotRead (v : value) (key : string) : Error :=
  TypeError ("Cannot read properties of "
             ++ (match v with VNull => "null" | _ => "undefined" end)
             ++ " (reading '" ++ key ++ "')").

(** [v || other] *)
Definition orElse (v other : value) : value :=
  if isTruthy v then v else other.

(** The name a probe has once validated. *)
Definition nameAt (urlConfig : value) (index : nat) : value :=
  orElse (Get urlConfig "name")
    (VString ("URL " ++ toString (ofZ (Z.of_nat index + 1)))).

Section ConfigLoader.
Context {host : Host}.
Variable URL_new : string -> completion ParsedUrl.

(** [validateUrlConfig(urlConfig, index)], which gives the probe a name when
    it has none: the probe as the call leaves it. Only an object has a truthy
    [url]. *)
Definition validateUrlConfig (urlConfig : value) (index : nat) : outcome value :=
  if isNullish urlConfig then Failed (OfPlatform (cannotRead urlConfig "url"))
  else if negb (isTruthy (Get urlConfig "url")) then
    Failed (NewError ("URL at index " ++ toString (ofZ (Z.of_nat index))
                      ++ " is missing the " ++ String doubleQuote "url"
                      ++ String doubleQuote " property"))
  else
    match (text <- ToString (Get urlConfig "url") ;; URL_new text) with
    | Throw _ =>
        match ToString (Get urlConfig "url") with
        | Normal text =>
            Failed (NewError ("URL at index " ++ toString (ofZ (Z.of_nat index))
                              ++ " is invalid: " ++ text))
        | Throw e => Failed (OfPlatform e)
        end
    | Normal _ =>
        if negb (isTruthy (Get urlConfig "name")) then
          match urlConfig with
          | VObject fields =>
              Returned
                (VObject
                   (setOwn "name"
                      (VString ("URL " ++ toString (ofZ (Z.of_nat index + 1))))
                      fields))
          | _ => Returned urlConfig
          end
        else Returned urlConfig
    end.

(** [urls.forEach((urlConfig, index) => this.validateUrlConfig(urlConfig, index))],
    from [index] on. *)
Fixpoint validateEach (urls : list value) (index : nat) : outcome (list value) :=
  match urls with
  | [] => Returned []
  | urlConfig :: rest =>
      match validateUrlConfig urlConfig index with
      | Failed t => Failed t
      | Returned urlConfig' =>
          match validateEach rest (S index) with
          | Failed t => Failed t
          | Returned rest' => Returned (urlConfig' :: rest')
          end
      end
  end.

(** [validateConfig(config)]: the configuration as the call leaves it. Only
    an object has an array for [urls]. *)
Definition validateConfig (config : value) : outcome value :=
  if isNullish config then Failed (OfPlatform (cannotRead config "urls"))
  else
    match Get config "urls" with
    | VArray [] => Failed (NewError "Configuration must contain at least one URL")
    | VArray urls =>
        match validateEach urls 0 with
        | Failed t => Failed t
        | Returned urls' =>
            match config with
            | VObject fields =>
                let fields := setOwn "urls" (VArray urls') fields in
                let fields :=
                  setOwn "globalTimeout"
                    (orElse (Get (VObject fields) "globalTimeout")
                       (VNumber (ofZ 5000))) fields in
                let fields :=
                  setOwn "globalSuccessCodes"
                    (orElse (Get (VObject fields) "globalSuccessCodes")
                       (VArray [VNumber (ofZ 200)])) fields in
                let fields :=
                  setOwn "logLevel"
                    (orElse (Get (VObject fields) "logLevel") (VString "info"))
                    fields in
                Returned (VObject fields)
            | _ => Returned config
            end
        end
    | _ =>
        Failed (NewError ("Configuration must contain a "
                          ++ String doubleQuote "urls"
                          ++ String doubleQuote " array"))
    end.

(** The file [loadConfig] reads: its resolved path, whether it exists, and
    what reading it gives. *)
Record ConfigFile : Type := {
  resolvedPath : string;
  existsSync : bool;
  readFileSync : completion string
}.

(** [loadConfig(filePath)]; what it logs is left out. *)
Definition loadConfig (file : ConfigFile) : outcome value :=
  if negb (existsSync file) then
    Failed (NewError ("Configuration file not found: " ++ resolvedPath file))
  else
    match (fileContent <- readFileSync file ;; JSON_parse fileContent) with
    | Throw e => Failed (OfPlatform e)
    | Normal config => validateConfig config
    end.

End ConfigLoader.

(** ** All the probes of a configuration *)

Section CheckAll.
Context {host : Host}.

(** [checkAll()], one run for each probe of the configuration: the results
    are those of the probes in their order, with [options.async] or
    without. *)
Fixpoint checkAllOf (config : Config) (probes : list UrlConfig) (runs : list Run)
  : list CheckResult :=
  match probes, runs with
  | urlConfig :: probes', run :: runs' =>
      checkUrl config urlConfig run :: checkAllOf config probes' runs'
  | _, _ => []
  end.

Definition checkAll (config : Config) (runs : list Run) : list CheckResult :=
  checkAllOf config (urls config) runs.

End CheckAll.

(** ** The functions of the package ([src/index.ts]) *)

Module Index.
Section Index.
Context {host : Host}.

(** [checkUrl(url, timeout = 5000, successCodes = [200])]: the first result
    of a checker made for the one probe, [undefined] when there is none. *)
Definition checkUrl (address : string) (timeoutMs : option number)
    (codes : option (list number)) (run : Run) : option CheckResult :=
  let timeoutMs := match timeoutMs with Some t => t | None => ofZ 5000 end in
  let codes := match codes with Some codes => codes | None => [ofZ 200] end in
  let config :=
    {| urls := [{| url := address; name := None; timeout := Some timeoutMs;
                   successCodes := None; requestHeaders := None; method := None;
                   requestBody := None; contentType := None; checks := None |}];
       globalTimeout := None;
       globalSuccessCodes := Some codes |} in
  nth_error (checkAll config [run]) 0.

End Index.
End Index.

(** ** The command line ([src/cli.ts]) *)

(** [s.indexOf(c)], [None] for -1. *)
Fixpoint indexOf (c : ascii) (s : string) : option nat :=
  match s with
  | EmptyString => None
  | String a s' =>
      if Ascii.eqb a c then Some O
      else match indexOf c s' with
           | Some i => Some (S i)
           | None => None
           end
  end.

(** [s.substring(n)] *)
Fixpoint substringFrom (n : nat) (s : string) : string :=
  match n, s with
  | O, _ => s
  | S n', String _ s' => substringFrom n' s'
  | S _, EmptyString => EmptyString
  end.

(** What [parseArgs] returns. A flag that is not set is [undefined]. *)
Record Args : Type := {
  a_configFile : option string;
  a_url : option string;
  a_timeout : option number;
  a_headers : option (list (string * string));
  a_successCodes : option (list number);
  a_sync : bool;
  a_quiet : bool;
  a_help : bool;
  a_version : bool
}.

(** [result] while the arguments are read, with the warnings logged. *)
Record ArgsState : Type := {
  s_configFile : option string;
  s_url : option string;
  s_timeout : option number;
  s_headers : list (string * string);
  s_successCodes : list number;
  s_sync : bool;
  s_quiet : bool;
  s_help : bool;
  s_version : bool;
  s_warnings : list string
}.

Definition initialState : ArgsState :=
  {| s_configFile := None; s_url := None; s_timeout := None; s_headers := [];
     s_successCodes := []; s_sync := false; s_quiet := false; s_help := false;
     s_version := false; s_warnings := [] |}.

Definition withConfigFile (file : string) (s : ArgsState) : ArgsState :=
  {| s_configFile := Some file; s_url := s_url s; s_timeout := s_timeout s;
     s_headers := s_headers s; s_successCodes := s_successCodes s;
     s_sync := s_sync s; s_quiet := s_quiet s; s_help := s_help s;
     s_version := s_version s; s_warnings := s_warnings s |}.

Definition withUrl (address : option string) (s : ArgsState) : ArgsState :=
  {| s_configFile := s_configFile s; s_url := address; s_timeout := s_timeout s;
     s_headers := s_headers s; s_successCodes := s_successCodes s;
     s_sync := s_sync s; s_quiet := s_quiet s; s_help := s_help s;
     s_version := s_version s; s_warnings := s_warnings s |}.

Definition withTimeout (ms : number) (s : ArgsState) : ArgsState :=
  {| s_configFile := s_configFile s; s_url := s_url s; s_timeout := Some ms;
     s_headers := s_headers s; s_successCodes := s_successCodes s;
     s_sync := s_sync s; s_quiet := s_quiet s; s_help := s_help s;
     s_version := s_version s; s_warnings := s_warnings s |}.

Definition withHeaders (sent : list (string * string)) (s : ArgsState) : ArgsState :=
  {| s_configFile := s_configFile s; s_url := s_url s; s_timeout := s_timeout s;
     s_headers := sent; s_successCodes := s_successCodes s;
     s_sync := s_sync s; s_quiet := s_quiet s; s_help := s_help s;
     s_version := s_version s; s_warnings := s_warnings s |}.

Definition withSuccessCode (code : number) (s : ArgsState) : ArgsState :=
  {| s_configFile := s_configFile s; s_url := s_url s; s_timeout := s_timeout s;
     s_headers := s_headers s;
     s_successCodes := (s_successCodes s ++ [code])%list;
     s_sync := s_sync s; s_quiet := s_quiet s; s_help := s_help s;
     s_version := s_version s; s_warnings := s_warnings s |}.

Definition withFlags (sync quiet help version : bool) (s : ArgsState) : ArgsState :=
  {| s_configFile := s_configFile s; s_url := s_url s; s_timeout := s_timeout s;
     s_headers := s_headers s; s_successCodes := s_successCodes s;
     s_sync := s_sync s || sync; s_quiet := s_quiet s || quiet;
     s_help := s_help s || help; s_version := s_version s || version;
     s_warnings := s_warnings s |}.

(** [logger.warn(text)] *)
Definition warn (text : string) (s : ArgsState) : ArgsState :=
  {| s_configFile := s_configFile s; s_url := s_url s; s_timeout := s_timeout s;
     s_headers := s_headers s; s_successCodes := s_successCodes s;
     s_sync := s_sync s; s_quiet := s_quiet s; s_help := s_help s;
     s_version := s_version s;
     s_warnings := (s_warnings s ++ [text])%list |}.

(** The case ['--header'] with its value. A value that sets [__proto__] adds
    no property: the setter leaves a string out. *)
Definition headerCase (headerValue : string) (s : ArgsState) : ArgsState :=
  match indexOf ":" headerValue with
  | Some (S colonIndex') =>
      let colonIndex := S colonIndex' in
      let name := trim (substring0 colonIndex headerValue) in
      let value := trim (substringFrom (colonIndex + 1) headerValue) in
      if String.eqb name "__proto__" then s
      else withHeaders (setOwn name value (s_headers s)) s
  | _ =>
      warn ("Invalid header format: " ++ headerValue ++ ". Expected format: "
            ++ String doubleQuote "Name:Value" ++ String doubleQuote "") s
  end.

(** The case ['--success'] with [args[++i]], [undefined] when there is
    none. *)
Definition successCase (codeText : option string) (s : ArgsState) : ArgsState :=
  let text := match codeText with Some text => text | None => "undefined" end in
  let code := parseInt text in
  match code with
  | S754_nan => warn ("Invalid status code: " ++ text) s
  | _ => withSuccessCode code s
  end.

(** The loop of [parseArgs] over the arguments left. *)
Fixpoint parseLoop (args : list string) (s : ArgsState) : completion ArgsState :=
  match args with
  | [] => Normal s
  | arg :: rest =>
      if String.eqb arg "--url" then
        match rest with
        | [] => Normal (withUrl None s)
        | address :: rest' => parseLoop rest' (withUrl (Some address) s)
        end
      else if String.eqb arg "--timeout" then
        match rest with
        | [] => Normal (withTimeout (parseInt "undefined") s)
        | ms :: rest' => parseLoop rest' (withTimeout (parseInt ms) s)
        end
      else if String.eqb arg "--header" then
        match rest with
        | [] => Throw (cannotRead VUndefined "indexOf")
        | headerValue :: rest' => parseLoop rest' (headerCase headerValue s)
        end
      else if String.eqb arg "--success" then
        match rest with
        | [] => Normal (successCase None s)
        | code :: rest' => parseLoop rest' (successCase (Some code) s)
        end
      else if String.eqb arg "--sync" then
        parseLoop rest (withFlags true false false false s)
      else if String.eqb arg "--quiet" then
        parseLoop rest (withFlags false true false false s)
      else if String.eqb arg "--help" then
        parseLoop rest (withFlags false false true false s)
      else if String.eqb arg "--version" then
        parseLoop rest (withFlags false false false true s)
      else if negb (startsWith arg "--") && negb (isTruthyText (s_configFile s)) then
        parseLoop rest (withConfigFile arg s)
      else parseLoop rest s
  end.

(** [parseArgs()] on [process.argv], with the warnings it logs. *)
Definition parseArgs (argv : list string) : completion (Args * list string) :=
  s <- parseLoop (skipn 2 argv) initialState ;;
  Normal
    ({| a_configFile := s_configFile s;
        a_url := s_url s;
        a_timeout := s_timeout s;
        a_headers := match s_headers s with [] => None | sent => Some sent end;
        a_successCodes := match s_successCodes s with [] => None | codes => Some codes end;
        a_sync := s_sync s;
        a_quiet := s_quiet s;
        a_help := s_help s;
        a_version := s_version s |},
     s_warnings s).

(** The configuration [main] makes for [--url]. *)
Definition urlModeConfig (args : Args) (address : string) : Config :=
  {| urls :=
       [{| url := address;
           name := None;
           timeout :=
             Some (match a_timeout args with
                   | Some t => if isFalsyNumber t then ofZ 5000 else t
                   | None => ofZ 5000
                   end);
           successCodes := a_successCodes args;
           requestHeaders := a_headers args;
           method := None; requestBody := None; contentType := None;
           checks := None |}];
     globalTimeout := None;
     globalSuccessCodes :=
       Some (match a_successCodes args with
             | Some codes => codes
             | None => [ofZ 200]
             end) |}.

Section Main.
Context {host : Host}.

(** The exit code of [main()]: [run] is the run of the probe of [--url],
    [checked] what [checkUrls] gives for the configuration file. An error
    thrown on the way is caught, and the exit code is 1. *)
Definition main (argv : list string) (run : Run)
    (checked : completion (list CheckResult)) : Z :=
  match parseArgs argv with
  | Throw _ => 1
  | Normal (args, _) =>
      if a_help args then 0
      else if a_version args then 0
      else if negb (isTruthyText (a_configFile args))
              && negb (isTruthyText (a_url args)) then 1
      else
        match a_url args with
        | Some (String c rest) =>
            let config := urlModeConfig args (String c rest) in
            match checkAll config [run] with
            | result :: _ => if r_success result then 0 else 1
            | [] => 1
            end
        | _ =>
            match checked with
            | Normal results =>
                let failedChecks :=
                  filter (fun result => negb (r_success result)) results in
                if (0 <? Z.of_nat (List.length failedChecks))%Z then 1 else 0
            | Throw _ => 1
            end
        end
  end%Z.

End Main.

(** ** A command line, a request and a configuration file for the examples *)

(** A platform whose [new URL] knows one address. *)
Definition parseLocal (text : string) : completion ParsedUrl :=
  if String.eqb text "http://localhost/" then
    Normal {| protocol := "http:"; hostname := "localhost"; port := "";
              pathname := "/"; search := "" |}
  else Throw (TypeError "Invalid URL").

Definition postProbe (sent : list (string * string)) : UrlConfig :=
  {| url := "http://localhost/"; name := None; timeout := Some (ofZ 0);
     successCodes := None; requestHeaders := Some sent; method := Some "POST";
     requestBody := Some "{}"; contentType := Some "application/json";
     checks := None |}.

Definition postRequest : Request :=
  {| q_options :=
       {| o_secure := false; o_hostname := "localhost"; o_port := VNumber (ofZ 80);
          o_path := "/"; o_method := "POST"; o_timeout := ofZ 5000;
          o_headers := [("accept", "*/*"); ("content-type", "application/json")] |};
     q_written := Some "{}" |}.

Definition oneUrlDocument : value :=
  VObject [("urls", VArray [VObject [("url", VString "http://localhost/")]]);
           ("globalTimeout", VNumber (ofZ 0))].

Definition oneUrlValidated : value :=
  VObject [("urls", VArray [VObject [("url", VString "http://localhost/");
                                     ("name", VString "URL 1")]]);
           ("globalTimeout", VNumber (ofZ 5000));
           ("globalSuccessCodes", VArray [VNumber (ofZ 200)]);
           ("logLevel", VString "info")].

Definition oneUrlFile : ConfigFile :=
  {| resolvedPath := "/etc/status-checker.json"; existsSync := true;
     readFileSync := Normal (textOf oneUrlDocument) |}.

Definition oneUrlCommand : list string :=
  ["node"; "status-checker"; "--url"; "http://localhost/"; "--success"; "404"].

Definition oneUrlArgs : Args :=
  {| a_configFile := None; a_url := Some "http://localhost/"; a_timeout := None;
     a_headers := None; a_successCodes := Some [ofZ 404]; a_sync := false;
     a_quiet := false; a_help := false; a_version := false |}.

(** * Properties *)

(** ** Properties of status-code checks *)

(** A finite number is the same value as itself only. *)
Lemma SameValueZero_finite (s : bool) (m : positive) (e : Z) (x : number) :
  SameValueZero (S754_finite s m e) x = true <-> x = S754_finite s m e.
Proof.
  split.
  - destruct x as [s'| s' | | s' m' e']; destruct s; try destruct s';
      simpl; unfold SFeqb, SFcompare; try discriminate;
      destruct (Z.compare_spec e e') as [He | He | He]; try discriminate;
      change (PosDef.Pos.compare_cont Eq m m') with (Pos.compare m m');
      destruct (Pos.compare_spec m m') as [Hm | Hm | Hm]; try discriminate;
      intros _; subst; reflexivity.
  - intros ->. simpl. unfold SFeqb, SFcompare.
    rewrite Z.compare_refl.
    change (PosDef.Pos.compare_cont Eq m m) with (Pos.compare m m).
    rewrite Pos.compare_refl.
    destruct s; reflexivity.
Qed.

Lemma SameValueZero_eq (c x : number) :
  isFinite c = true -> (SameValueZero c x = true <-> x = c).
Proof.
  destruct c; try discriminate. intros _. apply SameValueZero_finite.
Qed.

Section StatusCodeProperties.
Context {host : Host}.

(** The verdict of [equals] is membership of the status code among the
    integers read from the segments of the value. *)
Lemma status_code_equals_includes (value : string) (response : ResponseData) :
  passed (evaluateStatusCodeCheck
            {| sc_operator := sc_equals; sc_value := value |} response)
  = existsb (fun segment => SameValueZero (parseInt (trim segment)) (statusCode response))
      (split "|" value).
Proof.
  unfold evaluateStatusCodeCheck, statusCodeTry. simpl.
  induction (split "|" value) as [| segment rest IH]; simpl; [reflexivity |].
  now rewrite <- IH.
Qed.

Lemma status_code_not_equals_includes (value : string) (response : ResponseData) :
  passed (evaluateStatusCodeCheck
            {| sc_operator := sc_not_equals; sc_value := value |} response)
  = negb (existsb (fun segment => SameValueZero (parseInt (trim segment)) (statusCode response))
            (split "|" value)).
Proof.
  unfold evaluateStatusCodeCheck, statusCodeTry. simpl. f_equal.
  induction (split "|" value) as [| segment rest IH]; simpl; [reflexivity |].
  now rewrite <- IH.
Qed.

(** C2. A status-code check with operator [equals] and value
    ["200|301|302"] passes exactly when the status code of the response is
    200, 301 or 302, and so fails for 404. For every value, [equals] passes
    exactly when some segment of the value between ['|'] reads, as an
    integer, as the status code, and [not_equals] exactly when none does. *)
Theorem status_code_equals_membership :
  (forall response : ResponseData,
      passed (evaluateStatusCodeCheck
                {| sc_operator := sc_equals; sc_value := "200|301|302" |} response) = true
      <-> (statusCode response = ofZ 200 \/ statusCode response = ofZ 301
           \/ statusCode response = ofZ 302))
  /\ (forall (headers : list (string * string)) (body : string) (responseTime : number),
        passed (evaluateStatusCodeCheck
                  {| sc_operator := sc_equals; sc_value := "200|301|302" |}
                  {| statusCode := ofZ 404; headers := headers; body := body;
                     responseTime := responseTime |}) = false)
  /\ (forall (value : string) (response : ResponseData),
        (passed (evaluateStatusCodeCheck
                   {| sc_operator := sc_equals; sc_value := value |} response) = true
         <-> exists segment,
               In segment (split "|" value)
               /\ SameValueZero (parseInt (trim segment)) (statusCode response) = true)
        /\ (passed (evaluateStatusCodeCheck
                      {| sc_operator := sc_not_equals; sc_value := value |} response) = true
            <-> forall segment,
                  In segment (split "|" value) ->
                  SameValueZero (parseInt (trim segment)) (statusCode response) = false)).
Proof.
  split; [| split].
  - intros response. rewrite status_code_equals_includes.
    change (split "|" "200|301|302") with ["200"; "301"; "302"].
    cbn [existsb].
    change (parseInt (trim "200")) with (ofZ 200).
    change (parseInt (trim "301")) with (ofZ 301).
    change (parseInt (trim "302")) with (ofZ 302).
    rewrite !orb_true_iff, !SameValueZero_eq by reflexivity.
    intuition discriminate.
  - intros. reflexivity.
  - intros value response. split.
    + rewrite status_code_equals_includes, existsb_exists. reflexivity.
    + rewrite status_code_not_equals_includes, negb_true_iff.
      split.
      * intros H segment Hin.
        destruct (SameValueZero _ _) eqn:E; [| reflexivity].
        assert (X : existsb (fun segment => SameValueZero (parseInt (trim segment))
                                             (statusCode response))
                      (split "|" value) = true)
          by (apply existsb_exists; eauto).
        congruence.
      * intros H. destruct (existsb _ _) eqn:E; [| reflexivity].
        apply existsb_exists in E. destruct E as (segment & Hin & Hs).
        rewrite (H _ Hin) in Hs. discriminate.
Qed.

End StatusCodeProperties.

(** ** Properties of header checks *)

Section HeaderProperties.
Context {host : Host}.

(** The loop over the headers finds nothing exactly when no name equals the
    wanted one in lower case. *)
Lemma findHeader_None (headerName : string) (entries : list (string * string)) :
  findHeader headerName entries = None
  <-> forall key val, In (key, val) entries -> toLowerCase key <> headerName.
Proof.
  induction entries as [| [k v] rest IH]; simpl.
  - split; [intros _ key val [] | reflexivity].
  - destruct (String.eqb_spec (toLowerCase k) headerName) as [E | E].
    + split; [discriminate |].
      intros H. exfalso. exact (H k v (or_introl eq_refl) E).
    + rewrite IH. split.
      * intros H key val [X | X]; [inversion X; subst; exact E | eauto].
      * intros H key val X. eauto.
Qed.

(** C10. When no header of the response has the name of the check, letter
    case apart, a header check with operator [equals] and no expected value
    passes, and the same check with [not_equals] fails. *)
Theorem header_absent_equals_without_value
    (name : string) (response : ResponseData)
    (absent : forall key val,
        In (key, val) (headers response) ->
        toLowerCase key <> toLowerCase name) :
  passed (evaluateHeaderCheck
            {| h_name := name; h_operator := equals; h_value := None |} response) = true
  /\ passed (evaluateHeaderCheck
               {| h_name := name; h_operator := not_equals; h_value := None |} response) = false.
Proof.
  apply findHeader_None in absent.
  unfold evaluateHeaderCheck, headerTry. simpl. rewrite absent. simpl. split; reflexivity.
Qed.

(** C5, amended. When a header of the name is found, the verdict of a header
    check with operator [equals], [not_equals], [contains], [not_contains],
    [matches] or [not_matches] is what [compareValues] gives on the found
    value, a thrown exception counting as a failure; with [greater_than] and
    [less_than], which are no operators of a header check, it fails. *)
Theorem header_check_agrees_when_found
    (check : HeaderCheck) (response : ResponseData) (headerValue : string)
    (found : findHeader (toLowerCase (h_name check)) (headers response)
             = Some headerValue) :
  passed (evaluateHeaderCheck check response)
  = match h_operator check with
    | exists_ => true
    | not_exists => false
    | greater_than | less_than => false
    | operator =>
        fst (caught (compareValues (VString headerValue) operator (h_value check)))
    end.
Proof.
  unfold evaluateHeaderCheck, headerTry, compareValues. rewrite found.
  destruct (h_operator check); simpl; try reflexivity;
    destruct (RegExp_new (orEmpty (h_value check))); reflexivity.
Qed.

End HeaderProperties.

(** ** Properties of the path extractor *)

Lemma append_assoc (a b c : string) : ((a ++ b) ++ c)%string = (a ++ (b ++ c))%string.
Proof. induction a as [| x a IH]; simpl; [reflexivity | now rewrite IH]. Qed.

Lemma append_length (a b : string) :
  String.length (a ++ b) = (String.length a + String.length b)%nat.
Proof. induction a as [| x a IH]; simpl; [reflexivity | now rewrite IH]. Qed.

(** The span of a concatenation, when what is appended starts with a
    character outside the class. *)
Lemma span_append (p : ascii -> bool) (pre : string) (c : ascii) (r : string) :
  p c = false ->
  span p (pre ++ String c r)
  = match snd (span p pre) with
    | EmptyString => (pre, String c r)
    | rest => (fst (span p pre), (rest ++ String c r)%string)
    end.
Proof.
  intros Hc. induction pre as [| x pre IH]; simpl.
  - now rewrite Hc.
  - destruct (p x) eqn:Hx; [| reflexivity].
    rewrite IH. destruct (span p pre) as [w rest]. simpl.
    destruct rest; reflexivity.
Qed.

Lemma span_length (p : ascii -> bool) (s : string) :
  (String.length (fst (span p s)) + String.length (snd (span p s)))%nat
  = String.length s.
Proof.
  induction s as [| x s IH]; simpl; [reflexivity |].
  destruct (p x); [| reflexivity].
  destruct (span p s) as [w rest]. simpl in *. now rewrite IH.
Qed.

Lemma span_all (p : ascii -> bool) (w : string) (c : ascii) (r : string) :
  forallChars p w = true -> p c = false ->
  span p (w ++ String c r) = (w, String c r).
Proof.
  intros Hw Hc. induction w as [| x w IH]; simpl.
  - now rewrite Hc.
  - simpl in Hw. apply andb_true_iff in Hw as [Hx Hw].
    rewrite Hx, (IH Hw). reflexivity.
Qed.

(** The characters a match has still to pass are passed. *)
Lemma replaceBrackets_skip (p r : string) :
  replaceBrackets (String.length p) (p ++ r) = replaceBrackets 0 r.
Proof. induction p as [| x p IH]; simpl; [reflexivity | exact IH]. Qed.

Lemma replaceBrackets_skip_one (p : string) (c : ascii) (r : string) :
  replaceBrackets (S (String.length p)) (p ++ String c r) = replaceBrackets 0 r.
Proof. induction p as [| x p IH]; simpl; [reflexivity | exact IH]. Qed.

(** A bracketed word at the start is replaced by a dot and the word. *)
Lemma replaceBrackets_bracket (w r : string) :
  w <> "" -> forallChars isWordChar w = true ->
  replaceBrackets 0 ("[" ++ w ++ "]" ++ r) = ("." ++ w ++ replaceBrackets 0 r)%string.
Proof.
  intros Hne Hw. cbn [append replaceBrackets matchBracket].
  rewrite (span_all isWordChar w "]" r Hw eq_refl).
  destruct w as [| x w]; [contradiction |].
  cbn [Nat.pred Ascii.eqb Bool.eqb andb]. now rewrite replaceBrackets_skip_one.
Qed.

(** A character other than the opening bracket starts no match. *)
Lemma matchBracket_other (x : ascii) (r : string) :
  Ascii.eqb x "[" = false -> matchBracket (String x r) = None.
Proof.
  intros Hx. unfold matchBracket. rewrite Hx.
  destruct (span isWordChar r) as [[| c w] [| close rest]]; reflexivity.
Qed.

(** A word is left as it is. *)
Lemma replaceBrackets_word (w r : string) :
  forallChars isWordChar w = true ->
  replaceBrackets 0 (w ++ r) = (w ++ replaceBrackets 0 r)%string.
Proof.
  intros Hw. induction w as [| x w IH]; [reflexivity |].
  simpl in Hw. apply andb_true_iff in Hw as [Hx Hw].
  cbn [append replaceBrackets].
  rewrite matchBracket_other, (IH Hw); [reflexivity |].
  destruct (Ascii.eqb_spec x "["); [subst; discriminate | reflexivity].
Qed.

(** The match at the start of [pre ++ rest], for a [rest] that starts with
    a character that can neither continue nor close a bracketed word, is the
    match at the start of [pre]. *)
Lemma matchBracket_prefix (x : ascii) (pre : string) (c : ascii) (r : string) :
  isWordChar c = false -> Ascii.eqb c "]" = false ->
  matchBracket (String x (pre ++ String c r)) = matchBracket (String x pre)
  /\ forall w len,
       matchBracket (String x pre) = Some (w, len) ->
       (Nat.pred len <= String.length pre)%nat.
Proof.
  intros Hw Hc. unfold matchBracket.
  rewrite (span_append isWordChar pre c r Hw).
  pose proof (span_length isWordChar pre) as L.
  destruct (span isWordChar pre) as [w rest]. simpl in *.
  destruct rest as [| y rest].
  - split.
    + destruct pre as [| p pre]; [| rewrite Hc, andb_false_r];
        destruct w; reflexivity.
    + intros w' len. destruct w; discriminate.
  - split.
    + destruct w; reflexivity.
    + intros w' len. destruct w as [| a w]; [discriminate |].
      destruct (Ascii.eqb x "[" && Ascii.eqb y "]"); [| discriminate].
      intros E. inversion E; subst. simpl in *. lia.
Qed.

(** What precedes a bracketed word or a dot is rewritten without regard to
    what follows. *)
Lemma replaceBrackets_prefix (A B : string) (a b : ascii) (ra rb : string) :
  A = String a ra -> B = String b rb ->
  isWordChar a = false -> Ascii.eqb a "]" = false ->
  isWordChar b = false -> Ascii.eqb b "]" = false ->
  replaceBrackets 0 A = replaceBrackets 0 B ->
  forall (pre : string) (k : nat),
    (k <= String.length pre)%nat ->
    replaceBrackets k (pre ++ A) = replaceBrackets k (pre ++ B).
Proof.
  intros -> -> Ha Ha' Hb Hb' E.
  induction pre as [| x pre IH]; intros k Hk.
  - simpl in Hk. assert (k = 0)%nat as -> by lia. exact E.
  - cbn [append replaceBrackets]. destruct k as [| k].
    + destruct (matchBracket_prefix x pre a ra Ha Ha') as [-> _].
      destruct (matchBracket_prefix x pre b rb Hb Hb') as [-> Hlen].
      destruct (matchBracket (String x pre)) as [[w len] |] eqn:M.
      * rewrite (IH (Nat.pred len) (Hlen w len eq_refl)). reflexivity.
      * rewrite (IH 0%nat (Nat.le_0_l _)). reflexivity.
    + apply IH. simpl in Hk. lia.
Qed.

(** C8. A bracketed index is sugar for a dotted segment: for every
    document, a path holding [[n]], with [n] a word of letters, digits and
    underscores, extracts what the path holding [.n] in its place extracts,
    whatever comes before and after it, other brackets included; so
    ["tags[0]"] extracts what ["tags.0"] does. *)
Theorem bracket_index_is_dotted_segment
    (doc : value) (before n after : string)
    (nonempty : n <> "")
    (word : forallChars isWordChar n = true) :
  pathSegments (before ++ "[" ++ n ++ "]" ++ after)
  = pathSegments (before ++ "." ++ n ++ after)
  /\ extractJsonPath doc (before ++ "[" ++ n ++ "]" ++ after)
     = extractJsonPath doc (before ++ "." ++ n ++ after)
  /\ extractJsonPath doc "tags[0]" = extractJsonPath doc "tags.0".
Proof.
  assert (R : replaceBrackets 0 ("[" ++ n ++ "]" ++ after)
              = replaceBrackets 0 ("." ++ n ++ after)).
  { rewrite (replaceBrackets_bracket n after nonempty word).
    cbn [append replaceBrackets]. rewrite matchBracket_other by reflexivity.
    now rewrite (replaceBrackets_word n after word). }
  assert (P : forall pre,
             replaceBrackets 0 (pre ++ "[" ++ n ++ "]" ++ after)
             = replaceBrackets 0 (pre ++ "." ++ n ++ after)).
  { intros pre.
    apply (replaceBrackets_prefix _ _ "[" "." (n ++ "]" ++ after) (n ++ after));
      try reflexivity; [exact R | apply Nat.le_0_l]. }
  assert (S : pathSegments (before ++ "[" ++ n ++ "]" ++ after)
              = pathSegments (before ++ "." ++ n ++ after)).
  { unfold pathSegments.
    destruct before as [| x before].
    - cbn [append] in *. cbn [startsWith Ascii.eqb Bool.eqb andb].
      now rewrite R.
    - cbn [append startsWith substring1]. rewrite andb_true_r.
      destruct (Ascii.eqb x "$").
      + now rewrite P.
      + pose proof (P (String x before)) as Q. cbn [append] in Q.
        now rewrite Q. }
  split; [exact S | split].
  - unfold extractJsonPath. now rewrite S.
  - reflexivity.
Qed.


(** ** Properties of the value comparator *)

(** Induction on values, through the elements of arrays and the fields of
    objects. *)
Lemma value_induction (P : value -> Prop)
    (HUndefined : P VUndefined) (HNull : P VNull)
    (HBoolean : forall b, P (VBoolean b)) (HNumber : forall x, P (VNumber x))
    (HString : forall s, P (VString s))
    (HArray : forall items, Forall P items -> P (VArray items))
    (HObject : forall fields, Forall (fun field => P (snd field)) fields ->
                              P (VObject fields)) :
  forall v, P v.
Proof.
  exact
    (fix IH (v : value) : P v :=
       match v with
       | VUndefined => HUndefined
       | VNull => HNull
       | VBoolean b => HBoolean b
       | VNumber x => HNumber x
       | VString s => HString s
       | VArray items =>
           HArray items
             ((fix all (l : list value) : Forall P l :=
                 match l with
                 | [] => Forall_nil P
                 | item :: rest => Forall_cons item (IH item) (all rest)
                 end) items)
       | VObject fields =>
           HObject fields
             ((fix all (l : list (string * value))
                 : Forall (fun field => P (snd field)) l :=
                 match l with
                 | [] => Forall_nil _
                 | field :: rest => Forall_cons field (IH (snd field)) (all rest)
                 end) fields)
       end).
Qed.

(** The only exception of [String(v)] is the [TypeError] of an object that
    cannot be made a primitive. *)
Lemma ToString_throws (v : value) (e : Error) :
  ToString v = Throw e -> e = cannotConvert.
Proof.
  revert e. induction v as [ | | b | x | s | items IH | fields IH]
    using value_induction; intros e; simpl; try discriminate.
  - match goal with
    | |- context [bind (?f items)] => set (elements := f)
    end.
    assert (H : forall e', elements items = Throw e' -> e' = cannotConvert).
    { induction IH as [| item rest Hitem _ IHrest]; intros e'; simpl; [discriminate |].
      destruct (isNullish item); simpl.
      - destruct (elements rest) eqn:E; simpl; [discriminate |].
        intros X; inversion X; subst. now apply IHrest.
      - destruct (ToString item) eqn:T; simpl.
        + destruct (elements rest) eqn:E; simpl; [discriminate |].
          intros X; inversion X; subst. now apply IHrest.
        + intros X; inversion X; subst. now apply Hitem. }
    destruct (elements items) eqn:E; simpl; [discriminate |].
    intros X; inversion X; subst. now apply H.
  - destruct (lookup "toString" fields); [| discriminate].
    intros X; now inversion X.
Qed.

Lemma ToNumber_throws (v : value) (e : Error) :
  ToNumber v = Throw e -> e = cannotConvert.
Proof.
  destruct v; simpl; try discriminate.
  - match goal with
    | |- context [bind ?c] => destruct c eqn:T
    end; simpl; [discriminate |].
    intros X; inversion X; subst. eapply (ToString_throws (VArray items)). exact T.
  - destruct (lookup "toString" fields); simpl; [| discriminate].
    intros X; now inversion X.
Qed.

(** A comparison with [NaN] is false. *)
Lemma lt_NaN (x y : number) : x = NaN \/ y = NaN -> lt x y = false /\ gt x y = false.
Proof.
  unfold lt, gt, SFltb, SFcompare.
  intros [-> | ->]; [destruct y | destruct x]; split; reflexivity.
Qed.

Section ComparatorProperties.
Context {host : Host}.

(** What [compareValues] throws carries a message. *)
Lemma compareValues_throws (actual : value) (operator : ComparisonOperator)
    (expected : option string) (e : Error) :
  compareValues actual operator expected = Throw e -> message e <> "".
Proof.
  assert (S : forall A (k : string -> completion A),
             (forall s, k s <> Throw e) ->
             bind (ToString actual) k = Throw e -> message e <> "").
  { intros A k Hk. destruct (ToString actual) eqn:T; simpl.
    - intros X. now apply Hk in X.
    - intros X; inversion X; subst.
      rewrite (ToString_throws _ _ T). discriminate. }
  assert (N : forall A (k : number -> completion A),
             (forall x, k x <> Throw e) ->
             bind (ToNumber actual) k = Throw e -> message e <> "").
  { intros A k Hk. destruct (ToNumber actual) eqn:T; simpl.
    - intros X. now apply Hk in X.
    - intros X; inversion X; subst.
      rewrite (ToNumber_throws _ _ T). discriminate. }
  destruct operator; simpl; try discriminate;
    try (apply S; intros s; discriminate).
  - destruct (RegExp_new (orEmpty expected)) eqn:R; simpl.
    + apply S; intros s; discriminate.
    + intros X; inversion X; subst. eapply RegExp_new_message; eauto.
  - destruct (RegExp_new (orEmpty expected)) eqn:R; simpl.
    + apply S; intros s; discriminate.
    + intros X; inversion X; subst. eapply RegExp_new_message; eauto.
  - apply N. intros x. destruct expected; discriminate.
  - apply N. intros x. destruct expected; discriminate.
Qed.

(** C4, amended. [greater_than] and [less_than] convert both sides with
    [Number] and compare the two numbers; when the conversion of either side
    gives [NaN], the comparison returns [false] and throws nothing. *)
Theorem numeric_comparison_with_NaN_fails
    (actual : value) (operator : ComparisonOperator) (expected : option string)
    (a e : number)
    (numeric : operator = greater_than \/ operator = less_than)
    (actualNumber : ToNumber actual = Normal a)
    (expectedNumber : ToNumber (ofOption expected) = Normal e) :
  compareValues actual operator expected
  = Normal (match operator with greater_than => gt a e | _ => lt a e end)
  /\ (a = NaN \/ e = NaN -> compareValues actual operator expected = Normal false).
Proof.
  assert (C : compareValues actual operator expected
              = Normal (match operator with greater_than => gt a e | _ => lt a e end)).
  { destruct numeric as [-> | ->]; unfold compareValues;
      rewrite actualNumber, expectedNumber; reflexivity. }
  split; [exact C |].
  intros notANumber. rewrite C.
  destruct (lt_NaN a e notANumber) as [L G].
  destruct numeric as [-> | ->]; now rewrite ?L, ?G.
Qed.

End ComparatorProperties.

(** ** Properties of JSON-path checks and of failures of evaluation *)

Lemma mapM_throws {A B : Type} (f : A -> completion B) (items : list A) (e : Error) :
  mapM f items = Throw e -> exists item, In item items /\ f item = Throw e.
Proof.
  induction items as [| a rest IH]; simpl; [discriminate |].
  destruct (f a) eqn:F; simpl.
  - destruct (mapM f rest); simpl; [discriminate |].
    intros X; inversion X; subst. destruct (IH eq_refl) as (item & Hin & Hf).
    exists item. auto.
  - intros X; inversion X; subst. exists a. auto.
Qed.

Lemma mapM_normal (f : value -> completion bool) (items : list value) :
  (forall item, In item items -> exists b, f item = Normal b) ->
  mapM f items = Normal (map (fun item => fst (caught (f item))) items).
Proof.
  induction items as [| a rest IH]; intros H; simpl; [reflexivity |].
  destruct (H a (or_introl eq_refl)) as [b ->]. simpl.
  rewrite IH by (intros item Hin; apply H; now right). reflexivity.
Qed.

Lemma orUndefined_message (e : Error) :
  message e <> "" -> orUndefined (message e) = Some (message e).
Proof. destruct (message e); [contradiction | reflexivity]. Qed.

Section FailureProperties.
Context {host : Host}.

(** What the [try] block of a JSON-path check throws carries a message. *)
Lemma jsonPathTry_throws (check : JsonPathCheck) (response : ResponseData) (e : Error) :
  snd (jsonPathTry check response) = Throw e -> message e <> "".
Proof.
  assert (C : forall v, snd (jsonPathCompare check v) = Throw e -> message e <> "").
  { intros v. unfold jsonPathCompare. simpl.
    match goal with
    | |- context [compareValues ?a ?o ?x] =>
        destruct (compareValues a o x) eqn:K
    end; simpl; [discriminate |].
    intros X; inversion X; subst. eapply compareValues_throws; eauto. }
  unfold jsonPathTry.
  destruct (JSON_parse (body response)) as [jsonBody | e'] eqn:P; simpl.
  - destruct (extractJsonPath jsonBody (j_path check)); try apply C.
    destruct (match j_element check with Some element => element | None => First end);
      try apply C; simpl;
      (destruct (mapM _ items) eqn:M; simpl; [discriminate |];
       intros X; inversion X; subst;
       apply mapM_throws in M; destruct M as (item & _ & K);
       eapply compareValues_throws; eauto).
  - intros X; inversion X; subst. eapply JSON_parse_message; eauto.
Qed.

(** A JSON-path check whose [try] block throws fails with the message. *)
Lemma jsonPathTry_caught (check : JsonPathCheck) (response : ResponseData) (e : Error) :
  snd (jsonPathTry check response) = Throw e ->
  passed (evaluateJsonPathCheck check response) = false
  /\ error (evaluateJsonPathCheck check response) = Some (message e).
Proof.
  intros T. pose proof (jsonPathTry_throws _ _ _ T) as M.
  unfold evaluateJsonPathCheck.
  destruct (jsonPathTry check response) as [actualValue c]. simpl in T. subst c.
  simpl. split; [reflexivity | now apply orUndefined_message].
Qed.

(** C6, amended. A check whose evaluation throws, on a malformed regular
    expression, on a body that is no JSON text or in the comparison of the
    extracted value, is reported as failed, with the message of the
    exception in its [error] field; the checks before and after it are
    evaluated as they are without it, and the results keep their order. *)
Theorem evaluation_failure_is_contained
    (before after : list Check) (check : Check) (response : ResponseData)
    (e : Error)
    (failure : EvaluationFailure check response e) :
  passed (evaluateCheck check response) = false
  /\ error (evaluateCheck check response) = Some (message e)
  /\ evaluateChecks (before ++ check :: after)%list response
     = (evaluateChecks before response
          ++ evaluateCheck check response :: evaluateChecks after response)%list.
Proof.
  split; [| split].
  - destruct failure as [c r e Hop Hre | c r e Hop Hre | c r e Hop Hre
                         | c r e Hp | c r e Ht]; simpl.
    + unfold evaluateStatusCodeCheck, statusCodeTry.
      destruct Hop as [-> | ->]; rewrite Hre; reflexivity.
    + unfold evaluateHeaderCheck, headerTry.
      destruct Hop as [-> | ->]; rewrite Hre; reflexivity.
    + unfold evaluateBodyCheck, bodyTry.
      destruct Hop as [-> | ->]; rewrite Hre; reflexivity.
    + apply (jsonPathTry_caught c r e). unfold jsonPathTry. now rewrite Hp.
    + now apply (jsonPathTry_caught c r e).
  - destruct failure as [c r e Hop Hre | c r e Hop Hre | c r e Hop Hre
                         | c r e Hp | c r e Ht]; simpl.
    + pose proof (RegExp_new_message _ _ Hre) as M.
      unfold evaluateStatusCodeCheck, statusCodeTry.
      destruct Hop as [-> | ->]; rewrite Hre; simpl; now apply orUndefined_message.
    + pose proof (RegExp_new_message _ _ Hre) as M.
      unfold evaluateHeaderCheck, headerTry.
      destruct Hop as [-> | ->]; rewrite Hre; simpl; now apply orUndefined_message.
    + pose proof (RegExp_new_message _ _ Hre) as M.
      unfold evaluateBodyCheck, bodyTry.
      destruct Hop as [-> | ->]; rewrite Hre; simpl; now apply orUndefined_message.
    + apply (jsonPathTry_caught c r e). unfold jsonPathTry. now rewrite Hp.
    + now apply (jsonPathTry_caught c r e).
  - unfold evaluateChecks. now rewrite map_app.
Qed.

(** C7, as the code has it. A JSON-path check on a body that is no JSON
    text fails with the message of the parse failure in its [error] field;
    the [actualValue] it reports is the text ["null"], the rendering of the
    initial [null], and not [null] itself. *)
Theorem unparsable_body_reports_null_text
    (check : JsonPathCheck) (response : ResponseData) (e : Error)
    (unparsable : JSON_parse (body response) = Throw e) :
  passed (evaluateJsonPathCheck check response) = false
  /\ error (evaluateJsonPathCheck check response) = Some (message e)
  /\ actualValue (evaluateJsonPathCheck check response) = VString "null"
  /\ actualValue (evaluateJsonPathCheck check response) <> VNull.
Proof.
  pose proof (JSON_parse_message _ _ unparsable) as M.
  unfold evaluateJsonPathCheck, jsonPathTry. rewrite unparsable. simpl.
  repeat split; [now apply orUndefined_message | discriminate].
Qed.

(** C3, amended. When the extraction gives an array, [element] is ['any'] or
    ['all'] and the comparison throws on no element of the array, the check
    passes exactly when the comparison holds for at least one element, for
    ['any'], or for every element, for ['all']; the [actualValue] it reports
    is the JSON text of the whole array, and it reports no error. *)
Theorem any_all_compare_every_element
    (check : JsonPathCheck) (response : ResponseData) (jsonBody : value)
    (items : list value) (element : Element)
    (parsed : JSON_parse (body response) = Normal jsonBody)
    (extracted : extractJsonPath jsonBody (j_path check) = VArray items)
    (requested : j_element check = Some element)
    (each : element = Any \/ element = All)
    (completes : forall item, In item items ->
                   exists b, compareValues item (j_operator check) (j_value check)
                             = Normal b) :
  (passed (evaluateJsonPathCheck check response) = true
   <-> match element with
       | Any => exists item, In item items
                  /\ compareValues item (j_operator check) (j_value check) = Normal true
       | _ => forall item, In item items ->
                compareValues item (j_operator check) (j_value check) = Normal true
       end)
  /\ actualValue (evaluateJsonPathCheck check response) = JSON_stringify (VArray items)
  /\ error (evaluateJsonPathCheck check response) = None
  /\ (items = [VString "developer"; VString "typescript"] ->
      j_operator check = equals -> j_value check = Some "typescript" ->
      passed (evaluateJsonPathCheck check response)
      = match element with Any => true | _ => false end).
Proof.
  assert (R : evaluateJsonPathCheck check response
              = jsonPathEach check element items
                  (map (fun item => fst (caught (compareValues item (j_operator check)
                                                   (j_value check)))) items)).
  { unfold evaluateJsonPathCheck, jsonPathTry.
    rewrite parsed, extracted, requested.
    destruct each as [-> | ->]; rewrite (mapM_normal _ _ completes); reflexivity. }
  assert (V : forall item, In item items ->
              (fst (caught (compareValues item (j_operator check) (j_value check))) = true
               <-> compareValues item (j_operator check) (j_value check) = Normal true)).
  { intros item Hin. destruct (completes item Hin) as [b ->]. simpl.
    split; [intros -> | intros X; inversion X]; reflexivity. }
  rewrite R. split; [| split; [| split]]; try reflexivity.
  - destruct each as [-> | ->]; simpl.
    + rewrite existsb_exists. split.
      * intros (b & Hin & Hb). apply in_map_iff in Hin as (item & <- & Hin).
        exists item. split; [exact Hin | now apply V].
      * intros (item & Hin & Hc). exists true. split; [| reflexivity].
        apply in_map_iff. exists item. split; [now rewrite Hc | exact Hin].
    + rewrite forallb_forall. split.
      * intros H item Hin. apply V; [exact Hin |]. apply H.
        apply in_map_iff. now exists item.
      * intros H b Hin. apply in_map_iff in Hin as (item & <- & Hin).
        now rewrite (H item Hin).
  - intros -> Hop Hval. rewrite Hop, Hval.
    destruct each as [-> | ->]; reflexivity.
Qed.

End FailureProperties.

(** ** Properties of the probe *)

Lemma ToString_primitive (v : value) :
  isPrimitive v = true -> exists s, ToString v = Normal s.
Proof. destruct v; try discriminate; intros _; eexists; reflexivity. Qed.

Lemma JSON_stringify_primitive (v : value) : isPrimitive (JSON_stringify v) = true.
Proof. unfold JSON_stringify. destruct (serialize v); reflexivity. Qed.

Lemma ofOption_primitive (expected : option string) :
  isPrimitive (ofOption expected) = true.
Proof. destruct expected; reflexivity. Qed.

Section ProbeProperties.
Context {host : Host}.

Lemma evaluateCheck_primitive (check : Check) (response : ResponseData) :
  isPrimitive (actualValue (evaluateCheck check response)) = true
  /\ isPrimitive (expectedValue (evaluateCheck check response)) = true.
Proof.
  destruct check as [c | c | c | c | c | t]; simpl.
  - unfold evaluateStatusCodeCheck. destruct (caught _). split; reflexivity.
  - unfold evaluateHeaderCheck. destruct (caught _). simpl.
    split; apply ofOption_primitive.
  - unfold evaluateBodyCheck. destruct (caught _). simpl.
    split; [reflexivity | apply ofOption_primitive].
  - assert (J : forall p e a,
               isPrimitive (actualValue (jsonPathResult c p e a)) = true
               /\ isPrimitive (expectedValue (jsonPathResult c p e a)) = true).
    { intros p e a. simpl. split; [| apply ofOption_primitive].
      destruct a; simpl; try reflexivity; apply JSON_stringify_primitive. }
    unfold evaluateJsonPathCheck.
    destruct (jsonPathTry c response) as [a [[r | p] | e]] eqn:T; try apply J.
    unfold jsonPathTry in T.
    assert (C : forall v, jsonPathCompare c v <> (a, Normal (inl r))).
    { intros v. unfold jsonPathCompare.
      destruct (compareValues _ _ _); simpl; intros X; inversion X. }
    destruct (JSON_parse (body response)); [| discriminate].
    destruct (extractJsonPath _ _); try (now apply C in T).
    destruct (match j_element c with Some element => element | None => First end);
      try (now apply C in T);
      (destruct (mapM _ items); simpl in T; inversion T; subst;
       split; [apply JSON_stringify_primitive | apply ofOption_primitive]).
  - split; reflexivity.
  - split; reflexivity.
Qed.

Lemma failedCheckText_normal (results : list IndividualCheckResult) :
  (forall result, In result results ->
     isPrimitive (actualValue result) = true
     /\ isPrimitive (expectedValue result) = true) ->
  exists texts, mapM failedCheckText results = Normal texts.
Proof.
  induction results as [| result rest IH]; intros H; simpl; [eauto |].
  destruct (H result (or_introl eq_refl)) as [Ha He].
  unfold failedCheckText at 1.
  destruct (ToString_primitive _ He) as [expected ->].
  destruct (ToString_primitive _ Ha) as [actual ->]. simpl.
  destruct IH as [texts ->]; [intros r Hin; apply H; now right |].
  simpl. eauto.
Qed.

(** After the request has succeeded, nothing in [checkUrl] throws: the
    result holds the results of the checks and their conjunction. *)
Lemma checkUrl_transported (config : Config) (urlConfig : UrlConfig) (run : Run)
    (res : HttpResponse) :
  response run = Normal res ->
  let results :=
    evaluateChecks (effectiveChecks config urlConfig)
      {| statusCode := res_statusCode res;
         headers := res_headers res;
         body := res_body res;
         responseTime := sub (settledTime run) (startTime run) |} in
  r_checkResults (checkUrl config urlConfig run) = Some results
  /\ r_success (checkUrl config urlConfig run) = forallb passed results
  /\ r_body (checkUrl config urlConfig run) = Some (truncate 1024 (res_body res)).
Proof.
  intros T results. unfold checkUrl, checkUrlTry. rewrite T. simpl.
  fold results.
  destruct (forallb passed results) eqn:S; simpl; [repeat split; now rewrite ?S |].
  destruct (failedCheckText_normal
              (filter (fun result => negb (passed result)) results)) as [texts ->].
  - intros result Hin. apply filter_In in Hin as [Hin _].
    unfold results, evaluateChecks in Hin.
    apply in_map_iff in Hin as (check & <- & _). apply evaluateCheck_primitive.
  - simpl. repeat split; now rewrite ?S.
Qed.

(** C1, amended. After the request has succeeded, the checks that run are
    the checks of the probe when it supplies at least one; without checks,
    or with an empty list of them, the one check is a [StatusCodeCheck] with
    operator [equals] whose value joins with ['|'] the success codes of the
    probe, else those of the configuration, else 200. The probe succeeds
    exactly when every result has passed. *)
Theorem effective_checks_and_success
    (config : Config) (urlConfig : UrlConfig) (run : Run) (res : HttpResponse)
    (transported : response run = Normal res) :
  let codes :=
    match successCodes urlConfig, globalSuccessCodes config with
    | Some codes, _ => codes
    | None, Some codes => codes
    | None, None => [ofZ 200]
    end in
  let results :=
    evaluateChecks (effectiveChecks config urlConfig)
      {| statusCode := res_statusCode res;
         headers := res_headers res;
         body := res_body res;
         responseTime := sub (settledTime run) (startTime run) |} in
  effectiveChecks config urlConfig
  = match checks urlConfig with
    | Some (check :: rest) => check :: rest
    | Some [] | None =>
        [OfStatusCode {| sc_operator := sc_equals;
                         sc_value := join "|" (map toString codes) |}]
    end
  /\ join "|" (map toString [ofZ 200]) = "200"
  /\ r_checkResults (checkUrl config urlConfig run) = Some results
  /\ r_success (checkUrl config urlConfig run) = forallb passed results.
Proof.
  intros codes results.
  destruct (checkUrl_transported config urlConfig run res transported) as (C & S & _).
  split; [| split; [reflexivity | split; assumption]].
  unfold effectiveChecks, effectiveSuccessCodes, codes.
  destruct (checks urlConfig) as [[| c cs] |]; try reflexivity;
    destruct (successCodes urlConfig); reflexivity.
Qed.

(** C9. After the request has succeeded, the verdict of a body check is
    computed on the whole body of the response, whatever its operator: the
    body cut at 1024 characters that the result of the probe stores, and the
    body cut at 100 characters that the check reports as [actualValue], take
    no part in it. With [exists] and [not_exists] the verdict is whether the
    whole body is empty; with [equals] and [not_equals] whether the whole
    body is the expected text; with [contains] and [not_contains] whether
    the whole body includes it; with [matches] and [not_matches] whether the
    pattern matches the whole body, a pattern that is refused making the
    check fail. *)
Theorem body_verdict_uses_whole_body
    (config : Config) (urlConfig : UrlConfig) (run : Run) (res : HttpResponse)
    (i : nat) (check : BodyCheck)
    (transported : response run = Normal res)
    (selected : nth_error (effectiveChecks config urlConfig) i = Some (OfBody check)) :
  exists results result,
    r_checkResults (checkUrl config urlConfig run) = Some results
    /\ nth_error results i = Some result
    /\ passed result
       = match b_operator check with
         | exists_ => (0 <? String.length (res_body res))%nat
         | not_exists => (String.length (res_body res) =? 0)%nat
         | equals =>
             match b_value check with
             | Some expected => String.eqb (res_body res) expected
             | None => false
             end
         | not_equals =>
             match b_value check with
             | Some expected => negb (String.eqb (res_body res) expected)
             | None => true
             end
         | contains => includes (res_body res) (orEmpty (b_value check))
         | not_contains => negb (includes (res_body res) (orEmpty (b_value check)))
         | matches =>
             match RegExp_new (orEmpty (b_value check)) with
             | Normal regex => RegExp_test regex (res_body res)
             | Throw _ => false
             end
         | not_matches =>
             match RegExp_new (orEmpty (b_value check)) with
             | Normal notRegex => negb (RegExp_test notRegex (res_body res))
             | Throw _ => false
             end
         | greater_than | less_than => false
         end
    /\ actualValue result = VString (truncate 100 (res_body res))
    /\ r_body (checkUrl config urlConfig run) = Some (truncate 1024 (res_body res)).
Proof.
  destruct (checkUrl_transported config urlConfig run res transported) as (C & _ & B).
  eexists. eexists. split; [exact C |]. split.
  - unfold evaluateChecks. rewrite nth_error_map, selected. reflexivity.
  - cbn [evaluateCheck]. unfold evaluateBodyCheck. cbn [body].
    destruct (caught (bodyTry check (res_body res))) as [p e] eqn:K.
    cbn [passed actualValue].
    split; [| split; [reflexivity | exact B]].
    unfold bodyTry in K.
    destruct (b_operator check); cbn [caught] in K;
      try (destruct (b_value check); cbn [strictEquals negb] in K);
      try (destruct (RegExp_new _); cbn [bind caught] in K);
      now inversion K.
Qed.

End ProbeProperties.

(** ** The properties on the reference host *)

Lemma header_absent_equals_without_value_witness :
  (forall key val,
      In (key, val) (headers (respond 200 [("content-type", "text/html")] "")) ->
      toLowerCase key <> toLowerCase "X-Missing")
  /\ passed (evaluateHeaderCheck
               {| h_name := "X-Missing"; h_operator := equals; h_value := None |}
               (respond 200 [("content-type", "text/html")] "")) = true
  /\ passed (evaluateHeaderCheck
               {| h_name := "X-Missing"; h_operator := not_equals; h_value := None |}
               (respond 200 [("content-type", "text/html")] "")) = false.
Proof.
  assert (A : forall key val,
             In (key, val) (headers (respond 200 [("content-type", "text/html")] "")) ->
             toLowerCase key <> toLowerCase "X-Missing").
  { intros key val [H | []]. inversion H; subst. discriminate. }
  split; [exact A |].
  exact (header_absent_equals_without_value "X-Missing"
           (respond 200 [("content-type", "text/html")] "") A).
Defined.

(** C5, as stated, fails: with no header of the name, [equals] without an
    expected value passes, while [compareValues] on the absent value gives
    [false]; and with a header found, [greater_than] fails where
    [compareValues] gives [true]. *)
Lemma header_check_differs_from_comparator :
  (let check := {| h_name := "X-Missing"; h_operator := equals; h_value := None |} in
   let response := respond 200 [("content-type", "text/html")] "" in
   passed (evaluateHeaderCheck check response) = true
   /\ compareValues
        (ofOption (findHeader (toLowerCase (h_name check)) (headers response)))
        (h_operator check) (h_value check) = Normal false)
  /\ (let check := {| h_name := "Content-Length"; h_operator := greater_than;
                      h_value := Some "5" |} in
      let response := respond 200 [("content-length", "10")] "" in
      passed (evaluateHeaderCheck check response) = false
      /\ compareValues
           (ofOption (findHeader (toLowerCase (h_name check)) (headers response)))
           (h_operator check) (h_value check) = Normal true).
Proof. vm_compute. repeat split. Qed.

Lemma header_check_agrees_when_found_witness :
  findHeader (toLowerCase "Content-Type")
    (headers (respond 200 [("content-type", "application/json")] ""))
  = Some "application/json"
  /\ passed (evaluateHeaderCheck
               {| h_name := "Content-Type"; h_operator := contains;
                  h_value := Some "json" |}
               (respond 200 [("content-type", "application/json")] ""))
     = fst (caught (compareValues (VString "application/json") contains (Some "json"))).
Proof.
  split; [reflexivity |].
  exact (header_check_agrees_when_found
           {| h_name := "Content-Type"; h_operator := contains; h_value := Some "json" |}
           (respond 200 [("content-type", "application/json")] "")
           "application/json" eq_refl).
Defined.

(** C4, as stated, fails: [null], the empty text and [true] are no numbers,
    yet [Number] makes them 0, 0 and 1 and the comparison holds; and an
    object that cannot be made a primitive makes the comparison throw. *)
Lemma numeric_comparison_coerces_non_numbers :
  compareValues VNull greater_than (Some "-1") = Normal true
  /\ compareValues (VNumber (ofZ 1)) greater_than (Some "") = Normal true
  /\ compareValues (VBoolean true) less_than (Some "2") = Normal true
  /\ compareValues (VObject [("toString", VNull)]) greater_than (Some "1")
     = Throw cannotConvert.
Proof. vm_compute. repeat split. Qed.

Lemma numeric_comparison_with_NaN_fails_witness :
  (greater_than = greater_than \/ greater_than = less_than)
  /\ ToNumber (VString "abc") = Normal NaN
  /\ ToNumber (ofOption (Some "5")) = Normal (StringToNumber "5")
  /\ compareValues (VString "abc") greater_than (Some "5") = Normal false.
Proof.
  split; [now left |]. split; [reflexivity |]. split; [reflexivity |].
  exact (proj2 (numeric_comparison_with_NaN_fails (VString "abc") greater_than
                  (Some "5") NaN (StringToNumber "5")
                  (or_introl eq_refl) eq_refl eq_refl)
               (or_introl eq_refl)).
Defined.

(** C6, as stated, fails on an invalid numeric literal: the segment reads as
    [NaN], nothing is thrown, and the check reports no error; with
    [not_equals] it even passes. *)
Lemma invalid_status_literal_reports_no_error :
  passed (evaluateCheck (OfStatusCode {| sc_operator := sc_equals; sc_value := "abc" |})
            (respond 200 [] "")) = false
  /\ error (evaluateCheck (OfStatusCode {| sc_operator := sc_equals; sc_value := "abc" |})
              (respond 200 [] "")) = None
  /\ passed (evaluateCheck (OfStatusCode {| sc_operator := sc_not_equals; sc_value := "abc" |})
               (respond 200 [] "")) = true.
Proof. vm_compute. repeat split. Qed.

Lemma evaluation_failure_is_contained_witness :
  let check := OfStatusCode {| sc_operator := sc_matches; sc_value := "(" |} in
  let before := [OfStatusCode {| sc_operator := sc_equals; sc_value := "200" |}] in
  let after := [OfBody {| b_operator := exists_; b_value := None |}] in
  let e := SyntaxError "Invalid regular expression: /(/: Unterminated group" in
  EvaluationFailure check (respond 200 [] "ok") e
  /\ passed (evaluateCheck check (respond 200 [] "ok")) = false
  /\ error (evaluateCheck check (respond 200 [] "ok")) = Some (message e)
  /\ evaluateChecks (before ++ check :: after)%list (respond 200 [] "ok")
     = (evaluateChecks before (respond 200 [] "ok")
          ++ evaluateCheck check (respond 200 [] "ok")
          :: evaluateChecks after (respond 200 [] "ok"))%list.
Proof.
  intros check before after e.
  assert (F : EvaluationFailure check (respond 200 [] "ok") e).
  { apply MalformedStatusPattern; [now left | reflexivity]. }
  split; [exact F |].
  exact (evaluation_failure_is_contained before after check (respond 200 [] "ok") e F).
Defined.

Lemma unparsable_body_reports_null_text_witness :
  let check := {| j_path := "name"; j_operator := equals; j_value := Some "x";
                  j_element := None |} in
  let e := SyntaxError "Unexpected token in JSON" in
  JSON_parse (body (respond 200 [] "not json")) = Throw e
  /\ passed (evaluateJsonPathCheck check (respond 200 [] "not json")) = false
  /\ error (evaluateJsonPathCheck check (respond 200 [] "not json")) = Some (message e)
  /\ actualValue (evaluateJsonPathCheck check (respond 200 [] "not json")) = VString "null"
  /\ actualValue (evaluateJsonPathCheck check (respond 200 [] "not json")) <> VNull.
Proof.
  intros check e. split; [reflexivity |].
  exact (unparsable_body_reports_null_text check (respond 200 [] "not json") e eq_refl).
Defined.

(** C3, as stated, fails where the comparison throws: over an array whose
    first element equals the expected text and whose second element has no
    string form, ['any'] does not pass although an element satisfies the
    comparison; and with a malformed pattern the [actualValue] reported is
    the text ["null"], not the JSON text of the array. *)
Lemma any_all_fail_when_comparison_throws :
  (let response := respond 200 [] oddTagsBody in
   let check := tagsCheck equals "typescript" Any in
   let items := [VString "typescript"; VObject [("toString", VNumber (ofZ 1))]] in
   JSON_parse (body response) = Normal (VObject [("tags", VArray items)])
   /\ extractJsonPath (VObject [("tags", VArray items)]) (j_path check) = VArray items
   /\ compareValues (VString "typescript") (j_operator check) (j_value check)
      = Normal true
   /\ passed (evaluateJsonPathCheck check response) = false
   /\ error (evaluateJsonPathCheck check response)
      = Some "Cannot convert object to primitive value")
  /\ (let response := respond 200 [] tagsBody in
      let check := tagsCheck matches "(" Any in
      let items := [VString "developer"; VString "typescript"] in
      JSON_parse (body response) = Normal (VObject [("tags", VArray items)])
      /\ extractJsonPath (VObject [("tags", VArray items)]) (j_path check) = VArray items
      /\ actualValue (evaluateJsonPathCheck check response) = VString "null"
      /\ actualValue (evaluateJsonPathCheck check response)
         <> JSON_stringify (VArray items)).
Proof. vm_compute. repeat split; discriminate. Qed.

Lemma any_all_compare_every_element_witness :
  let response := respond 200 [] tagsBody in
  let items := [VString "developer"; VString "typescript"] in
  let jsonBody := VObject [("tags", VArray items)] in
  JSON_parse (body response) = Normal jsonBody
  /\ extractJsonPath jsonBody "tags" = VArray items
  /\ (forall item, In item items ->
        exists b, compareValues item equals (Some "typescript") = Normal b)
  /\ passed (evaluateJsonPathCheck (tagsCheck equals "typescript" Any) response) = true
  /\ passed (evaluateJsonPathCheck (tagsCheck equals "typescript" All) response) = false
  /\ actualValue (evaluateJsonPathCheck (tagsCheck equals "typescript" Any) response)
     = JSON_stringify (VArray items).
Proof.
  intros response items jsonBody.
  assert (C : forall item, In item items ->
                exists b, compareValues item equals (Some "typescript") = Normal b).
  { intros item [<- | [<- | []]]; eexists; reflexivity. }
  split; [reflexivity |]. split; [reflexivity |]. split; [exact C |].
  pose proof (any_all_compare_every_element (tagsCheck equals "typescript" Any)
                response jsonBody items Any eq_refl eq_refl eq_refl
                (or_introl eq_refl) C) as (_ & A & _ & P).
  pose proof (any_all_compare_every_element (tagsCheck equals "typescript" All)
                response jsonBody items All eq_refl eq_refl eq_refl
                (or_intror eq_refl) C) as (_ & _ & _ & Q).
  split; [exact (P eq_refl eq_refl eq_refl) |].
  split; [exact (Q eq_refl eq_refl eq_refl) | exact A].
Defined.

Lemma bracket_index_is_dotted_segment_witness :
  "0" <> ""
  /\ forallChars isWordChar "0" = true
  /\ pathSegments ("slideshow.slides" ++ "[" ++ "0" ++ "]" ++ ".title")
     = pathSegments ("slideshow.slides" ++ "." ++ "0" ++ ".title")
  /\ extractJsonPath (VObject [("tags", VArray [VString "developer"])])
       ("slideshow.slides" ++ "[" ++ "0" ++ "]" ++ ".title")
     = extractJsonPath (VObject [("tags", VArray [VString "developer"])])
         ("slideshow.slides" ++ "." ++ "0" ++ ".title")
  /\ extractJsonPath (VObject [("tags", VArray [VString "developer"])]) "tags[0]"
     = extractJsonPath (VObject [("tags", VArray [VString "developer"])]) "tags.0".
Proof.
  assert (N : "0" <> "") by discriminate.
  split; [exact N |]. split; [reflexivity |].
  exact (bracket_index_is_dotted_segment
           (VObject [("tags", VArray [VString "developer"])])
           "slideshow.slides" "0" ".title" N eq_refl).
Defined.

(** C1, as stated, fails on a supplied empty list of checks: the list is not
    used as it is, the check on the status code takes its place, and a
    response with status 404 makes the probe fail. *)
Lemma empty_checks_get_default_check :
  effectiveChecks plainConfig (probe (Some []))
  = [OfStatusCode {| sc_operator := sc_equals; sc_value := "200" |}]
  /\ effectiveChecks plainConfig (probe (Some [])) <> []
  /\ r_success (checkUrl plainConfig (probe (Some [])) (answered 404 "")) = false.
Proof. vm_compute. repeat split; discriminate. Qed.

Lemma effective_checks_and_success_witness :
  response (answered 200 "ok")
  = Normal {| res_statusCode := ofZ 200; res_headers := []; res_body := "ok" |}
  /\ effectiveChecks plainConfig (probe None)
     = [OfStatusCode {| sc_operator := sc_equals; sc_value := "200" |}]
  /\ r_success (checkUrl plainConfig (probe None) (answered 200 "ok"))
     = forallb passed
         (evaluateChecks (effectiveChecks plainConfig (probe None))
            {| statusCode := ofZ 200; headers := []; body := "ok";
               responseTime := sub (ofZ 1100) (ofZ 1000) |}).
Proof.
  split; [reflexivity |].
  pose proof (effective_checks_and_success plainConfig (probe None)
                (answered 200 "ok")
                {| res_statusCode := ofZ 200; res_headers := []; res_body := "ok" |}
                eq_refl) as (E & _ & _ & S).
  split; [exact E | exact S].
Defined.

Lemma body_verdict_uses_whole_body_witness :
  let needle := OfBody {| b_operator := contains; b_value := Some "needle" |} in
  let urlConfig := probe (Some [needle]) in
  let run := answered 200 longBody in
  let res := {| res_statusCode := ofZ 200; res_headers := []; res_body := longBody |} in
  response run = Normal res
  /\ nth_error (effectiveChecks plainConfig urlConfig) 0 = Some needle
  /\ String.length longBody = 2000%nat
  /\ includes (truncate 1024 longBody) "needle" = false
  /\ includes (truncate 100 longBody) "needle" = false
  /\ exists results result,
       r_checkResults (checkUrl plainConfig urlConfig run) = Some results
       /\ nth_error results 0 = Some result
       /\ passed result = true
       /\ actualValue result = VString (truncate 100 longBody)
       /\ r_body (checkUrl plainConfig urlConfig run) = Some (truncate 1024 longBody).
Proof.
  intros needle urlConfig run res.
  split; [reflexivity |]. split; [reflexivity |].
  split; [vm_compute; reflexivity |].
  split; [vm_compute; reflexivity |].
  split; [vm_compute; reflexivity |].
  destruct (body_verdict_uses_whole_body plainConfig urlConfig run res 0
              {| b_operator := contains; b_value := Some "needle" |}
              eq_refl eq_refl)
    as (results & result & C & N & P & A & B).
  exists results, result.
  split; [exact C |]. split; [exact N |].
  split; [rewrite P; vm_compute; reflexivity |].
  split; [exact A | exact B].
Defined.

(** ** The tests of the repository, on the reference host *)

(** [testStatusCodeChecks] *)
Example test_status_code_checks :
  map passed
    (evaluateChecks
       [statusCheck sc_equals "200"; statusCheck sc_not_equals "404";
        statusCheck sc_matches "2[0-9]{2}"; statusCheck sc_not_matches "4[0-9]{2}";
        statusCheck sc_equals "200|201|202"; statusCheck sc_equals "404"]
       (respond 200 [] ""))
  = [true; true; true; true; true; false].
Proof. vm_compute. reflexivity. Qed.

(** [testHeaderChecks] *)
Example test_header_checks :
  map passed
    (evaluateChecks
       [headerCheck "content-type" exists_ None;
        headerCheck "non-existent" not_exists None;
        headerCheck "x-custom-header" equals (Some "test-value");
        headerCheck "content-type" contains (Some "application/json");
        headerCheck "content-type" matches (Some "application\/.*utf-8");
        headerCheck "content-type" equals (Some "text/html")]
       headersResponse)
  = [true; true; true; true; true; false].
Proof. vm_compute. reflexivity. Qed.

(** [testBodyChecks] *)
Example test_body_checks :
  map passed
    (evaluateChecks
       [bodyCheck exists_ None;
        bodyCheck equals (Some personText);
        bodyCheck contains (Some "John Doe");
        bodyCheck matches (Some (".*" ++ quote "age" ++ ":30.*"));
        bodyCheck contains (Some "Jane Smith")]
       (respond 200 [] personText))
  = [true; true; true; true; false].
Proof. vm_compute. reflexivity. Qed.

(** [testJsonPathChecks] *)
Example test_json_path_checks :
  map passed
    (evaluateChecks
       [pathCheck "name" equals (Some "John Doe");
        pathCheck "address.city" equals (Some "Sydney");
        pathCheck "tags[0]" equals (Some "developer");
        pathCheck "active" exists_ None;
        pathCheck "address.country" contains (Some "Austra");
        pathCheck "name" equals (Some "Jane Smith")]
       (respond 200 [] profileText))
  = [true; true; true; true; true; false].
Proof. vm_compute. reflexivity. Qed.

(** [testResponseTimeChecks] *)
Example test_response_time_checks :
  map passed
    (evaluateChecks
       [timeCheck rt_less_than 200; timeCheck rt_greater_than 50;
        timeCheck rt_less_than 50]
       (respond 200 [] ""))
  = [true; true; false].
Proof. vm_compute. reflexivity. Qed.

(** The path of the specification: ["slideshow.slides[0].title"] finds the
    title, and ["a.b.c"] finds nothing in a document whose [a] is 1. *)
Example extract_examples :
  extractJsonPath
    (VObject [("slideshow", VObject [("slides", VArray [VObject [("title", VString "X")]])])])
    "slideshow.slides[0].title" = VString "X"
  /\ extractJsonPath (VObject [("a", VNumber (ofZ 1))]) "a.b.c" = VUndefined
  /\ pathSegments "$.items[2].tags[0]" = ["items"; "2"; "tags"; "0"].
Proof. vm_compute. repeat split. Qed.

(** The name of a header is looked up without regard to letter case. *)
Example header_lookup_ignores_case :
  passed (evaluateCheck (headerCheck "Content-Type" contains (Some "json"))
            headersResponse) = true.
Proof. vm_compute. reflexivity. Qed.

(** * Further properties of the evaluator *)

(** The completion of the contrary verdict. *)
Lemma caught_negated (c c' : completion bool) :
  c' = (b <- c ;; Normal (negb b)) ->
  match c with
  | Normal b => caught c = (b, "") /\ caught c' = (negb b, "")
  | Throw e => caught c = (false, message e) /\ caught c' = (false, message e)
  end.
Proof. intros ->. destruct c; simpl; split; reflexivity. Qed.

Section EvaluatorProperties.
Context {host : Host}.

Lemma compareValues_negated (actual : value) (operator operator' : ComparisonOperator)
    (expected : option string) :
  negated operator = Some operator' ->
  compareValues actual operator' expected
  = (b <- compareValues actual operator expected ;; Normal (negb b)).
Proof.
  destruct operator; simpl; intros E; inversion E; subst; simpl;
    try reflexivity;
    try (destruct (RegExp_new (orEmpty expected)); simpl; [| reflexivity]);
    try (destruct (ToString actual); simpl; [| reflexivity]);
    now rewrite ?negb_involutive.
Qed.

Lemma statusCodeTry_negated (check : StatusCodeCheck) (response : ResponseData) :
  statusCodeTry {| sc_operator := negatedStatusCode (sc_operator check);
                   sc_value := sc_value check |} response
  = (b <- statusCodeTry check response ;; Normal (negb b)).
Proof.
  unfold statusCodeTry. simpl.
  destruct (sc_operator check); simpl; try reflexivity;
    try (destruct (RegExp_new (sc_value check)); simpl; [| reflexivity]);
    now rewrite ?negb_involutive.
Qed.

Lemma headerTry_negated (check : HeaderCheck) (operator : ComparisonOperator)
    (headerValue : option string) :
  negated (h_operator check) = Some operator ->
  headerTry {| h_name := h_name check; h_operator := operator;
               h_value := h_value check |} headerValue
  = (b <- headerTry check headerValue ;; Normal (negb b)).
Proof.
  unfold headerTry. simpl.
  destruct (h_operator check); simpl; intros E; inversion E; subst; simpl;
    try reflexivity;
    try (destruct (RegExp_new (orEmpty (h_value check))); simpl; [| reflexivity]);
    now rewrite ?negb_involutive.
Qed.

Lemma bodyTry_negated (check : BodyCheck) (operator : ComparisonOperator)
    (text : string) :
  negated (b_operator check) = Some operator ->
  bodyTry {| b_operator := operator; b_value := b_value check |} text
  = (b <- bodyTry check text ;; Normal (negb b)).
Proof.
  unfold bodyTry. simpl.
  destruct (b_operator check); simpl; intros E; inversion E; subst; simpl;
    try reflexivity;
    try (destruct (RegExp_new (orEmpty (b_value check))); simpl; [| reflexivity]);
    rewrite ?negb_involutive; try reflexivity.
  - destruct text; reflexivity.
  - destruct text; reflexivity.
Qed.

End EvaluatorProperties.

Section VerdictProperties.
Context {host : Host}.

(** The [try] block of a JSON-path check returns a result from inside only
    for ['any'] and ['all'], and that result carries no error. *)
Lemma jsonPathTry_returned (check : JsonPathCheck) (response : ResponseData)
    (actualValue : value) (result : IndividualCheckResult) :
  jsonPathTry check response = (actualValue, Normal (inl result)) ->
  error result = None
  /\ (j_element check = Some Any \/ j_element check = Some All).
Proof.
  unfold jsonPathTry.
  assert (C : forall v, jsonPathCompare check v <> (actualValue, Normal (inl result))).
  { intros v. unfold jsonPathCompare.
    destruct (compareValues _ _ _); simpl; intros X; inversion X. }
  destruct (JSON_parse (body response)); [| discriminate].
  destruct (extractJsonPath _ _); try (intros T; now apply C in T).
  destruct (j_element check) as [[| | | | n] |]; try (intros T; now apply C in T);
    (destruct (mapM _ items); simpl; intros T; inversion T; subst; simpl; auto).
Qed.

Lemma jsonPathTry_negated (check : JsonPathCheck) (operator : ComparisonOperator)
    (response : ResponseData) :
  negated (j_operator check) = Some operator ->
  j_element check <> Some Any -> j_element check <> Some All ->
  exists (actualValue : value) (k : completion bool),
    jsonPathTry check response = (actualValue, b <- k ;; Normal (inr b))
    /\ jsonPathTry {| j_path := j_path check; j_operator := operator;
                      j_value := j_value check; j_element := j_element check |}
         response
       = (actualValue, b <- k ;; Normal (inr (negb b))).
Proof.
  intros N HAny HAll.
  assert (C : forall v,
             exists (actualValue : value) (k : completion bool),
               jsonPathCompare check v = (actualValue, b <- k ;; Normal (inr b))
               /\ jsonPathCompare
                    {| j_path := j_path check; j_operator := operator;
                       j_value := j_value check; j_element := j_element check |} v
                  = (actualValue, b <- k ;; Normal (inr (negb b)))).
  { intros v. unfold jsonPathCompare. simpl.
    assert (S : match operator with
                | contains | not_contains =>
                    if isObjectType v && negb (isNullish v) then JSON_stringify v else v
                | _ => v
                end
                = match j_operator check with
                  | contains | not_contains =>
                      if isObjectType v && negb (isNullish v) then JSON_stringify v else v
                  | _ => v
                  end).
    { destruct (j_operator check); inversion N; reflexivity. }
    rewrite S. eexists. exists (compareValues
                                  match j_operator check with
                                  | contains | not_contains =>
                                      if isObjectType v && negb (isNullish v)
                                      then JSON_stringify v else v
                                  | _ => v
                                  end (j_operator check) (j_value check)).
    split; [reflexivity |].
    rewrite (compareValues_negated _ _ _ _ N).
    destruct (compareValues _ (j_operator check) _); reflexivity. }
  unfold jsonPathTry. simpl.
  destruct (JSON_parse (body response)) as [jsonBody | e].
  - destruct (extractJsonPath jsonBody (j_path check)); try apply C.
    destruct (j_element check) as [[| | | | n] |]; try apply C; contradiction.
  - exists VNull, (Throw e). split; reflexivity.
Qed.

(** X1. A check that passes reports no error: whatever the check and the
    response, a result whose [error] field is set has [passed] false. *)
Theorem passed_result_reports_no_error
    (check : Check) (response : ResponseData)
    (passes : passed (evaluateCheck check response) = true) :
  error (evaluateCheck check response) = None.
Proof.
  destruct check as [c | c | c | c | c | t]; simpl in *.
  - unfold evaluateStatusCodeCheck in *.
    destruct (statusCodeTry c response); simpl in *; [reflexivity | discriminate].
  - unfold evaluateHeaderCheck in *.
    destruct (headerTry c _); simpl in *; [reflexivity | discriminate].
  - unfold evaluateBodyCheck in *.
    destruct (bodyTry c _); simpl in *; [reflexivity | discriminate].
  - unfold evaluateJsonPathCheck in *.
    destruct (jsonPathTry c response) as [a [[r | p] | e]] eqn:T; simpl in *;
      [| reflexivity | discriminate].
    now destruct (jsonPathTry_returned _ _ _ _ T).
  - reflexivity.
  - discriminate.
Qed.

Lemma evaluateStatusCodeCheck_caught (check : StatusCodeCheck) (response : ResponseData) :
  passed (evaluateStatusCodeCheck check response)
  = fst (caught (statusCodeTry check response))
  /\ error (evaluateStatusCodeCheck check response)
     = orUndefined (snd (caught (statusCodeTry check response))).
Proof.
  unfold evaluateStatusCodeCheck. destruct (caught _). split; reflexivity.
Qed.

Lemma evaluateHeaderCheck_caught (check : HeaderCheck) (response : ResponseData) :
  passed (evaluateHeaderCheck check response)
  = fst (caught (headerTry check
                   (findHeader (toLowerCase (h_name check)) (headers response))))
  /\ error (evaluateHeaderCheck check response)
     = orUndefined
         (snd (caught (headerTry check
                         (findHeader (toLowerCase (h_name check)) (headers response))))).
Proof.
  unfold evaluateHeaderCheck. destruct (caught _). split; reflexivity.
Qed.

Lemma evaluateBodyCheck_caught (check : BodyCheck) (response : ResponseData) :
  passed (evaluateBodyCheck check response)
  = fst (caught (bodyTry check (body response)))
  /\ error (evaluateBodyCheck check response)
     = orUndefined (snd (caught (bodyTry check (body response)))).
Proof.
  unfold evaluateBodyCheck. destruct (caught _). split; reflexivity.
Qed.

(** X2. The contrary operator gives the contrary verdict. When a check
    evaluates without error, the check with [not_equals] for [equals],
    [not_contains] for [contains], [not_matches] for [matches] or
    [not_exists] for [exists], or the other way round, passes exactly when
    the first fails, and reports no error either; when the first reports an
    error, both fail with it. *)
Theorem contrary_operator_gives_contrary_verdict
    (check contrary : Check) (response : ResponseData)
    (negation : negatedCheck check = Some contrary) :
  match error (evaluateCheck check response) with
  | None =>
      passed (evaluateCheck contrary response)
      = negb (passed (evaluateCheck check response))
      /\ error (evaluateCheck contrary response) = None
  | Some text =>
      passed (evaluateCheck check response) = false
      /\ passed (evaluateCheck contrary response) = false
      /\ error (evaluateCheck contrary response) = Some text
  end.
Proof.
  assert (K : forall (c c' : completion bool),
             c' = (b <- c ;; Normal (negb b)) ->
             (forall e, c = Throw e -> message e <> "") ->
             match orUndefined (snd (caught c)) with
             | None => fst (caught c') = negb (fst (caught c))
                       /\ orUndefined (snd (caught c')) = None
             | Some text => fst (caught c) = false /\ fst (caught c') = false
                            /\ orUndefined (snd (caught c')) = Some text
             end).
  { intros c c' -> M. destruct c as [b | e]; simpl; [auto |].
    rewrite (orUndefined_message e (M e eq_refl)). auto. }
  destruct check as [c | c | c | c | c | t]; simpl in negation.
  - inversion negation; subst; clear negation. simpl.
    destruct (evaluateStatusCodeCheck_caught c response) as [-> ->].
    destruct (evaluateStatusCodeCheck_caught
                {| sc_operator := negatedStatusCode (sc_operator c);
                   sc_value := sc_value c |} response) as [-> ->].
    apply (K _ _ (statusCodeTry_negated c response)).
    intros e T. unfold statusCodeTry in T.
    destruct (sc_operator c); try discriminate;
      (destruct (RegExp_new (sc_value c)) eqn:R; simpl in T; [discriminate |];
       inversion T; subst; eapply RegExp_new_message; eauto).
  - destruct (negated (h_operator c)) as [operator |] eqn:N; [| discriminate].
    inversion negation; subst; clear negation. simpl.
    destruct (evaluateHeaderCheck_caught c response) as [-> ->].
    destruct (evaluateHeaderCheck_caught
                {| h_name := h_name c; h_operator := operator;
                   h_value := h_value c |} response) as [-> ->].
    simpl h_name.
    apply (K _ _ (headerTry_negated c operator _ N)).
    intros e T. unfold headerTry in T.
    destruct (h_operator c); try discriminate;
      (destruct (RegExp_new (orEmpty (h_value c))) eqn:R; simpl in T; [discriminate |];
       inversion T; subst; eapply RegExp_new_message; eauto).
  - destruct (negated (b_operator c)) as [operator |] eqn:N; [| discriminate].
    inversion negation; subst; clear negation. simpl.
    destruct (evaluateBodyCheck_caught c response) as [-> ->].
    destruct (evaluateBodyCheck_caught
                {| b_operator := operator; b_value := b_value c |} response) as [-> ->].
    apply (K _ _ (bodyTry_negated c operator _ N)).
    intros e T. unfold bodyTry in T.
    destruct (b_operator c); try discriminate;
      (destruct (RegExp_new (orEmpty (b_value c))) eqn:R; simpl in T; [discriminate |];
       inversion T; subst; eapply RegExp_new_message; eauto).
  - assert (X : exists operator, negated (j_operator c) = Some operator
                 /\ j_element c <> Some Any /\ j_element c <> Some All
                 /\ contrary = OfJsonPath {| j_path := j_path c; j_operator := operator;
                                             j_value := j_value c;
                                             j_element := j_element c |}).
    { destruct (j_element c) as [[| | | | n] |];
        destruct (negated (j_operator c)) as [operator |]; try discriminate;
        inversion negation; exists operator; repeat split; discriminate. }
    destruct X as (operator & N & HAny & HAll & ->). simpl.
    destruct (jsonPathTry_negated c operator response N HAny HAll)
      as (a & k & T & T').
    pose proof (jsonPathTry_throws c response) as M.
    unfold evaluateJsonPathCheck. rewrite T, T'. rewrite T in M. simpl in M.
    destruct k as [b | e]; simpl; [auto |].
    rewrite (orUndefined_message e (M e eq_refl)). auto.
  - discriminate.
  - discriminate.
Qed.

End VerdictProperties.

Lemma mapM_negated {A : Type} (f f' : A -> completion bool) (items : list A) :
  (forall item, f' item = (b <- f item ;; Normal (negb b))) ->
  mapM f' items = (results <- mapM f items ;; Normal (map negb results)).
Proof.
  intros H. induction items as [| a rest IH]; simpl; [reflexivity |].
  rewrite H, IH. destruct (f a); simpl; [| reflexivity].
  destruct (mapM f rest); reflexivity.
Qed.

Lemma forallb_negb_existsb (results : list bool) :
  forallb (fun result => result) (map negb results)
  = negb (existsb (fun result => result) results).
Proof.
  induction results as [| b rest IH]; simpl; [reflexivity |].
  rewrite IH. now destruct b.
Qed.

Lemma orUndefined_None (e : Error) :
  message e <> "" -> orUndefined (message e) <> None.
Proof. intros M. now rewrite (orUndefined_message e M). Qed.

Section ElementProperties.
Context {host : Host}.

Lemma jsonPathCompare_negated (check contrary : JsonPathCheck) (v : value) :
  negated (j_operator check) = Some (j_operator contrary) ->
  j_value contrary = j_value check ->
  exists (actualValue : value) (k : completion bool),
    jsonPathCompare check v = (actualValue, b <- k ;; Normal (inr b))
    /\ jsonPathCompare contrary v = (actualValue, b <- k ;; Normal (inr (negb b)))
    /\ forall e, k = Throw e -> message e <> "".
Proof.
  intros N V. unfold jsonPathCompare. rewrite V.
  set (a := match j_operator check with
            | contains | not_contains =>
                if isObjectType v && negb (isNullish v) then JSON_stringify v else v
            | _ => v
            end).
  assert (S : match j_operator contrary with
              | contains | not_contains =>
                  if isObjectType v && negb (isNullish v) then JSON_stringify v else v
              | _ => v
              end = a).
  { unfold a. destruct (j_operator check); inversion N; reflexivity. }
  rewrite S.
  exists a, (compareValues a (j_operator check) (j_value check)).
  split; [reflexivity |]. split.
  - rewrite (compareValues_negated _ _ _ _ N).
    destruct (compareValues a (j_operator check) (j_value check)); reflexivity.
  - intros e. apply compareValues_throws.
Qed.

(** X3. ['all'] with the contrary operator is the contrary of ['any']: when
    a JSON-path check with [element] ['any'] evaluates without error, the
    check that asks the contrary of every element, ['all'] with
    [not_equals] for [equals] and so on, passes exactly when the first
    fails. *)
Theorem all_of_contrary_is_contrary_of_any
    (path : string) (operator contrary : ComparisonOperator)
    (expected : option string) (response : ResponseData)
    (negation : negated operator = Some contrary)
    (clean : error (evaluateJsonPathCheck
                      {| j_path := path; j_operator := operator;
                         j_value := expected; j_element := Some Any |} response)
             = None) :
  passed (evaluateJsonPathCheck
            {| j_path := path; j_operator := contrary; j_value := expected;
               j_element := Some All |} response)
  = negb (passed (evaluateJsonPathCheck
                    {| j_path := path; j_operator := operator; j_value := expected;
                       j_element := Some Any |} response)).
Proof.
  set (c := {| j_path := path; j_operator := operator; j_value := expected;
               j_element := Some Any |}) in *.
  set (c' := {| j_path := path; j_operator := contrary; j_value := expected;
                j_element := Some All |}).
  assert (S : forall v,
             error (match jsonPathCompare c v with
                    | (_, Normal (inl result)) => result
                    | (a, Normal (inr p)) => jsonPathResult c p "" a
                    | (a, Throw e) => jsonPathResult c false (message e) a
                    end) = None ->
             passed (match jsonPathCompare c' v with
                     | (_, Normal (inl result)) => result
                     | (a, Normal (inr p)) => jsonPathResult c' p "" a
                     | (a, Throw e) => jsonPathResult c' false (message e) a
                     end)
             = negb (passed (match jsonPathCompare c v with
                             | (_, Normal (inl result)) => result
                             | (a, Normal (inr p)) => jsonPathResult c p "" a
                             | (a, Throw e) => jsonPathResult c false (message e) a
                             end))).
  { intros v.
    destruct (jsonPathCompare_negated c c' v negation eq_refl) as (a & k & -> & -> & M).
    destruct k as [b | e]; simpl; [reflexivity |].
    intros X. now apply (orUndefined_None e (M e eq_refl)) in X. }
  revert clean. unfold evaluateJsonPathCheck, jsonPathTry.
  change (body response) with (body response).
  destruct (JSON_parse (body response)) as [jsonBody | e] eqn:P.
  - change (j_path c') with path. change (j_path c) with path.
    destruct (extractJsonPath jsonBody path) as [ | | b | x | s | items | fields];
      try apply S.
    change (j_element c) with (Some Any). change (j_element c') with (Some All).
    cbv iota.
    rewrite (mapM_negated
               (fun item => compareValues item (j_operator c) (j_value c))
               (fun item => compareValues item (j_operator c') (j_value c')) items
               (fun item => compareValues_negated item operator contrary expected negation)).
    destruct (mapM (fun item => compareValues item (j_operator c) (j_value c)) items)
      as [results | e] eqn:M; simpl.
    + intros _. apply forallb_negb_existsb.
    + intros X. exfalso. apply mapM_throws in M. destruct M as (item & _ & K).
      apply compareValues_throws in K. now apply (orUndefined_None e K) in X.
  - simpl. intros X. exfalso.
    now apply (orUndefined_None e (JSON_parse_message _ _ P)) in X.
Qed.

(** X4. A key that is missing reads as the text ["undefined"]: when the
    walk along the path reads own properties only, no member that a value
    inherits from its prototype, and gives [undefined], a JSON-path check
    with [exists] fails and with [not_exists] passes, [equals] passes
    exactly when the expected value is the text ["undefined"], and
    [contains] exactly when that text includes the expected one; none
    reports an error. A path such as [tags.values], which reads a method of
    the array, is left out: there the code finds a function. *)
Theorem missing_key_reads_as_undefined
    (check : JsonPathCheck) (response : ResponseData) (jsonBody : value)
    (parsed : JSON_parse (body response) = Normal jsonBody)
    (own : readsOwn jsonBody (pathSegments (j_path check)) = true)
    (missing : extractJsonPath jsonBody (j_path check) = VUndefined) :
  passed (evaluateJsonPathCheck check response)
  = match j_operator check with
    | exists_ => false
    | not_exists => true
    | equals => strictEquals (Some "undefined") (j_value check)
    | not_equals => negb (strictEquals (Some "undefined") (j_value check))
    | contains => includes "undefined" (orEmpty (j_value check))
    | not_contains => negb (includes "undefined" (orEmpty (j_value check)))
    | matches | not_matches =>
        fst (caught (compareValues VUndefined (j_operator check) (j_value check)))
    | greater_than | less_than => false
    end
  /\ actualValue (evaluateJsonPathCheck check response) = VUndefined
  /\ (j_operator check <> matches -> j_operator check <> not_matches ->
      error (evaluateJsonPathCheck check response) = None).
Proof.
  unfold evaluateJsonPathCheck, jsonPathTry. rewrite parsed, missing.
  unfold jsonPathCompare.
  destruct (j_operator check); simpl;
    try (repeat split; intros; try reflexivity; congruence);
    try (destruct (RegExp_new (orEmpty (j_value check))); simpl;
         repeat split; intros; try reflexivity; congruence).
  - destruct (ToNumber (ofOption (j_value check))) as [x | e] eqn:T;
      [| destruct (j_value check); discriminate].
    simpl. rewrite (proj2 (lt_NaN NaN x (or_introl eq_refl))). repeat split.
  - destruct (ToNumber (ofOption (j_value check))) as [x | e] eqn:T;
      [| destruct (j_value check); discriminate].
    simpl. rewrite (proj1 (lt_NaN NaN x (or_introl eq_refl))). repeat split.
Qed.

End ElementProperties.

(** * Further properties of the path extractor *)

Lemma split_cons (sep : ascii) (s : string) :
  exists first rest, split sep s = first :: rest.
Proof.
  induction s as [| c s (first & rest & IH)]; simpl; [eauto |].
  destruct (Ascii.eqb c sep); [eauto |]. rewrite IH. eauto.
Qed.

Lemma split_append (sep : ascii) (a b : string) :
  split sep (a ++ String sep b) = (split sep a ++ split sep b)%list.
Proof.
  induction a as [| c a IH]; simpl.
  - now rewrite Ascii.eqb_refl.
  - destruct (Ascii.eqb c sep); [now rewrite IH |].
    rewrite IH. destruct (split_cons sep a) as (first & rest & ->). reflexivity.
Qed.

Lemma traverse_nullish (current : value) (segment : string) (rest : list string) :
  isNullish current = true -> traverse current (segment :: rest) = VUndefined.
Proof. intros H. simpl. now rewrite H. Qed.

Lemma traverse_undefined (segments : list string) :
  traverse VUndefined segments = VUndefined.
Proof. destruct segments; reflexivity. Qed.

Lemma traverse_append (current : value) (a b : list string) :
  traverse current (a ++ b) = traverse (traverse current a) b.
Proof.
  revert current. induction a as [| segment a IH]; intros current; simpl;
    [reflexivity |].
  destruct (isNullish current); [now rewrite traverse_undefined | apply IH].
Qed.

Lemma removeLeadingDot_cons (c : ascii) (s : string) :
  removeLeadingDot (String c s) = if Ascii.eqb c "." then s else String c s.
Proof. destruct c as [[] [] [] [] [] [] [] []]; reflexivity. Qed.

(** What precedes a character that can neither continue nor close a
    bracketed word is rewritten on its own. *)
Lemma replaceBrackets_append (c : ascii) (r : string) :
  isWordChar c = false -> Ascii.eqb c "]" = false ->
  forall (pre : string) (k : nat),
    (k <= String.length pre)%nat ->
    replaceBrackets k (pre ++ String c r)
    = (replaceBrackets k pre ++ replaceBrackets 0 (String c r))%string.
Proof.
  intros Hw Hc. induction pre as [| x pre IH]; intros k Hk.
  - simpl in Hk. assert (k = 0)%nat as -> by lia. reflexivity.
  - cbn [append]. destruct k as [| k].
    + cbn [replaceBrackets].
      destruct (matchBracket_prefix x pre c r Hw Hc) as [-> Hlen].
      destruct (matchBracket (String x pre)) as [[w len] |] eqn:M.
      * rewrite (IH (Nat.pred len) (Hlen w len eq_refl)).
        cbn [append]. now rewrite append_assoc.
      * rewrite (IH 0%nat (Nat.le_0_l _)). reflexivity.
    + cbn [replaceBrackets]. apply IH. simpl in Hk. lia.
Qed.

Lemma replaceBrackets_nonempty (c : ascii) (s : string) :
  replaceBrackets 0 (String c s) <> "".
Proof.
  cbn [replaceBrackets]. destruct (matchBracket (String c s)) as [[w len] |];
    discriminate.
Qed.

(** The segments of a path that starts a segment of its own. *)
Lemma pathSegments_plain (path : string) :
  startsSegment path = true ->
  pathSegments path = split "." (replaceBrackets 0 path).
Proof.
  destruct path as [| c r]; [reflexivity |]. simpl startsSegment.
  intros H. apply andb_true_iff in H as [H Hb]. apply andb_true_iff in H as [Hd Hp].
  apply negb_true_iff in Hb, Hd, Hp.
  unfold pathSegments. cbn [startsWith]. rewrite Hd. cbn [andb].
  cbn [replaceBrackets]. rewrite (matchBracket_other c r Hb).
  now rewrite removeLeadingDot_cons, Hp.
Qed.

(** The segments of [p.q] are those of [p], then those of [q]. *)
Lemma pathSegments_dot (p q : string) :
  p <> "" -> p <> "$" -> startsSegment q = true ->
  pathSegments (p ++ "." ++ q) = (pathSegments p ++ pathSegments q)%list.
Proof.
  intros Hp Hd Hq. rewrite (pathSegments_plain q Hq).
  assert (N : forall n, n <> "" ->
              split "." (removeLeadingDot (replaceBrackets 0 (n ++ "." ++ q)))
              = (split "." (removeLeadingDot (replaceBrackets 0 n))
                   ++ split "." (replaceBrackets 0 q))%list).
  { intros n Hn. change ("." ++ q)%string with (String "." q).
    rewrite (replaceBrackets_append "." q eq_refl eq_refl n 0 (Nat.le_0_l _)).
    assert (D : replaceBrackets 0 (String "." q) = String "." (replaceBrackets 0 q))
      by (cbn [replaceBrackets]; now rewrite matchBracket_other).
    rewrite D.
    destruct n as [| x n]; [contradiction |].
    pose proof (replaceBrackets_nonempty x n) as NE.
    destruct (replaceBrackets 0 (String x n)) as [| a t]; [contradiction |].
    cbn [append]. rewrite !removeLeadingDot_cons.
    destruct (Ascii.eqb a "."); [apply split_append |].
    change (String a (t ++ String "." (replaceBrackets 0 q)))
      with (String a t ++ String "." (replaceBrackets 0 q))%string.
    apply split_append. }
  destruct p as [| x p]; [contradiction |].
  unfold pathSegments at 1 2. cbn [append startsWith substring1].
  rewrite andb_true_r. destruct (Ascii.eqb_spec x "$") as [-> | _].
  - apply N. intros ->. now apply Hd.
  - apply (N (String x p)). discriminate.
Qed.

(** X5. Paths compose: what [p.q] extracts from a document is what [q]
    extracts from what [p] extracts, for a path [p] other than the empty
    one and ['$'] and a path [q] that starts with none of ['$'], ['.'] and
    ['[']. *)
Theorem extraction_composes
    (doc : value) (p q : string)
    (nonempty : p <> "")
    (notRoot : p <> "$")
    (plain : startsSegment q = true) :
  extractJsonPath doc (p ++ "." ++ q) = extractJsonPath (extractJsonPath doc p) q.
Proof.
  unfold extractJsonPath.
  now rewrite (pathSegments_dot p q nonempty notRoot plain), traverse_append.
Qed.

Lemma weight_positive (v : value) : (0 < weight v)%nat.
Proof. destruct v; simpl; lia. Qed.

Lemma weight_nth (items : list value) (i : nat) :
  (weight (nth i items VUndefined) < weight (VArray items))%nat
  \/ nth i items VUndefined = VUndefined.
Proof.
  revert i. induction items as [| item rest IH]; intros i.
  - right. now destruct i.
  - destruct i as [| i]; [left; simpl; lia |].
    destruct (IH i) as [H | H]; [left | now right].
    simpl in *. lia.
Qed.

Lemma weight_lookup (key : string) (fields : list (string * value)) (v : value) :
  lookup key fields = Some v -> (weight v < weight (VObject fields))%nat.
Proof.
  induction fields as [| [k w] rest IH]; simpl; [discriminate |].
  destruct (String.eqb k key).
  - intros X; inversion X; subst. lia.
  - intros X. specialize (IH X). simpl in IH. lia.
Qed.

(** A property of a value is lighter than the value, or primitive. *)
Lemma Get_below (current : value) (key : string) :
  (weight (Get current key) < weight current)%nat
  \/ isPrimitive (Get current key) = true.
Proof.
  destruct current as [ | | b | x | s | items | fields]; simpl; auto.
  - destruct (indexOfKey key) as [i |].
    + destruct (String.get i s); auto.
    + destruct (String.eqb key "length"); auto.
  - destruct (indexOfKey key) as [i |].
    + destruct (weight_nth items i) as [H | ->]; auto.
    + destruct (String.eqb key "length"); auto.
  - destruct (lookup key fields) as [v |] eqn:L; auto.
    left. exact (weight_lookup key fields v L).
Qed.

Lemma traverse_below (n : nat) (segments : list string) (current : value) :
  (weight current < n)%nat \/ isPrimitive current = true ->
  (weight (traverse current segments) < n)%nat
  \/ isPrimitive (traverse current segments) = true.
Proof.
  revert current. induction segments as [| segment rest IH]; intros current H;
    [exact H |].
  simpl. destruct (isNullish current); [now right |].
  apply IH. destruct (Get_below current segment) as [G | G]; [| now right].
  destruct H as [H | H]; [left; lia |].
  right. destruct current; try discriminate; simpl in *; auto.
  - destruct (indexOfKey segment) as [i |].
    + destruct (String.get i s); reflexivity.
    + destruct (String.eqb segment "length"); reflexivity.
Qed.

(** X6. No path selects the document: what is extracted from an object or
    an array is never that object or array, whatever the path; the path
    ['$'] and the empty path read the property whose name is the empty
    text. *)
Theorem no_path_selects_the_document
    (doc : value) (path : string)
    (structured : isPrimitive doc = false) :
  extractJsonPath doc path <> doc
  /\ extractJsonPath doc "$" = Get doc ""
  /\ extractJsonPath doc "" = Get doc "".
Proof.
  assert (N : isNullish doc = false) by (destruct doc; try discriminate; reflexivity).
  split.
  - unfold extractJsonPath.
    destruct (split_cons "." (removeLeadingDot
                                (replaceBrackets 0
                                   (if startsWith path "$" then substring1 path else path))))
      as (first & rest & S).
    unfold pathSegments. rewrite S. simpl. rewrite N.
    destruct (traverse_below (weight doc) rest (Get doc first)) as [H | H].
    + destruct (Get_below doc first) as [G | G]; [now left | now right].
    + intros E. rewrite E in H. lia.
    + intros E. rewrite E in H. congruence.
  - split; unfold extractJsonPath; simpl; now rewrite N.
Qed.

Section NullDocument.
Context {host : Host}.

(** X7. A body that is the JSON text [null] reads as a missing key: every
    path extracts [undefined] from it, not [null], so that a JSON-path check
    reports [undefined], fails with [exists], passes with [not_exists], and
    with [equals] passes exactly when the expected value is the text
    ["undefined"]. *)
Theorem null_body_reads_as_missing
    (check : JsonPathCheck) (response : ResponseData)
    (parsed : JSON_parse (body response) = Normal VNull) :
  extractJsonPath VNull (j_path check) = VUndefined
  /\ actualValue (evaluateJsonPathCheck check response) = VUndefined
  /\ (j_operator check = exists_ ->
      passed (evaluateJsonPathCheck check response) = false)
  /\ (j_operator check = not_exists ->
      passed (evaluateJsonPathCheck check response) = true)
  /\ (j_operator check = equals ->
      passed (evaluateJsonPathCheck check response)
      = strictEquals (Some "undefined") (j_value check)).
Proof.
  assert (E : extractJsonPath VNull (j_path check) = VUndefined).
  { unfold extractJsonPath.
    destruct (split_cons "." (removeLeadingDot
                                (replaceBrackets 0
                                   (if startsWith (j_path check) "$"
                                    then substring1 (j_path check) else j_path check))))
      as (first & rest & S).
    unfold pathSegments. now rewrite S. }
  split; [exact E |].
  unfold evaluateJsonPathCheck, jsonPathTry. rewrite parsed, E.
  unfold jsonPathCompare.
  split; [| repeat split; intros ->; reflexivity].
  destruct (j_operator check); simpl; try reflexivity;
    try (destruct (RegExp_new (orEmpty (j_value check))); reflexivity);
    destruct (j_value check); reflexivity.
Qed.

End NullDocument.

(** * Further properties of the other checks *)

(** [x < y] excludes [y < x]. *)
Lemma lt_asymmetric (x y : number) : lt x y = true -> lt y x = false.
Proof.
  unfold lt, SFltb, SFcompare.
  destruct x as [sx | sx | | sx mx ex]; destruct y as [sy | sy | | sy my ey];
    try destruct sx; try destruct sy; try discriminate; try reflexivity;
    rewrite (Z.compare_antisym ex ey);
    change (PosDef.Pos.compare_cont Eq my mx) with (Pos.compare my mx);
    change (PosDef.Pos.compare_cont Eq mx my) with (Pos.compare mx my);
    rewrite (Pos.compare_antisym mx my);
    destruct (ex ?= ey)%Z; simpl; try discriminate; try reflexivity;
    destruct (mx ?= my)%positive; simpl; try discriminate; reflexivity.
Qed.

Lemma lt_irreflexive (x : number) : lt x x = false.
Proof.
  destruct (lt x x) eqn:E; [| reflexivity].
  now rewrite (lt_asymmetric x x E) in E.
Qed.

(** X8. A response-time check has no tolerance: for one threshold,
    [less_than] and [greater_than] never both pass, both fail when the
    response time is the threshold itself, and both fail when the threshold
    is no number; the check reports no error. *)
Theorem response_time_checks_exclude_each_other
    (threshold : number) (response : ResponseData) :
  let less :=
    evaluateResponseTimeCheck
      {| rt_operator := rt_less_than; rt_value := threshold |} response in
  let greater :=
    evaluateResponseTimeCheck
      {| rt_operator := rt_greater_than; rt_value := threshold |} response in
  passed less && passed greater = false
  /\ (responseTime response = threshold ->
      passed less = false /\ passed greater = false)
  /\ (threshold = NaN -> passed less = false /\ passed greater = false)
  /\ error less = None /\ error greater = None.
Proof.
  simpl.
  change (gt (responseTime response) threshold)
    with (lt threshold (responseTime response)).
  split; [| split; [| split; [| split; reflexivity]]].
  - destruct (lt (responseTime response) threshold) eqn:L; [| reflexivity].
    now rewrite (lt_asymmetric _ _ L).
  - intros ->. split; apply lt_irreflexive.
  - intros ->. split.
    + exact (proj1 (lt_NaN (responseTime response) NaN (or_intror eq_refl))).
    + exact (proj1 (lt_NaN NaN (responseTime response) (or_introl eq_refl))).
Qed.

Lemma toLowerChar_idempotent (c : ascii) : toLowerChar (toLowerChar c) = toLowerChar c.
Proof. destruct c as [[] [] [] [] [] [] [] []]; vm_compute; reflexivity. Qed.

Lemma toLowerCase_idempotent (s : string) : toLowerCase (toLowerCase s) = toLowerCase s.
Proof.
  induction s as [| c s IH]; simpl; [reflexivity |].
  now rewrite toLowerChar_idempotent, IH.
Qed.

Lemma findHeader_lowercased (headerName : string) (entries : list (string * string)) :
  findHeader headerName (map (fun entry => (toLowerCase (fst entry), snd entry)) entries)
  = findHeader headerName entries.
Proof.
  induction entries as [| [k v] rest IH]; simpl; [reflexivity |].
  now rewrite toLowerCase_idempotent, IH.
Qed.

Lemma substring0_length (n : nat) (s : string) :
  String.length (substring0 n s) = Nat.min n (String.length s).
Proof.
  unfold substring0. revert s. induction n as [| n IH]; intros s.
  - now destruct s.
  - destruct s as [| c s]; simpl; [reflexivity |]. now rewrite IH.
Qed.

Lemma substring0_all (n : nat) (s : string) :
  (String.length s <= n)%nat -> substring0 n s = s.
Proof.
  unfold substring0. revert s. induction n as [| n IH]; intros s H.
  - destruct s; [reflexivity | simpl in H; lia].
  - destruct s as [| c s]; simpl; [reflexivity |].
    rewrite IH; [reflexivity | simpl in H; lia].
Qed.

Lemma substring0_append (n : nat) (s t : string) :
  (n <= String.length s)%nat -> substring0 n (s ++ t) = substring0 n s.
Proof.
  unfold substring0. revert s. induction n as [| n IH]; intros s H.
  - destruct s; destruct t; reflexivity.
  - destruct s as [| c s]; simpl in *; [lia |].
    rewrite IH; [reflexivity | lia].
Qed.

(** What [truncate] keeps: a text within the limit is left as it is; a
    longer one is cut to the limit and three dots, and starts as before. *)
Lemma truncate_bounds (limit : nat) (text : string) :
  (String.length (truncate limit text) <= limit + 3)%nat
  /\ (String.length text <= limit -> truncate limit text = text)%nat
  /\ (limit < String.length text ->
      String.length (truncate limit text) = limit + 3)%nat
  /\ substring0 limit (truncate limit text) = substring0 limit text.
Proof.
  unfold truncate. destruct (Nat.ltb_spec limit (String.length text)) as [L | L].
  - pose proof (substring0_length limit text) as S.
    rewrite Nat.min_l in S by lia.
    rewrite append_length, S. simpl. repeat split; try lia.
    rewrite substring0_append by lia.
    apply substring0_all. lia.
  - repeat split; try lia.
Qed.

Section ReportProperties.
Context {host : Host}.

(** X9. The name of a header counts without its letter case, in the check
    and in the response: a header check gives the same verdict, error and
    reported value for a name that differs in letter case only, and on the
    response whose header names are put in lower case. *)
Theorem header_check_ignores_letter_case
    (name name' : string) (operator : ComparisonOperator) (expected : option string)
    (response : ResponseData)
    (sameName : toLowerCase name = toLowerCase name') :
  let lowered :=
    {| statusCode := statusCode response;
       headers := map (fun entry => (toLowerCase (fst entry), snd entry))
                      (headers response);
       body := body response;
       responseTime := responseTime response |} in
  let result :=
    evaluateHeaderCheck
      {| h_name := name; h_operator := operator; h_value := expected |} response in
  let result' :=
    evaluateHeaderCheck
      {| h_name := name'; h_operator := operator; h_value := expected |} lowered in
  passed result' = passed result
  /\ error result' = error result
  /\ actualValue result' = actualValue result.
Proof.
  simpl. unfold evaluateHeaderCheck. simpl.
  rewrite <- sameName, findHeader_lowercased.
  unfold headerTry. simpl.
  destruct (caught _). repeat split.
Qed.

(** X10. What is reported of a body is bounded: the [actualValue] of a body
    check has at most 103 characters and the body stored on the result of a
    probe at most 1027; a body of at most 100 characters, or 1024, is
    reported whole, and a longer one by its first 100, or 1024, characters
    and three dots. *)
Theorem reported_body_is_bounded
    (check : BodyCheck) (reply : ResponseData)
    (config : Config) (urlConfig : UrlConfig) (run : Run) (res : HttpResponse)
    (transported : response run = Normal res) :
  (exists reported,
      actualValue (evaluateBodyCheck check reply) = VString reported
      /\ (String.length reported <= 103)%nat
      /\ (String.length (body reply) <= 100 -> reported = body reply)%nat
      /\ (100 < String.length (body reply) ->
          reported = substring0 100 (body reply) ++ "...")%nat)
  /\ (exists stored,
        r_body (checkUrl config urlConfig run) = Some stored
        /\ (String.length stored <= 1027)%nat
        /\ (String.length (res_body res) <= 1024 -> stored = res_body res)%nat
        /\ (1024 < String.length (res_body res) ->
            stored = substring0 1024 (res_body res) ++ "...")%nat).
Proof.
  split.
  - exists (truncate 100 (body reply)).
    destruct (truncate_bounds 100 (body reply)) as (B & S & _ & _).
    split; [unfold evaluateBodyCheck; destruct (caught _); reflexivity |].
    split; [exact B |]. split; [exact S |].
    intros L. unfold truncate.
    destruct (Nat.ltb_spec 100 (String.length (body reply))); [reflexivity | lia].
  - exists (truncate 1024 (res_body res)).
    destruct (truncate_bounds 1024 (res_body res)) as (B & S & _ & _).
    destruct (checkUrl_transported config urlConfig run res transported) as (_ & _ & R).
    split; [exact R |]. split; [exact B |]. split; [exact S |].
    intros L. unfold truncate.
    destruct (Nat.ltb_spec 1024 (String.length (res_body res))); [reflexivity | lia].
Qed.

End ReportProperties.

(** * Further properties of the probe *)

Lemma sameNumber_eq (x y : number) : sameNumber x y = true -> x = y.
Proof.
  destruct x as [s | s | | s m e]; destruct y as [s' | s' | | s' m' e'];
    simpl; try discriminate; try reflexivity.
  - intros H. apply Bool.eqb_prop in H. now subst.
  - intros H. apply Bool.eqb_prop in H. now subst.
  - intros H. apply andb_true_iff in H as [H He]. apply andb_true_iff in H as [Hs Hm].
    apply Bool.eqb_prop in Hs. apply Pos.eqb_eq in Hm. apply Z.eqb_eq in He.
    now subst.
Qed.

(** Every code from 0 to 999 is written without ['|'] and read back. *)
Lemma codes_read_back (z : Z) :
  (0 <= z < 1000)%Z ->
  forallChars (fun c => negb (Ascii.eqb c "|")) (toString (ofZ z)) = true
  /\ parseInt (trim (toString (ofZ z))) = ofZ z.
Proof.
  intros H.
  assert (A : forallb readsBack (seq 0 1000) = true) by (vm_compute; reflexivity).
  rewrite forallb_forall in A.
  specialize (A (Z.to_nat z)).
  unfold readsBack in A. rewrite Z2Nat.id in A by lia.
  assert (I : In (Z.to_nat z) (seq 0 1000)) by (apply in_seq; lia).
  apply A in I. apply andb_true_iff in I as [F S].
  split; [exact F | now apply sameNumber_eq].
Qed.

Lemma split_free (sep : ascii) (s : string) :
  forallChars (fun c => negb (Ascii.eqb c sep)) s = true -> split sep s = [s].
Proof.
  induction s as [| c s IH]; simpl; [reflexivity |].
  intros H. apply andb_true_iff in H as [Hc Hs]. apply negb_true_iff in Hc.
  now rewrite Hc, (IH Hs).
Qed.

(** Splitting what was joined gives the parts back, when there is a part
    and no part holds the separator. *)
Lemma split_join (sep : ascii) (parts : list string) :
  parts <> [] ->
  Forall (fun part => forallChars (fun c => negb (Ascii.eqb c sep)) part = true) parts ->
  split sep (join (String sep "") parts) = parts.
Proof.
  intros NE F. induction F as [| part rest Hpart Hrest IH]; [contradiction |].
  destruct rest as [| next rest].
  - simpl. now apply split_free.
  - unfold join in *.
    change (String.concat (String sep "") (part :: next :: rest))
      with (part ++ String sep (String.concat (String sep "") (next :: rest)))%string.
    rewrite split_append, (split_free sep part Hpart), IH by discriminate.
    reflexivity.
Qed.

Lemma SameValueZero_NaN (x : number) : x <> NaN -> SameValueZero NaN x = false.
Proof. destruct x; try reflexivity. intros H. now contradiction H. Qed.

Section DefaultCheckProperties.
Context {host : Host}.

(** The check made of success codes between 0 and 999 passes exactly when
    the status code is one of them. *)
Lemma default_check_includes (codes : list number) (reply : ResponseData) :
  Forall (fun code => exists z, (0 <= z < 1000)%Z /\ code = ofZ z) codes ->
  statusCode reply <> NaN ->
  passed (evaluateStatusCodeCheck
            {| sc_operator := sc_equals;
               sc_value := join "|" (map toString codes) |} reply)
  = existsb (fun code => SameValueZero code (statusCode reply)) codes.
Proof.
  intros F Real. rewrite status_code_equals_includes.
  destruct codes as [| code rest].
  - transitivity (SameValueZero NaN (statusCode reply) || false); [reflexivity |].
    now rewrite (SameValueZero_NaN _ Real).
  - rewrite split_join.
    + induction F as [| c l (z & Hz & ->) _ IH]; [reflexivity |].
      cbn [map existsb]. rewrite (proj2 (codes_read_back z Hz)).
      f_equal. destruct l; [reflexivity | apply IH].
    + discriminate.
    + induction F as [| c l (z & Hz & ->) _ IH]; constructor; [| exact IH].
      exact (proj1 (codes_read_back z Hz)).
Qed.

(** The result of a probe, after the request has succeeded. *)
Lemma checkUrl_transported_result (config : Config) (urlConfig : UrlConfig)
    (run : Run) (res : HttpResponse) :
  response run = Normal res ->
  let results :=
    evaluateChecks (effectiveChecks config urlConfig)
      {| statusCode := res_statusCode res;
         headers := res_headers res;
         body := res_body res;
         responseTime := sub (settledTime run) (startTime run) |} in
  exists texts,
    mapM failedCheckText (filter (fun result => negb (passed result)) results)
    = Normal texts
    /\ checkUrl config urlConfig run
       = {| r_url := url urlConfig;
            r_name := name urlConfig;
            r_success := forallb passed results;
            r_statusCode := Some (res_statusCode res);
            r_headers := Some (res_headers res);
            r_body := Some (truncate 1024 (res_body res));
            r_error :=
              if forallb passed results then None else Some (join "; " texts);
            r_responseTime := sub (settledTime run) (startTime run);
            r_timestamp := timestamp run;
            r_checkResults := Some results |}.
Proof.
  intros T results.
  destruct (failedCheckText_normal
              (filter (fun result => negb (passed result)) results)) as [texts M].
  - intros result Hin. apply filter_In in Hin as [Hin _].
    unfold results, evaluateChecks in Hin.
    apply in_map_iff in Hin as (check & <- & _). apply evaluateCheck_primitive.
  - exists texts. split; [exact M |].
    unfold checkUrl, checkUrlTry. rewrite T. simpl. fold results.
    destruct (forallb passed results); simpl; [reflexivity |].
    now rewrite M.
Qed.

(** X11. A probe reports an error exactly when it fails. When the request
    fails, the result carries its message and neither status code, headers,
    body nor check results; when the request succeeds, the result carries
    the results of the checks, and an error, made of one text for each
    failed check, if and only if one of them failed. *)
Theorem probe_reports_error_iff_it_fails
    (config : Config) (urlConfig : UrlConfig) (run : Run) :
  let result := checkUrl config urlConfig run in
  (r_success result = true <-> r_error result = None)
  /\ (r_checkResults result = None <-> exists e, response run = Throw e)
  /\ (forall e, response run = Throw e ->
        r_success result = false /\ r_error result = Some (message e)
        /\ r_statusCode result = None /\ r_headers result = None
        /\ r_body result = None)
  /\ (forall results, r_checkResults result = Some results ->
        r_success result = forallb passed results
        /\ exists texts,
             List.length texts
             = List.length (filter (fun check => negb (passed check)) results)
             /\ r_error result
                = if r_success result then None else Some (join "; " texts)).
Proof.
  simpl. destruct (response run) as [res | e] eqn:T.
  - destruct (checkUrl_transported_result config urlConfig run res T)
      as (texts & M & ->).
    simpl.
    split; [| split; [| split]].
    + destruct (forallb passed _); split; try reflexivity; discriminate.
    + split; [discriminate | intros (e & X); discriminate].
    + intros e X. discriminate.
    + intros results X. inversion X; subst. split; [reflexivity |].
      exists texts. split; [| reflexivity].
      clear - M. revert texts M.
      induction (filter _ _) as [| r l IH]; intros texts M; simpl in M.
      * now inversion M.
      * destruct (failedCheckText r); simpl in M; [| discriminate].
        destruct (mapM failedCheckText l); simpl in M; [| discriminate].
        inversion M. simpl. f_equal. now apply IH.
  - unfold checkUrl, checkUrlTry. rewrite T. simpl.
    split; [| split; [| split]].
    + split; discriminate.
    + split; [eauto | reflexivity].
    + intros e' X. inversion X; subst. repeat split.
    + intros results X. discriminate.
Qed.

(** The verdict of a probe without checks. *)
Lemma checkUrl_without_checks
    (config : Config) (urlConfig : UrlConfig) (run : Run) (res : HttpResponse)
    (transported : response run = Normal res)
    (noChecks : checks urlConfig = None \/ checks urlConfig = Some [])
    (threeDigits : Forall (fun code => exists z, (0 <= z < 1000)%Z /\ code = ofZ z)
                     (effectiveSuccessCodes config urlConfig))
    (real : res_statusCode res <> NaN) :
  r_success (checkUrl config urlConfig run)
  = existsb (fun code => SameValueZero code (res_statusCode res))
      (effectiveSuccessCodes config urlConfig).
Proof.
  destruct (checkUrl_transported config urlConfig run res transported) as (_ & S & _).
  simpl in S. rewrite S.
  assert (E : effectiveChecks config urlConfig
              = [OfStatusCode
                   {| sc_operator := sc_equals;
                      sc_value := join "|" (map toString
                                              (effectiveSuccessCodes config urlConfig)) |}]).
  { unfold effectiveChecks. destruct noChecks as [-> | ->]; reflexivity. }
  rewrite E. cbn [evaluateChecks map forallb evaluateCheck]. rewrite andb_true_r.
  now rewrite default_check_includes.
Qed.

(** X12. Without checks, a probe succeeds exactly when the status code is
    one of the success codes: for success codes that are integers from 0 to
    999 and a status code that is a number, the result of the probe, with no
    checks or an empty list of them, succeeds if and only if the status code
    is among the success codes of the probe, else of the configuration, else
    is 200. *)
Theorem default_probe_succeeds_on_success_codes
    (config : Config) (urlConfig : UrlConfig) (run : Run) (res : HttpResponse)
    (transported : response run = Normal res)
    (noChecks : checks urlConfig = None \/ checks urlConfig = Some [])
    (threeDigits : Forall (fun code => exists z, (0 <= z < 1000)%Z /\ code = ofZ z)
                     (effectiveSuccessCodes config urlConfig))
    (real : res_statusCode res <> NaN) :
  r_success (checkUrl config urlConfig run)
  = existsb (fun code => SameValueZero code (res_statusCode res))
      (effectiveSuccessCodes config urlConfig).
Proof.
  exact (checkUrl_without_checks config urlConfig run res transported noChecks
           threeDigits real).
Qed.

End DefaultCheckProperties.

(** * The logger and the request *)

(** X14. The logger reads the level [error] as the level [info]: a logger
    whose level is [error] logs what a logger at [info] logs, a message at
    level [error] is logged when a message at [info] is, and the logger that
    [checkUrls] gives the loader of the configuration logs at [info] whether
    logging is asked for or not. So a logger at [warn] drops the errors, and
    a logger at [error] logs the warnings. *)
Theorem error_level_is_read_as_info (name : string) (log : option bool) :
  shouldLog "error" name = shouldLog "info" name
  /\ shouldLog name "error" = shouldLog name "info"
  /\ shouldLog (loaderLevel log) name = shouldLog "info" name
  /\ shouldLog "warn" "error" = Some false
  /\ shouldLog "error" "warn" = Some true.
Proof.
  assert (E : levelOf "error" = levelOf "info") by reflexivity.
  unfold shouldLog. rewrite E.
  split; [reflexivity |]. split; [reflexivity |].
  split; [| split; reflexivity].
  destruct log as [[|] |]; simpl loaderLevel; now rewrite ?E.
Qed.

Lemma getOwn_replaceOwn_same {A : Type} (key : string) (v : A)
    (fields : list (string * A)) :
  getOwn key fields <> None -> getOwn key (replaceOwn key v fields) = Some v.
Proof.
  induction fields as [| [k x] rest IH]; simpl; [congruence |].
  destruct (String.eqb k key) eqn:E; simpl; rewrite E; [reflexivity | exact IH].
Qed.

Lemma getOwn_replaceOwn_other {A : Type} (key key' : string) (v : A)
    (fields : list (string * A)) :
  key' <> key -> getOwn key' (replaceOwn key v fields) = getOwn key' fields.
Proof.
  intros N. induction fields as [| [k x] rest IH]; simpl; [reflexivity |].
  destruct (String.eqb k key) eqn:E; simpl.
  - apply String.eqb_eq in E. subst k.
    destruct (String.eqb key key') eqn:E'; [| reflexivity].
    apply String.eqb_eq in E'. congruence.
  - destruct (String.eqb k key'); [reflexivity | exact IH].
Qed.

Lemma getOwn_insertIndex_same {A : Type} (i : Z) (key : string) (v : A)
    (fields : list (string * A)) :
  getOwn key fields = None -> getOwn key (insertIndex i key v fields) = Some v.
Proof.
  induction fields as [| [k x] rest IH]; simpl.
  - now rewrite String.eqb_refl.
  - destruct (String.eqb k key) eqn:E; [discriminate |]. intros G.
    destruct (arrayIndex k) as [j |]; [destruct (j <? i)%Z |]; simpl;
      rewrite ?E, ?String.eqb_refl; auto.
Qed.

Lemma getOwn_insertIndex_other {A : Type} (i : Z) (key key' : string) (v : A)
    (fields : list (string * A)) :
  key' <> key -> getOwn key' (insertIndex i key v fields) = getOwn key' fields.
Proof.
  intros N.
  assert (E : String.eqb key key' = false)
    by (apply String.eqb_neq; congruence).
  induction fields as [| [k x] rest IH]; simpl.
  - now rewrite E.
  - destruct (arrayIndex k) as [j |]; [destruct (j <? i)%Z |]; simpl;
      rewrite ?E; try reflexivity.
    now rewrite IH.
Qed.

Lemma getOwn_append {A : Type} (key : string) (fields more : list (string * A)) :
  getOwn key (fields ++ more)
  = match getOwn key fields with
    | Some v => Some v
    | None => getOwn key more
    end.
Proof.
  induction fields as [| [k x] rest IH]; simpl; [reflexivity |].
  destruct (String.eqb k key); [reflexivity | exact IH].
Qed.

(** A property that has been set is read back. *)
Lemma getOwn_setOwn_same {A : Type} (key : string) (v : A)
    (fields : list (string * A)) :
  getOwn key (setOwn key v fields) = Some v.
Proof.
  unfold setOwn. destruct (getOwn key fields) eqn:G.
  - apply getOwn_replaceOwn_same. congruence.
  - destruct (arrayIndex key).
    + now apply getOwn_insertIndex_same.
    + rewrite getOwn_append, G. simpl. now rewrite String.eqb_refl.
Qed.

(** Setting a property leaves the others as they are. *)
Lemma getOwn_setOwn_other {A : Type} (key key' : string) (v : A)
    (fields : list (string * A)) :
  key' <> key -> getOwn key' (setOwn key v fields) = getOwn key' fields.
Proof.
  intros N. unfold setOwn. destruct (getOwn key fields).
  - now apply getOwn_replaceOwn_other.
  - destruct (arrayIndex key).
    + now apply getOwn_insertIndex_other.
    + rewrite getOwn_append. destruct (getOwn key' fields); [reflexivity |].
      simpl. destruct (String.eqb key key') eqn:E; [| reflexivity].
      apply String.eqb_eq in E. congruence.
Qed.

Lemma effectiveTimeout_truthy (config : Config) (urlConfig : UrlConfig) :
  isFalsyNumber (effectiveTimeout config urlConfig) = false.
Proof.
  unfold effectiveTimeout.
  destruct (timeout urlConfig) as [t |]; [destruct (isFalsyNumber t) eqn:T |];
    try exact T;
    (destruct (globalTimeout config) as [g |];
     [destruct (isFalsyNumber g) eqn:G; [reflexivity | exact G] | reflexivity]).
Qed.

Section RequestProperties.
Variable URL_new : string -> completion ParsedUrl.

(** X15. The request of a probe: when [makeRequest] sends a request, the
    same request is sent when the probe is made again, from the probe as the
    first call left it, although the first call may have added a header to
    the probe. Every header of the probe other than [content-type] is sent
    as it is; a probe with a body and a content type sends a [content-type]
    header; a body is written only when the method is neither [GET] nor
    [HEAD], and is then the body of the probe; and the timeout is never 0
    nor NaN. *)
Theorem request_is_rebuilt_unchanged
    (config : Config) (urlConfig after : UrlConfig) (request : Request)
    (built : makeRequest URL_new urlConfig (effectiveTimeout config urlConfig)
             = Normal (request, after)) :
  makeRequest URL_new after (effectiveTimeout config after) = Normal (request, after)
  /\ (forall key, key <> "content-type" ->
        getOwn key (o_headers (q_options request))
        = getOwn key (match requestHeaders urlConfig with
                      | Some sent => sent
                      | None => []
                      end))
  /\ (isTruthyText (requestBody urlConfig) = true ->
      isTruthyText (contentType urlConfig) = true ->
      isTruthyText (getOwn "content-type" (o_headers (q_options request))) = true)
  /\ (forall text, q_written request = Some text ->
        requestBody urlConfig = Some text /\ text <> ""
        /\ o_method (q_options request) <> "GET"
        /\ o_method (q_options request) <> "HEAD")
  /\ o_method (q_options request) <> ""
  /\ isFalsyNumber (o_timeout (q_options request)) = false.
Proof.
  unfold makeRequest in built.
  destruct (URL_new (url urlConfig)) as [parsedUrl |] eqn:U; [| discriminate].
  cbn [bind] in built.
  set (sent := match requestHeaders urlConfig with Some h => h | None => [] end) in *.
  set (adds := isTruthyText (requestBody urlConfig)
               && isTruthyText (contentType urlConfig)
               && negb (isTruthyText (getOwn "content-type" sent))) in *.
  set (sent' := if adds then setOwn "content-type" (orEmpty (contentType urlConfig)) sent
                else sent) in *.
  set (verb := match method urlConfig with
               | Some (String c rest) => String c rest
               | _ => "GET"
               end) in *.
  inversion built as [[R L]]. clear built.
  cbn [q_options q_written o_headers o_method o_timeout].
  assert (T : isTruthyText (requestBody urlConfig) = true ->
              isTruthyText (contentType urlConfig) = true ->
              isTruthyText (getOwn "content-type" sent') = true).
  { intros B C. unfold sent', adds. rewrite B, C. simpl.
    destruct (isTruthyText (getOwn "content-type" sent)) eqn:G; simpl; [exact G |].
    rewrite getOwn_setOwn_same.
    destruct (contentType urlConfig) as [[| c rest] |]; try discriminate; reflexivity. }
  split; [| split; [| split; [| split; [| split]]]].
  - unfold makeRequest.
    destruct (requestHeaders urlConfig) as [h |] eqn:H.
    + cbn [url requestHeaders requestBody contentType method].
      rewrite U. cbn [bind]. fold verb.
      assert (X : (if isTruthyText (requestBody urlConfig)
                      && isTruthyText (contentType urlConfig)
                      && negb (isTruthyText (getOwn "content-type" sent'))
                   then setOwn "content-type" (orEmpty (contentType urlConfig)) sent'
                   else sent') = sent').
      { destruct (isTruthyText (requestBody urlConfig)) eqn:B;
          destruct (isTruthyText (contentType urlConfig)) eqn:C; try reflexivity.
        now rewrite (T eq_refl eq_refl). }
      rewrite X. reflexivity.
    + rewrite U, H. cbn [bind]. fold sent adds sent' verb. reflexivity.
  - intros key N. unfold sent'.
    destruct adds; [now apply getOwn_setOwn_other | reflexivity].
  - exact T.
  - intros text W.
    destruct (requestBody urlConfig) as [[| c rest] |] eqn:B;
      cbn [isTruthyText andb] in W; try discriminate.
    destruct (String.eqb verb "GET") eqn:G; destruct (String.eqb verb "HEAD") eqn:Hd;
      simpl in W; try discriminate.
    inversion W; subst text. split; [reflexivity |]. split; [discriminate |].
    split; intros Y; rewrite Y in *; discriminate.
  - unfold verb. destruct (method urlConfig) as [[| c rest] |]; discriminate.
  - apply effectiveTimeout_truthy.
Qed.

End RequestProperties.

(** * The loader of the configuration *)

Lemma lookup_getOwn (key : string) (fields : list (string * value)) :
  lookup key fields = getOwn key fields.
Proof. induction fields as [| [k v] rest IH]; simpl; [reflexivity | now rewrite IH]. Qed.

Lemma Get_object (key : string) (fields : list (string * value)) :
  Get (VObject fields) key
  = match getOwn key fields with Some v => v | None => VUndefined end.
Proof. simpl. now rewrite lookup_getOwn. Qed.

Lemma Get_setOwn_same (key : string) (v : value) (fields : list (string * value)) :
  Get (VObject (setOwn key v fields)) key = v.
Proof. now rewrite Get_object, getOwn_setOwn_same. Qed.

Lemma Get_setOwn_other (key key' : string) (v : value)
    (fields : list (string * value)) :
  key' <> key ->
  Get (VObject (setOwn key v fields)) key' = Get (VObject fields) key'.
Proof. intros N. now rewrite !Get_object, getOwn_setOwn_other. Qed.

Lemma replaceOwn_present {A : Type} (key : string) (v : A)
    (fields : list (string * A)) :
  getOwn key fields = Some v -> replaceOwn key v fields = fields.
Proof.
  induction fields as [| [k x] rest IH]; simpl; [reflexivity |].
  destruct (String.eqb k key) eqn:E.
  - intros H. inversion H. apply String.eqb_eq in E. reflexivity.
  - intros H. now rewrite IH.
Qed.

(** Setting a property to the value it has changes nothing. *)
Lemma setOwn_present {A : Type} (key : string) (v : A) (fields : list (string * A)) :
  getOwn key fields = Some v -> setOwn key v fields = fields.
Proof.
  intros H. unfold setOwn. rewrite H. now apply replaceOwn_present.
Qed.

Lemma setOwn_truthy (key : string) (fields : list (string * value)) :
  isTruthy (Get (VObject fields) key) = true ->
  setOwn key (Get (VObject fields) key) fields = fields.
Proof.
  intros T. apply setOwn_present. rewrite Get_object in *.
  destruct (getOwn key fields); [reflexivity | discriminate].
Qed.

Lemma Get_url_object (v : value) :
  isTruthy (Get v "url") = true -> exists fields, v = VObject fields.
Proof. destruct v; try discriminate; eauto. Qed.

Lemma Get_urls_object (v : value) (urls : list value) :
  Get v "urls" = VArray urls -> exists fields, v = VObject fields.
Proof. destruct v; try discriminate; eauto. Qed.

Lemma orElse_truthy (v other : value) :
  isTruthy other = true -> isTruthy (orElse v other) = true.
Proof. unfold orElse. destruct (isTruthy v) eqn:T; auto. Qed.

Lemma orElse_idempotent (v other : value) :
  isTruthy other = true -> orElse (orElse v other) other = orElse v other.
Proof.
  intros T. unfold orElse at 1. now rewrite orElse_truthy.
Qed.

Section LoaderProperties.
Context {host : Host}.
Variable URL_new : string -> completion ParsedUrl.

(** What [validateUrlConfig] has checked when it returns. *)
Lemma validateUrlConfig_returned (urlConfig urlConfig' : value) (index : nat) :
  validateUrlConfig URL_new urlConfig index = Returned urlConfig' ->
  exists fields text parsed,
    urlConfig = VObject fields
    /\ isTruthy (Get urlConfig "url") = true
    /\ ToString (Get urlConfig "url") = Normal text
    /\ URL_new text = Normal parsed
    /\ urlConfig'
       = if isTruthy (Get urlConfig "name") then urlConfig
         else VObject (setOwn "name"
                         (VString ("URL " ++ toString (ofZ (Z.of_nat index + 1))))
                         fields).
Proof.
  unfold validateUrlConfig.
  destruct (isNullish urlConfig); [discriminate |].
  destruct (isTruthy (Get urlConfig "url")) eqn:U; [| discriminate].
  cbn [negb].
  destruct (Get_url_object urlConfig U) as [fields ->].
  destruct (ToString (Get (VObject fields) "url")) as [text |] eqn:S;
    cbn [bind]; [| discriminate].
  destruct (URL_new text) as [parsed |] eqn:P; [| discriminate].
  intros R. exists fields, text, parsed.
  repeat (split; [reflexivity || assumption |]).
  destruct (isTruthy (Get (VObject fields) "name")); cbn [negb] in R;
    now inversion R.
Qed.

Lemma validateUrlConfig_idempotent (urlConfig urlConfig' : value) (index : nat) :
  validateUrlConfig URL_new urlConfig index = Returned urlConfig' ->
  validateUrlConfig URL_new urlConfig' index = Returned urlConfig'.
Proof.
  intros R.
  destruct (validateUrlConfig_returned _ _ _ R)
    as (fields & text & parsed & -> & U & S & P & ->).
  destruct (isTruthy (Get (VObject fields) "name")) eqn:N; [exact R |].
  unfold validateUrlConfig. cbn [isNullish].
  rewrite Get_setOwn_other by discriminate. rewrite U, S. cbn [negb bind].
  rewrite P, Get_setOwn_same. reflexivity.
Qed.

Lemma validateEach_returned (urls urls' : list value) (first : nat) :
  validateEach URL_new urls first = Returned urls' ->
  List.length urls' = List.length urls
  /\ validateEach URL_new urls' first = Returned urls'
  /\ forall i urlConfig, nth_error urls i = Some urlConfig ->
       exists urlConfig' text parsed,
         nth_error urls' i = Some urlConfig'
         /\ isTruthy (Get urlConfig "url") = true
         /\ ToString (Get urlConfig "url") = Normal text
         /\ URL_new text = Normal parsed
         /\ Get urlConfig' "url" = Get urlConfig "url"
         /\ Get urlConfig' "name" = nameAt urlConfig (first + i)
         /\ (isTruthy (Get urlConfig "name") = true -> urlConfig' = urlConfig).
Proof.
  revert urls' first. induction urls as [| urlConfig rest IH]; intros urls' first R.
  - inversion R. split; [reflexivity |]. split; [reflexivity |].
    intros [| i] u X; discriminate.
  - cbn [validateEach] in R.
    destruct (validateUrlConfig URL_new urlConfig first) as [urlConfig' |] eqn:V;
      [| discriminate].
    destruct (validateEach URL_new rest (S first)) as [rest' |] eqn:E; [| discriminate].
    inversion R; subst urls'. clear R.
    destruct (IH rest' (S first) E) as (L & I & N).
    split; [simpl; now rewrite L |]. split.
    + cbn [validateEach]. now rewrite (validateUrlConfig_idempotent _ _ _ V), I.
    + intros [| i] u X.
      * inversion X; subst u.
        destruct (validateUrlConfig_returned _ _ _ V)
          as (fields & text & parsed & -> & U & S & P & ->).
        exists (if isTruthy (Get (VObject fields) "name") then VObject fields
                else VObject (setOwn "name"
                                (VString ("URL " ++ toString (ofZ (Z.of_nat first + 1))))
                                fields)), text, parsed.
        split; [reflexivity |]. split; [exact U |]. split; [exact S |].
        split; [exact P |].
        unfold nameAt, orElse. rewrite Nat.add_0_r.
        destruct (isTruthy (Get (VObject fields) "name")) eqn:T.
        -- repeat split; reflexivity.
        -- split; [now rewrite Get_setOwn_other by discriminate |].
           split; [now rewrite Get_setOwn_same | discriminate].
      * destruct (N i u X) as (u' & text & parsed & X' & rest_).
        exists u', text, parsed. split; [exact X' |].
        replace (first + S i)%nat with (S first + i)%nat by lia. exact rest_.
Qed.

(** The fields of a validated configuration. *)
Lemma validateConfig_returned (config validated : value) :
  validateConfig URL_new config = Returned validated ->
  exists fields urls urls',
    config = VObject fields
    /\ Get config "urls" = VArray urls
    /\ urls <> []
    /\ validateEach URL_new urls 0 = Returned urls'
    /\ validated
       = VObject
           (setOwn "logLevel"
              (orElse (Get config "logLevel") (VString "info"))
              (setOwn "globalSuccessCodes"
                 (orElse (Get config "globalSuccessCodes")
                    (VArray [VNumber (ofZ 200)]))
                 (setOwn "globalTimeout"
                    (orElse (Get config "globalTimeout") (VNumber (ofZ 5000)))
                    (setOwn "urls" (VArray urls') fields)))).
Proof.
  unfold validateConfig. destruct (isNullish config); [discriminate |].
  destruct (Get config "urls") as [| | | | | urls |] eqn:G; try discriminate.
  destruct (Get_urls_object _ _ G) as [fields ->].
  destruct urls as [| urlConfig rest]; [discriminate |].
  destruct (validateEach URL_new (urlConfig :: rest) 0) as [urls' |] eqn:E;
    [| discriminate].
  intros R. exists fields, (urlConfig :: rest), urls'.
  split; [reflexivity |]. split; [reflexivity |]. split; [discriminate |].
  split; [exact E |].
  assert (X : forall a b : value, Returned a = Returned b -> b = a)
    by (intros a b H; now inversion H).
  apply X in R. rewrite R.
  rewrite !Get_setOwn_other by discriminate. reflexivity.
Qed.

Lemma validateConfig_object (fields : list (string * value)) (urls urls' : list value) :
  Get (VObject fields) "urls" = VArray urls ->
  urls <> [] ->
  validateEach URL_new urls 0 = Returned urls' ->
  validateConfig URL_new (VObject fields)
  = Returned
      (VObject
         (setOwn "logLevel"
            (orElse (Get (VObject fields) "logLevel") (VString "info"))
            (setOwn "globalSuccessCodes"
               (orElse (Get (VObject fields) "globalSuccessCodes")
                  (VArray [VNumber (ofZ 200)]))
               (setOwn "globalTimeout"
                  (orElse (Get (VObject fields) "globalTimeout") (VNumber (ofZ 5000)))
                  (setOwn "urls" (VArray urls') fields))))).
Proof.
  intros G NE E. unfold validateConfig. cbn [isNullish]. rewrite G.
  destruct urls as [| urlConfig rest]; [contradiction |].
  rewrite E. cbv zeta.
  rewrite !Get_setOwn_other by discriminate. reflexivity.
Qed.

Lemma orElse_self (v other : value) : isTruthy v = true -> orElse v other = v.
Proof. intros T. unfold orElse. now rewrite T. Qed.

(** A configuration that [validateConfig] accepts comes out complete:
    [urls] is an array that is not empty, every probe has a truthy [url]
    that [new URL] accepts, its [url] is left as it was, and its [name] is
    the name it had, or ["URL n"] with [n] its position counted from 1 when
    it had none, a probe with a name being left as it was; the timeout, the
    success codes and the level of the log are those supplied when truthy,
    else 5000, [[200]] and ['info']; and every other property of the
    configuration is left as it was. *)
Lemma validateConfig_complete
    (config validated : value)
    (accepted : validateConfig URL_new config = Returned validated) :
  exists urls urls',
    Get config "urls" = VArray urls
    /\ urls <> []
    /\ Get validated "urls" = VArray urls'
    /\ List.length urls' = List.length urls
    /\ (forall i urlConfig, nth_error urls i = Some urlConfig ->
          exists urlConfig' text parsed,
            nth_error urls' i = Some urlConfig'
            /\ isTruthy (Get urlConfig "url") = true
            /\ ToString (Get urlConfig "url") = Normal text
            /\ URL_new text = Normal parsed
            /\ Get urlConfig' "url" = Get urlConfig "url"
            /\ Get urlConfig' "name" = nameAt urlConfig i
            /\ (isTruthy (Get urlConfig "name") = true -> urlConfig' = urlConfig))
    /\ Get validated "globalTimeout"
       = orElse (Get config "globalTimeout") (VNumber (ofZ 5000))
    /\ Get validated "globalSuccessCodes"
       = orElse (Get config "globalSuccessCodes") (VArray [VNumber (ofZ 200)])
    /\ Get validated "logLevel" = orElse (Get config "logLevel") (VString "info")
    /\ (forall key,
          key <> "urls" -> key <> "globalTimeout" -> key <> "globalSuccessCodes" ->
          key <> "logLevel" -> Get validated key = Get config key).
Proof.
  destruct (validateConfig_returned _ _ accepted)
    as (fields & urls & urls' & -> & G & NE & E & ->).
  destruct (validateEach_returned _ _ _ E) as (L & _ & N).
  exists urls, urls'.
  split; [exact G |]. split; [exact NE |].
  split; [now rewrite !Get_setOwn_other, Get_setOwn_same by discriminate |].
  split; [exact L |]. split; [exact N |].
  split; [now rewrite !Get_setOwn_other, Get_setOwn_same by discriminate |].
  split; [now rewrite !Get_setOwn_other, Get_setOwn_same by discriminate |].
  split; [now rewrite Get_setOwn_same |].
  intros key K1 K2 K3 K4. now rewrite !Get_setOwn_other by assumption.
Qed.

(** X16. A configuration that [loadConfig] returns is complete. The file
    exists, its content is the text of a configuration that [validateConfig]
    has accepted, and what is returned is that configuration, completed:
    [urls] is an array that is not empty, every probe has a truthy [url]
    that [new URL] accepts, its [url] is left as it was, and its [name] is
    the name it had, or ["URL n"] with [n] its position counted from 1 when
    it had none, a probe with a name being left as it was; the timeout, the
    success codes and the level of the log are those of the file when
    truthy, else 5000, [[200]] and ['info']; and every other property of the
    configuration is left as it was. *)
Theorem loaded_configuration_is_complete
    (file : ConfigFile) (validated : value)
    (loaded : loadConfig URL_new file = Returned validated) :
  existsSync file = true
  /\ exists fileContent config,
      readFileSync file = Normal fileContent
      /\ JSON_parse fileContent = Normal config
      /\ validateConfig URL_new config = Returned validated
      /\ exists urls urls',
        Get config "urls" = VArray urls
        /\ urls <> []
        /\ Get validated "urls" = VArray urls'
        /\ List.length urls' = List.length urls
        /\ (forall i urlConfig, nth_error urls i = Some urlConfig ->
              exists urlConfig' text parsed,
                nth_error urls' i = Some urlConfig'
                /\ isTruthy (Get urlConfig "url") = true
                /\ ToString (Get urlConfig "url") = Normal text
                /\ URL_new text = Normal parsed
                /\ Get urlConfig' "url" = Get urlConfig "url"
                /\ Get urlConfig' "name" = nameAt urlConfig i
                /\ (isTruthy (Get urlConfig "name") = true -> urlConfig' = urlConfig))
        /\ Get validated "globalTimeout"
           = orElse (Get config "globalTimeout") (VNumber (ofZ 5000))
        /\ Get validated "globalSuccessCodes"
           = orElse (Get config "globalSuccessCodes") (VArray [VNumber (ofZ 200)])
        /\ Get validated "logLevel" = orElse (Get config "logLevel") (VString "info")
        /\ (forall key,
              key <> "urls" -> key <> "globalTimeout" -> key <> "globalSuccessCodes" ->
              key <> "logLevel" -> Get validated key = Get config key).
Proof.
  unfold loadConfig in loaded.
  destruct (existsSync file); [| discriminate]. cbn [negb] in loaded.
  destruct (readFileSync file) as [fileContent |]; [| discriminate].
  cbn [bind] in loaded.
  destruct (JSON_parse fileContent) as [config |] eqn:P; [| discriminate].
  split; [reflexivity |]. exists fileContent, config.
  split; [reflexivity |]. split; [exact P |]. split; [exact loaded |].
  exact (validateConfig_complete config validated loaded).
Qed.

(** X17. Validation is idempotent: a configuration that [validateConfig]
    has accepted and completed is accepted again, and left as it is. *)
Theorem validation_is_idempotent
    (config validated : value)
    (accepted : validateConfig URL_new config = Returned validated) :
  validateConfig URL_new validated = Returned validated.
Proof.
  destruct (validateConfig_returned _ _ accepted)
    as (fields & urls & urls' & -> & G & NE & E & ->).
  destruct (validateEach_returned _ _ _ E) as (L & I & _).
  set (t := orElse (Get (VObject fields) "globalTimeout") (VNumber (ofZ 5000))).
  set (s := orElse (Get (VObject fields) "globalSuccessCodes")
              (VArray [VNumber (ofZ 200)])).
  set (l := orElse (Get (VObject fields) "logLevel") (VString "info")).
  set (f1 := setOwn "urls" (VArray urls') fields).
  set (f2 := setOwn "globalTimeout" t f1).
  set (f3 := setOwn "globalSuccessCodes" s f2).
  set (f4 := setOwn "logLevel" l f3).
  assert (Tt : isTruthy t = true) by (apply orElse_truthy; reflexivity).
  assert (Ts : isTruthy s = true) by (apply orElse_truthy; reflexivity).
  assert (Tl : isTruthy l = true) by (apply orElse_truthy; reflexivity).
  assert (G1 : Get (VObject f4) "urls" = VArray urls')
    by (unfold f4, f3, f2, f1;
        now rewrite !Get_setOwn_other, Get_setOwn_same by discriminate).
  assert (G2 : Get (VObject f4) "globalTimeout" = t)
    by (unfold f4, f3, f2;
        now rewrite !Get_setOwn_other, Get_setOwn_same by discriminate).
  assert (G3 : Get (VObject f4) "globalSuccessCodes" = s)
    by (unfold f4, f3;
        now rewrite !Get_setOwn_other, Get_setOwn_same by discriminate).
  assert (G4 : Get (VObject f4) "logLevel" = l)
    by (unfold f4; now rewrite Get_setOwn_same).
  assert (NE' : urls' <> [])
    by (destruct urls', urls; try discriminate; congruence).
  rewrite (validateConfig_object f4 urls' urls' G1 NE' I).
  rewrite G2, G3, G4, !orElse_self by assumption.
  assert (S1 : setOwn "urls" (VArray urls') f4 = f4)
    by (rewrite <- G1; apply setOwn_truthy; now rewrite G1).
  assert (S2 : setOwn "globalTimeout" t f4 = f4)
    by (rewrite <- G2; apply setOwn_truthy; now rewrite G2).
  assert (S3 : setOwn "globalSuccessCodes" s f4 = f4)
    by (rewrite <- G3; apply setOwn_truthy; now rewrite G3).
  assert (S4 : setOwn "logLevel" l f4 = f4)
    by (rewrite <- G4; apply setOwn_truthy; now rewrite G4).
  now rewrite S1, S2, S3, S4.
Qed.

End LoaderProperties.

(** * The command line and the functions of the package *)

(** What holds of [result] while [parseArgs] reads the arguments [all]. *)
Lemma parseLoop_invariant (all : list string) (n : nat) :
  forall (args : list string) (s : ArgsState),
    (List.length args <= n)%nat ->
    incl args all ->
    Forall (fun code => code <> NaN) (s_successCodes s) ->
    (forall file, s_configFile s = Some file ->
       startsWith file "--" = false /\ In file all) ->
    match parseLoop args s with
    | Normal s' =>
        Forall (fun code => code <> NaN) (s_successCodes s')
        /\ (forall file, s_configFile s' = Some file ->
              startsWith file "--" = false /\ In file all)
    | Throw e =>
        e = cannotRead VUndefined "indexOf"
        /\ exists front, args = (front ++ ["--header"])%list
    end.
Proof.
  induction n as [| n IH]; intros args s L I C F.
  - destruct args; [simpl; auto | simpl in L; lia].
  - destruct args as [| arg rest]; [simpl; auto |].
    assert (Ir : incl rest all) by (intros x Hx; apply I; now right).
    assert (Lr : (List.length rest <= n)%nat) by (simpl in L; lia).
    assert (step : forall s',
               Forall (fun code => code <> NaN) (s_successCodes s') ->
               (forall file, s_configFile s' = Some file ->
                  startsWith file "--" = false /\ In file all) ->
               match parseLoop rest s' with
               | Normal s'' =>
                   Forall (fun code => code <> NaN) (s_successCodes s'')
                   /\ (forall file, s_configFile s'' = Some file ->
                         startsWith file "--" = false /\ In file all)
               | Throw e =>
                   e = cannotRead VUndefined "indexOf"
                   /\ exists front, (arg :: rest) = (front ++ ["--header"])%list
               end).
    { intros s' C' F'. specialize (IH rest s' Lr Ir C' F').
      destruct (parseLoop rest s'); [exact IH |].
      destruct IH as (-> & front & ->). split; [reflexivity |].
      now exists (arg :: front). }
    assert (step2 : forall value rest' s',
               rest = value :: rest' ->
               Forall (fun code => code <> NaN) (s_successCodes s') ->
               (forall file, s_configFile s' = Some file ->
                  startsWith file "--" = false /\ In file all) ->
               match parseLoop rest' s' with
               | Normal s'' =>
                   Forall (fun code => code <> NaN) (s_successCodes s'')
                   /\ (forall file, s_configFile s'' = Some file ->
                         startsWith file "--" = false /\ In file all)
               | Throw e =>
                   e = cannotRead VUndefined "indexOf"
                   /\ exists front, (arg :: rest) = (front ++ ["--header"])%list
               end).
    { intros value rest' s' -> C' F'.
      assert (Lr' : (List.length rest' <= n)%nat) by (simpl in Lr; lia).
      assert (Ir' : incl rest' all) by (intros x Hx; apply Ir; now right).
      specialize (IH rest' s' Lr' Ir' C' F').
      destruct (parseLoop rest' s'); [exact IH |].
      destruct IH as (-> & front & ->). split; [reflexivity |].
      now exists (arg :: value :: front). }
    assert (S : forall text,
               Forall (fun code => code <> NaN) (s_successCodes (successCase text s))
               /\ s_configFile (successCase text s) = s_configFile s).
    { intros text. unfold successCase.
      destruct (parseInt _) eqn:P; simpl; split; try reflexivity; try exact C;
        apply Forall_app; split; try exact C; constructor; try constructor;
        discriminate. }
    assert (H : forall headerValue,
               s_successCodes (headerCase headerValue s) = s_successCodes s
               /\ s_configFile (headerCase headerValue s) = s_configFile s).
    { intros headerValue. unfold headerCase.
      destruct (indexOf ":" headerValue) as [[| i] |]; try (split; reflexivity).
      destruct (String.eqb _ "__proto__"); split; reflexivity. }
    cbn [parseLoop].
    destruct (String.eqb arg "--url") eqn:E1.
    { destruct rest as [| address rest']; [simpl; auto |].
      now apply (step2 address rest'). }
    destruct (String.eqb arg "--timeout") eqn:E2.
    { destruct rest as [| ms rest']; [simpl; auto |].
      now apply (step2 ms rest'). }
    destruct (String.eqb arg "--header") eqn:E3.
    { apply String.eqb_eq in E3. subst arg.
      destruct rest as [| headerValue rest'].
      - split; [reflexivity | now exists []].
      - apply (step2 headerValue rest'); [reflexivity | |].
        + now rewrite (proj1 (H headerValue)).
        + now rewrite (proj2 (H headerValue)). }
    destruct (String.eqb arg "--success") eqn:E4.
    { destruct rest as [| code rest'].
      - split; [apply S | now rewrite (proj2 (S None))].
      - apply (step2 code rest'); [reflexivity | apply S |].
        now rewrite (proj2 (S (Some code))). }
    destruct (String.eqb arg "--sync"); [now apply step |].
    destruct (String.eqb arg "--quiet"); [now apply step |].
    destruct (String.eqb arg "--help"); [now apply step |].
    destruct (String.eqb arg "--version"); [now apply step |].
    destruct (startsWith arg "--") eqn:P; cbn [negb andb]; [now apply step |].
    destruct (isTruthyText (s_configFile s)); cbn [negb]; [now apply step |].
    apply step; [exact C |].
    intros file X. simpl in X. inversion X; subst file.
    split; [exact P | apply I; now left].
Qed.

(** X18. What [parseArgs] gives for any command line. When it returns, the
    success codes, if any, are at least one and none is NaN, the headers, if
    any, are at least one, and the configuration file, if any, is one of
    the arguments and does not begin with ['--']. It throws only on a
    command line that ends with ['--header'], the error being that of
    reading [indexOf] of [undefined]. *)
Theorem command_line_is_read_safely (argv : list string) :
  match parseArgs argv with
  | Normal (args, warnings) =>
      match a_successCodes args with
      | Some codes => codes <> [] /\ Forall (fun code => code <> NaN) codes
      | None => True
      end
      /\ a_headers args <> Some []
      /\ (forall file, a_configFile args = Some file ->
            startsWith file "--" = false /\ In file (skipn 2 argv))
  | Throw e =>
      e = cannotRead VUndefined "indexOf"
      /\ exists front, skipn 2 argv = (front ++ ["--header"])%list
  end.
Proof.
  unfold parseArgs.
  assert (I := parseLoop_invariant (skipn 2 argv) (List.length (skipn 2 argv))
                 (skipn 2 argv) initialState (Nat.le_refl _)
                 (fun x Hx => Hx) (Forall_nil _)).
  destruct (parseLoop (skipn 2 argv) initialState) as [s |]; cbn [bind].
  - destruct I as [C F]; [intros file X; discriminate |].
    cbn [a_successCodes a_headers a_configFile].
    split; [| split; [| exact F]].
    + destruct (s_successCodes s); [exact Logic.I | split; [discriminate | exact C]].
    + destruct (s_headers s); discriminate.
  - apply I. intros file X. discriminate.
Qed.

Section EntryPoints.
Context {host : Host}.

(** X19. The function [checkUrl] of the package probes with the success
    codes given, else with 200: for success codes that are integers from 0
    to 999 and a request that succeeds, it gives a result, which succeeds if
    and only if the status code is one of them, whatever the timeout. *)
Theorem package_probe_succeeds_on_success_codes
    (address : string) (timeoutMs : option number) (codes : option (list number))
    (run : Run) (res : HttpResponse)
    (transported : response run = Normal res)
    (threeDigits :
       Forall (fun code => exists z, (0 <= z < 1000)%Z /\ code = ofZ z)
         (match codes with Some codes => codes | None => [ofZ 200] end))
    (real : res_statusCode res <> NaN) :
  exists result,
    Index.checkUrl address timeoutMs codes run = Some result
    /\ r_url result = address
    /\ r_statusCode result = Some (res_statusCode res)
    /\ r_success result
       = existsb (fun code => SameValueZero code (res_statusCode res))
           (match codes with Some codes => codes | None => [ofZ 200] end).
Proof.
  set (urlConfig :=
         {| url := address; name := None;
            timeout := Some (match timeoutMs with Some t => t | None => ofZ 5000 end);
            successCodes := None; requestHeaders := None; method := None;
            requestBody := None; contentType := None; checks := None |}).
  set (config :=
         {| urls := [urlConfig]; globalTimeout := None;
            globalSuccessCodes :=
              Some (match codes with Some codes => codes | None => [ofZ 200] end) |}).
  exists (checkUrl config urlConfig run).
  split; [reflexivity |].
  destruct (checkUrl_transported_result config urlConfig run res transported)
    as (texts & _ & R).
  split; [now rewrite R |]. split; [now rewrite R |].
  exact (checkUrl_without_checks config urlConfig run res transported
           (or_introl eq_refl) threeDigits real).
Qed.

(** X20. The exit code of the command line for one URL: when the command
    line is read without error, asks neither for help nor for the version
    and names a URL that is not empty, and the request succeeds, [main]
    exits with 0 if the status code is one of the success codes of the
    command line, 200 when it gives none, and with 1 if not; for success
    codes that are integers from 0 to 999. *)
Theorem url_mode_exit_code
    (argv : list string) (run : Run) (checked : completion (list CheckResult))
    (args : Args) (warnings : list string) (address : string) (res : HttpResponse)
    (parsed : parseArgs argv = Normal (args, warnings))
    (noHelp : a_help args = false)
    (noVersion : a_version args = false)
    (named : a_url args = Some address)
    (nonempty : address <> "")
    (transported : response run = Normal res)
    (threeDigits :
       Forall (fun code => exists z, (0 <= z < 1000)%Z /\ code = ofZ z)
         (match a_successCodes args with Some codes => codes | None => [ofZ 200] end))
    (real : res_statusCode res <> NaN) :
  main argv run checked
  = if existsb (fun code => SameValueZero code (res_statusCode res))
         (match a_successCodes args with Some codes => codes | None => [ofZ 200] end)
    then 0%Z else 1%Z.
Proof.
  unfold main. rewrite parsed, noHelp, noVersion, named.
  destruct address as [| c rest]; [contradiction |].
  cbn [isTruthyText negb andb]. rewrite andb_false_r.
  unfold checkAll, urlModeConfig. cbn [urls checkAllOf].
  rewrite checkUrl_without_checks with (res := res);
    [| exact transported | now left | | exact real].
  - unfold effectiveSuccessCodes. cbn [successCodes globalSuccessCodes].
    destruct (a_successCodes args); reflexivity.
  - unfold effectiveSuccessCodes. cbn [successCodes globalSuccessCodes].
    destruct (a_successCodes args); exact threeDigits.
Qed.

End EntryPoints.

(** * The further properties at concrete inputs *)

Lemma passed_result_reports_no_error_witness :
  let check := pathCheck "address.city" equals (Some "Sydney") in
  let reply := respond 200 [] profileText in
  passed (evaluateCheck check reply) = true
  /\ error (evaluateCheck check reply) = None.
Proof.
  intros check reply.
  assert (P : passed (evaluateCheck check reply) = true) by (vm_compute; reflexivity).
  split; [exact P | exact (passed_result_reports_no_error check reply P)].
Defined.

Lemma contrary_operator_gives_contrary_verdict_witness :
  let check := headerCheck "Content-Type" contains (Some "json") in
  let contrary := headerCheck "Content-Type" not_contains (Some "json") in
  negatedCheck check = Some contrary
  /\ error (evaluateCheck check headersResponse) = None
  /\ passed (evaluateCheck check headersResponse) = true
  /\ match error (evaluateCheck check headersResponse) with
     | None =>
         passed (evaluateCheck contrary headersResponse)
         = negb (passed (evaluateCheck check headersResponse))
         /\ error (evaluateCheck contrary headersResponse) = None
     | Some text =>
         passed (evaluateCheck check headersResponse) = false
         /\ passed (evaluateCheck contrary headersResponse) = false
         /\ error (evaluateCheck contrary headersResponse) = Some text
     end.
Proof.
  intros check contrary.
  split; [reflexivity |]. split; [vm_compute; reflexivity |].
  split; [vm_compute; reflexivity |].
  exact (contrary_operator_gives_contrary_verdict check contrary headersResponse eq_refl).
Defined.

Lemma all_of_contrary_is_contrary_of_any_witness :
  let reply := respond 200 [] tagsBody in
  negated equals = Some not_equals
  /\ error (evaluateJsonPathCheck (tagsCheck equals "typescript" Any) reply) = None
  /\ passed (evaluateJsonPathCheck (tagsCheck equals "typescript" Any) reply) = true
  /\ passed (evaluateJsonPathCheck (tagsCheck not_equals "typescript" All) reply)
     = negb (passed (evaluateJsonPathCheck (tagsCheck equals "typescript" Any) reply)).
Proof.
  intros reply.
  assert (C : error (evaluateJsonPathCheck (tagsCheck equals "typescript" Any) reply)
              = None) by (vm_compute; reflexivity).
  split; [reflexivity |]. split; [exact C |]. split; [vm_compute; reflexivity |].
  exact (all_of_contrary_is_contrary_of_any "tags" equals not_equals
           (Some "typescript") reply eq_refl C).
Defined.

Lemma missing_key_reads_as_undefined_witness :
  let check := {| j_path := "address.zip"; j_operator := equals;
                  j_value := Some "undefined"; j_element := None |} in
  let document :=
    VObject [("address", VObject [("city", VString "Sydney")])] in
  let reply := respond 200 [] (textOf document) in
  JSON_parse (body reply) = Normal document
  /\ readsOwn document (pathSegments (j_path check)) = true
  /\ readsOwn document (pathSegments "address.constructor") = false
  /\ extractJsonPath document (j_path check) = VUndefined
  /\ passed (evaluateJsonPathCheck check reply) = true
  /\ actualValue (evaluateJsonPathCheck check reply) = VUndefined
  /\ (j_operator check <> matches -> j_operator check <> not_matches ->
      error (evaluateJsonPathCheck check reply) = None).
Proof.
  intros check document reply.
  assert (P : JSON_parse (body reply) = Normal document) by (vm_compute; reflexivity).
  assert (O : readsOwn document (pathSegments (j_path check)) = true)
    by (vm_compute; reflexivity).
  assert (M : extractJsonPath document (j_path check) = VUndefined)
    by (vm_compute; reflexivity).
  split; [exact P |]. split; [exact O |]. split; [vm_compute; reflexivity |].
  split; [exact M |].
  exact (missing_key_reads_as_undefined check reply document P O M).
Defined.

Lemma extraction_composes_witness :
  let document :=
    VObject [("address", VObject [("city", VString "Sydney")])] in
  "address" <> "" /\ "address" <> "$" /\ startsSegment "city" = true
  /\ extractJsonPath (extractJsonPath document "address") "city" = VString "Sydney"
  /\ extractJsonPath document ("address" ++ "." ++ "city")
     = extractJsonPath (extractJsonPath document "address") "city".
Proof.
  intros document.
  assert (N : "address" <> "") by discriminate.
  assert (R : "address" <> "$") by discriminate.
  split; [exact N |]. split; [exact R |]. split; [reflexivity |].
  split; [vm_compute; reflexivity |].
  exact (extraction_composes document "address" "city" N R eq_refl).
Defined.

Lemma no_path_selects_the_document_witness :
  let document := VObject [("", VArray [VString "developer"])] in
  isPrimitive document = false
  /\ extractJsonPath document "$" = VArray [VString "developer"]
  /\ extractJsonPath document "$" <> document
  /\ extractJsonPath document "$" = Get document ""
  /\ extractJsonPath document "" = Get document "".
Proof.
  intros document.
  split; [reflexivity |]. split; [vm_compute; reflexivity |].
  exact (no_path_selects_the_document document "$" eq_refl).
Defined.

Lemma null_body_reads_as_missing_witness :
  let check := {| j_path := "name"; j_operator := not_exists;
                  j_value := None; j_element := None |} in
  let reply := respond 200 [] "null" in
  JSON_parse (body reply) = Normal VNull
  /\ extractJsonPath VNull (j_path check) = VUndefined
  /\ actualValue (evaluateJsonPathCheck check reply) = VUndefined
  /\ (j_operator check = exists_ ->
      passed (evaluateJsonPathCheck check reply) = false)
  /\ (j_operator check = not_exists ->
      passed (evaluateJsonPathCheck check reply) = true)
  /\ (j_operator check = equals ->
      passed (evaluateJsonPathCheck check reply)
      = strictEquals (Some "undefined") (j_value check)).
Proof.
  intros check reply.
  assert (P : JSON_parse (body reply) = Normal VNull) by (vm_compute; reflexivity).
  split; [exact P |].
  exact (null_body_reads_as_missing check reply P).
Defined.

Lemma header_check_ignores_letter_case_witness :
  let reply := respond 200 [("Content-Type", "text/html")] "" in
  let lowered := respond 200 [("content-type", "text/html")] "" in
  let result :=
    evaluateHeaderCheck
      {| h_name := "content-type"; h_operator := equals;
         h_value := Some "text/html" |} reply in
  let result' :=
    evaluateHeaderCheck
      {| h_name := "CONTENT-TYPE"; h_operator := equals;
         h_value := Some "text/html" |} lowered in
  toLowerCase "content-type" = toLowerCase "CONTENT-TYPE"
  /\ passed result = true
  /\ passed result' = passed result
  /\ error result' = error result
  /\ actualValue result' = actualValue result.
Proof.
  intros reply lowered result result'.
  split; [reflexivity |]. split; [vm_compute; reflexivity |].
  exact (header_check_ignores_letter_case "content-type" "CONTENT-TYPE" equals
           (Some "text/html") reply eq_refl).
Defined.

Lemma reported_body_is_bounded_witness :
  let check := {| b_operator := contains; b_value := Some "needle" |} in
  let reply := respond 200 [] longBody in
  let run := answered 200 longBody in
  let res := {| res_statusCode := ofZ 200; res_headers := []; res_body := longBody |} in
  response run = Normal res
  /\ String.length longBody = 2000%nat
  /\ (exists reported,
        actualValue (evaluateBodyCheck check reply) = VString reported
        /\ (String.length reported <= 103)%nat
        /\ (String.length (body reply) <= 100 -> reported = body reply)%nat
        /\ (100 < String.length (body reply) ->
            reported = substring0 100 (body reply) ++ "...")%nat)
  /\ (exists stored,
        r_body (checkUrl plainConfig (probe None) run) = Some stored
        /\ (String.length stored <= 1027)%nat
        /\ (String.length (res_body res) <= 1024 -> stored = res_body res)%nat
        /\ (1024 < String.length (res_body res) ->
            stored = substring0 1024 (res_body res) ++ "...")%nat).
Proof.
  intros check reply run res.
  split; [reflexivity |]. split; [vm_compute; reflexivity |].
  exact (reported_body_is_bounded check reply plainConfig (probe None) run res eq_refl).
Defined.

Lemma default_probe_succeeds_on_success_codes_witness :
  let urlConfig :=
    {| url := "http://localhost/"; name := None; timeout := None;
       successCodes := Some [ofZ 200; ofZ 404]; requestHeaders := None;
       method := None; requestBody := None; contentType := None;
       checks := Some [] |} in
  let run := answered 404 "" in
  let res := {| res_statusCode := ofZ 404; res_headers := []; res_body := "" |} in
  response run = Normal res
  /\ (checks urlConfig = None \/ checks urlConfig = Some [])
  /\ Forall (fun code => exists z, (0 <= z < 1000)%Z /\ code = ofZ z)
       (effectiveSuccessCodes plainConfig urlConfig)
  /\ res_statusCode res <> NaN
  /\ existsb (fun code => SameValueZero code (res_statusCode res))
       (effectiveSuccessCodes plainConfig urlConfig) = true
  /\ r_success (checkUrl plainConfig urlConfig run)
     = existsb (fun code => SameValueZero code (res_statusCode res))
         (effectiveSuccessCodes plainConfig urlConfig).
Proof.
  intros urlConfig run res.
  assert (D : Forall (fun code => exists z, (0 <= z < 1000)%Z /\ code = ofZ z)
                (effectiveSuccessCodes plainConfig urlConfig)).
  { constructor; [exists 200%Z; split; [lia | reflexivity] |].
    constructor; [exists 404%Z; split; [lia | reflexivity] |]. constructor. }
  assert (R : res_statusCode res <> NaN) by (vm_compute; discriminate).
  split; [reflexivity |]. split; [right; reflexivity |].
  split; [exact D |]. split; [exact R |]. split; [vm_compute; reflexivity |].
  exact (default_probe_succeeds_on_success_codes plainConfig urlConfig run res
           eq_refl (or_intror eq_refl) D R).
Defined.

Lemma request_is_rebuilt_unchanged_witness :
  let urlConfig := postProbe [("accept", "*/*")] in
  let after := postProbe [("accept", "*/*"); ("content-type", "application/json")] in
  makeRequest parseLocal urlConfig (effectiveTimeout plainConfig urlConfig)
  = Normal (postRequest, after)
  /\ makeRequest parseLocal after (effectiveTimeout plainConfig after)
     = Normal (postRequest, after)
  /\ (forall key, key <> "content-type" ->
        getOwn key (o_headers (q_options postRequest))
        = getOwn key (match requestHeaders urlConfig with
                      | Some sent => sent
                      | None => []
                      end))
  /\ (isTruthyText (requestBody urlConfig) = true ->
      isTruthyText (contentType urlConfig) = true ->
      isTruthyText (getOwn "content-type" (o_headers (q_options postRequest))) = true)
  /\ (forall text, q_written postRequest = Some text ->
        requestBody urlConfig = Some text /\ text <> ""
        /\ o_method (q_options postRequest) <> "GET"
        /\ o_method (q_options postRequest) <> "HEAD")
  /\ o_method (q_options postRequest) <> ""
  /\ isFalsyNumber (o_timeout (q_options postRequest)) = false.
Proof.
  intros urlConfig after.
  assert (B : makeRequest parseLocal urlConfig (effectiveTimeout plainConfig urlConfig)
              = Normal (postRequest, after)) by (vm_compute; reflexivity).
  split; [exact B |].
  exact (request_is_rebuilt_unchanged parseLocal plainConfig urlConfig after
           postRequest B).
Defined.

Lemma loaded_configuration_is_complete_witness :
  loadConfig parseLocal oneUrlFile = Returned oneUrlValidated
  /\ existsSync oneUrlFile = true
  /\ exists fileContent config,
      readFileSync oneUrlFile = Normal fileContent
      /\ JSON_parse fileContent = Normal config
      /\ validateConfig parseLocal config = Returned oneUrlValidated
      /\ exists urls urls',
        Get config "urls" = VArray urls
        /\ urls <> []
        /\ Get oneUrlValidated "urls" = VArray urls'
        /\ List.length urls' = List.length urls
        /\ (forall i urlConfig, nth_error urls i = Some urlConfig ->
              exists urlConfig' text parsed,
                nth_error urls' i = Some urlConfig'
                /\ isTruthy (Get urlConfig "url") = true
                /\ ToString (Get urlConfig "url") = Normal text
                /\ parseLocal text = Normal parsed
                /\ Get urlConfig' "url" = Get urlConfig "url"
                /\ Get urlConfig' "name" = nameAt urlConfig i
                /\ (isTruthy (Get urlConfig "name") = true -> urlConfig' = urlConfig))
        /\ Get oneUrlValidated "globalTimeout"
           = orElse (Get config "globalTimeout") (VNumber (ofZ 5000))
        /\ Get oneUrlValidated "globalSuccessCodes"
           = orElse (Get config "globalSuccessCodes") (VArray [VNumber (ofZ 200)])
        /\ Get oneUrlValidated "logLevel"
           = orElse (Get config "logLevel") (VString "info")
        /\ (forall key,
              key <> "urls" -> key <> "globalTimeout" -> key <> "globalSuccessCodes" ->
              key <> "logLevel" -> Get oneUrlValidated key = Get config key).
Proof.
  assert (L : loadConfig parseLocal oneUrlFile = Returned oneUrlValidated)
    by (vm_compute; reflexivity).
  split; [exact L |].
  exact (loaded_configuration_is_complete parseLocal oneUrlFile oneUrlValidated L).
Defined.

Lemma validation_is_idempotent_witness :
  validateConfig parseLocal oneUrlDocument = Returned oneUrlValidated
  /\ validateConfig parseLocal oneUrlValidated = Returned oneUrlValidated.
Proof.
  assert (V : validateConfig parseLocal oneUrlDocument = Returned oneUrlValidated)
    by (vm_compute; reflexivity).
  split; [exact V |].
  exact (validation_is_idempotent parseLocal oneUrlDocument oneUrlValidated V).
Defined.

Lemma package_probe_succeeds_on_success_codes_witness :
  let run := answered 204 "" in
  let res := {| res_statusCode := ofZ 204; res_headers := []; res_body := "" |} in
  response run = Normal res
  /\ Forall (fun code => exists z, (0 <= z < 1000)%Z /\ code = ofZ z) [ofZ 204]
  /\ res_statusCode res <> NaN
  /\ exists result,
       Index.checkUrl "http://localhost/" None (Some [ofZ 204]) run = Some result
       /\ r_url result = "http://localhost/"
       /\ r_statusCode result = Some (res_statusCode res)
       /\ r_success result
          = existsb (fun code => SameValueZero code (res_statusCode res)) [ofZ 204].
Proof.
  intros run res.
  assert (D : Forall (fun code => exists z, (0 <= z < 1000)%Z /\ code = ofZ z)
                [ofZ 204]).
  { constructor; [exists 204%Z; split; [lia | reflexivity] |]. constructor. }
  assert (R : res_statusCode res <> NaN) by (vm_compute; discriminate).
  split; [reflexivity |]. split; [exact D |]. split; [exact R |].
  exact (package_probe_succeeds_on_success_codes "http://localhost/" None
           (Some [ofZ 204]) run res eq_refl D R).
Defined.

Lemma url_mode_exit_code_witness :
  let run := answered 404 "" in
  let res := {| res_statusCode := ofZ 404; res_headers := []; res_body := "" |} in
  parseArgs oneUrlCommand = Normal (oneUrlArgs, [])
  /\ a_help oneUrlArgs = false
  /\ a_version oneUrlArgs = false
  /\ a_url oneUrlArgs = Some "http://localhost/"
  /\ "http://localhost/" <> ""
  /\ response run = Normal res
  /\ Forall (fun code => exists z, (0 <= z < 1000)%Z /\ code = ofZ z) [ofZ 404]
  /\ res_statusCode res <> NaN
  /\ existsb (fun code => SameValueZero code (res_statusCode res)) [ofZ 404] = true
  /\ main oneUrlCommand run (Normal [])
     = if existsb (fun code => SameValueZero code (res_statusCode res)) [ofZ 404]
       then 0%Z else 1%Z.
Proof.
  intros run res.
  assert (P : parseArgs oneUrlCommand = Normal (oneUrlArgs, []))
    by (vm_compute; reflexivity).
  assert (N : "http://localhost/" <> "") by discriminate.
  assert (D : Forall (fun code => exists z, (0 <= z < 1000)%Z /\ code = ofZ z)
                [ofZ 404]).
  { constructor; [exists 404%Z; split; [lia | reflexivity] |]. constructor. }
  assert (R : res_statusCode res <> NaN) by (vm_compute; discriminate).
  split; [exact P |]. split; [reflexivity |]. split; [reflexivity |].
  split; [reflexivity |]. split; [exact N |]. split; [reflexivity |].
  split; [exact D |]. split; [exact R |]. split; [vm_compute; reflexivity |].
  exact (url_mode_exit_code oneUrlCommand run (Normal []) oneUrlArgs []
           "http://localhost/" res P eq_refl eq_refl eq_refl N eq_refl D R).
Defined.

(** * Further properties of the checks *)

Lemma append_empty (s : string) : (s ++ "")%string = s.
Proof. induction s as [| c s IH]; simpl; [reflexivity | now rewrite IH]. Qed.

Lemma includes_empty (s : string) : includes s "" = true.
Proof. destruct s; reflexivity. Qed.

Lemma startsWith_append (p r prefix : string) :
  p <> "" -> String.length prefix = 1%nat ->
  startsWith (p ++ r) prefix = startsWith p prefix.
Proof.
  intros N L. destruct prefix as [| b [| ? ?]]; try discriminate.
  destruct p as [| a p]; [contradiction |]. simpl.
  now destruct (Ascii.eqb a b).
Qed.

Lemma substring1_append (p r : string) :
  p <> "" -> substring1 (p ++ r) = (substring1 p ++ r)%string.
Proof. destruct p; [contradiction | reflexivity]. Qed.

(** The segments of [p[w]] are those of [p], then [w]. *)
Lemma pathSegments_bracket (p w : string) :
  p <> "" -> p <> "$" -> w <> "" -> forallChars isWordChar w = true ->
  pathSegments (p ++ "[" ++ w ++ "]") = (pathSegments p ++ [w])%list.
Proof.
  intros Hp Hd Hw Hc.
  assert (S : startsSegment w = true).
  { destruct w as [| c w]; [contradiction |]. simpl in Hc.
    apply andb_true_iff in Hc as [Hc _]. simpl.
    destruct (Ascii.eqb_spec c "$"); [subst; discriminate |].
    destruct (Ascii.eqb_spec c "."); [subst; discriminate |].
    destruct (Ascii.eqb_spec c "["); [subst; discriminate | reflexivity]. }
  assert (W : pathSegments w = [w]).
  { rewrite (pathSegments_plain w S).
    rewrite <- (append_empty w) at 1.
    rewrite (replaceBrackets_word w "" Hc). simpl replaceBrackets.
    rewrite append_empty. apply split_free.
    clear - Hc. induction w as [| c w IH]; [reflexivity |].
    simpl in *. apply andb_true_iff in Hc as [Hc Hw]. rewrite (IH Hw), andb_true_r.
    destruct (Ascii.eqb_spec c "."); [subst; discriminate | reflexivity]. }
  rewrite <- W, <- (pathSegments_dot p w Hp Hd S).
  assert (B : replaceBrackets 0 ("[" ++ w ++ "]") = replaceBrackets 0 ("." ++ w)).
  { change ("[" ++ w ++ "]")%string with ("[" ++ w ++ "]" ++ "")%string.
    rewrite (replaceBrackets_bracket w "" Hw Hc).
    change ("." ++ w)%string with (String "." w).
    cbn [replaceBrackets]. rewrite matchBracket_other by reflexivity.
    rewrite <- (append_empty w) at 2.
    now rewrite (replaceBrackets_word w "" Hc). }
  assert (R : forall pre,
             replaceBrackets 0 (pre ++ "[" ++ w ++ "]")
             = replaceBrackets 0 (pre ++ "." ++ w)).
  { intros pre.
    apply (replaceBrackets_prefix ("[" ++ w ++ "]") ("." ++ w) "[" "."
             (w ++ "]") w eq_refl eq_refl eq_refl eq_refl eq_refl eq_refl B pre 0).
    apply Nat.le_0_l. }
  unfold pathSegments.
  rewrite !(startsWith_append p _ "$" Hp eq_refl).
  destruct (startsWith p "$"); [| now rewrite R].
  rewrite !substring1_append by exact Hp. now rewrite R.
Qed.

Section SelectionProperties.
Context {host : Host}.

(** X21. The element of an array that a check selects is the one a bracket
    in the path selects. When the path [p] leads to an array, the check on
    [p] with the element [n], with ['first'] or with no element, which
    stands for the index 0, gives the verdict, the error and the
    [actualValue] of the check on [p[n]], whatever the element of that one,
    provided the element selected is not itself an array; [p] being neither
    empty nor ['$'] and [n] being written as a word. *)
Theorem selected_element_is_bracket_index
    (p : string) (operator : ComparisonOperator) (expected : option string)
    (element element' : option Element) (n : number)
    (response : ResponseData) (jsonBody : value) (items : list value)
    (parsed : JSON_parse (body response) = Normal jsonBody)
    (nonempty : p <> "")
    (notRoot : p <> "$")
    (array : extractJsonPath jsonBody p = VArray items)
    (selects : match element with
               | None | Some First => n = ofZ 0
               | Some (Index m) => n = m
               | _ => False
               end)
    (word : toString n <> "" /\ forallChars isWordChar (toString n) = true)
    (flat : forall nested, GetNumber (VArray items) n <> VArray nested) :
  let selected :=
    evaluateJsonPathCheck
      {| j_path := p; j_operator := operator; j_value := expected;
         j_element := element |} response in
  let indexed :=
    evaluateJsonPathCheck
      {| j_path := p ++ "[" ++ toString n ++ "]"; j_operator := operator;
         j_value := expected; j_element := element' |} response in
  passed indexed = passed selected
  /\ error indexed = error selected
  /\ actualValue indexed = actualValue selected.
Proof.
  destruct word as [Wn Ww].
  assert (X : extractJsonPath jsonBody (p ++ "[" ++ toString n ++ "]")
              = GetNumber (VArray items) n).
  { unfold extractJsonPath.
    rewrite (pathSegments_bracket p (toString n) nonempty notRoot Wn Ww).
    rewrite traverse_append. fold (extractJsonPath jsonBody p). rewrite array.
    reflexivity. }
  assert (T1 : jsonPathTry
                 {| j_path := p; j_operator := operator; j_value := expected;
                    j_element := element |} response
               = jsonPathCompare
                   {| j_path := p; j_operator := operator; j_value := expected;
                      j_element := element |} (GetNumber (VArray items) n)).
  { unfold jsonPathTry. rewrite parsed. cbn [j_path j_element]. rewrite array.
    destruct element as [[| | | | m] |]; try contradiction; now subst n. }
  assert (T2 : jsonPathTry
                 {| j_path := p ++ "[" ++ toString n ++ "]"; j_operator := operator;
                    j_value := expected; j_element := element' |} response
               = jsonPathCompare
                   {| j_path := p ++ "[" ++ toString n ++ "]"; j_operator := operator;
                      j_value := expected; j_element := element' |}
                   (GetNumber (VArray items) n)).
  { unfold jsonPathTry. rewrite parsed. cbn [j_path j_element]. rewrite X.
    destruct (GetNumber (VArray items) n) eqn:G; try reflexivity.
    now destruct (flat items0). }
  unfold evaluateJsonPathCheck. rewrite T1, T2. unfold jsonPathCompare.
  cbn [j_operator j_value].
  destruct (compareValues _ operator expected); cbn [bind];
    repeat split; reflexivity.
Qed.

(** X22. The alternatives of a check on the status code combine: a check
    with operator [equals] on [left|right] passes exactly when the check on
    [left] or the check on [right] passes, and with [not_equals] exactly
    when both pass, whatever the two texts. *)
Theorem status_code_alternatives_combine
    (left right : string) (response : ResponseData) :
  passed (evaluateStatusCodeCheck
            {| sc_operator := sc_equals; sc_value := left ++ "|" ++ right |} response)
  = passed (evaluateStatusCodeCheck
              {| sc_operator := sc_equals; sc_value := left |} response)
    || passed (evaluateStatusCodeCheck
                 {| sc_operator := sc_equals; sc_value := right |} response)
  /\ passed (evaluateStatusCodeCheck
               {| sc_operator := sc_not_equals; sc_value := left ++ "|" ++ right |}
               response)
     = passed (evaluateStatusCodeCheck
                 {| sc_operator := sc_not_equals; sc_value := left |} response)
       && passed (evaluateStatusCodeCheck
                    {| sc_operator := sc_not_equals; sc_value := right |} response).
Proof.
  rewrite !status_code_equals_includes, !status_code_not_equals_includes.
  change (left ++ "|" ++ right)%string with (left ++ String "|" right)%string.
  rewrite split_append, existsb_app, negb_orb. split; reflexivity.
Qed.

(** X23. A check without a value to compare with does not look at the
    content. When the value is missing or empty, a check on the body with
    [contains] passes and with [not_contains] fails, whatever the body, and
    a check on a header with [contains] or [not_contains] is the check with
    [exists] or [not_exists]; when the value is missing, a check on the body
    with [equals] fails and with [not_equals] passes. None reports an
    error. *)
Theorem check_without_value_ignores_content
    (name : string) (expected : option string) (response : ResponseData)
    (empty : orEmpty expected = "") :
  let ofBody operator :=
    evaluateBodyCheck {| b_operator := operator; b_value := expected |} response in
  let ofHeader operator :=
    evaluateHeaderCheck
      {| h_name := name; h_operator := operator; h_value := expected |} response in
  passed (ofBody contains) = true
  /\ passed (ofBody not_contains) = false
  /\ (expected = None ->
      passed (ofBody equals) = false /\ passed (ofBody not_equals) = true)
  /\ passed (ofHeader contains) = passed (ofHeader exists_)
  /\ passed (ofHeader not_contains) = passed (ofHeader not_exists)
  /\ error (ofBody contains) = None /\ error (ofBody not_contains) = None
  /\ error (ofHeader contains) = None /\ error (ofHeader not_contains) = None.
Proof.
  intros ofBody ofHeader. unfold ofBody, ofHeader.
  rewrite !(proj1 (evaluateBodyCheck_caught _ _)), !(proj2 (evaluateBodyCheck_caught _ _)).
  rewrite !(proj1 (evaluateHeaderCheck_caught _ _)),
    !(proj2 (evaluateHeaderCheck_caught _ _)).
  unfold bodyTry, headerTry. cbn [b_operator b_value h_operator h_value h_name].
  rewrite empty, includes_empty. cbn [caught fst snd negb orUndefined].
  split; [reflexivity |]. split; [reflexivity |].
  split; [intros ->; split; reflexivity |].
  destruct (findHeader _ _) as [h |]; cbn [fst];
    rewrite ?includes_empty; repeat split; reflexivity.
Qed.

End SelectionProperties.

Lemma selected_element_is_bracket_index_witness :
  let reply := respond 200 [] tagsBody in
  let document := VObject [("tags", VArray [VString "developer"; VString "typescript"])] in
  let items := [VString "developer"; VString "typescript"] in
  JSON_parse (body reply) = Normal document
  /\ "tags" <> "" /\ "tags" <> "$"
  /\ extractJsonPath document "tags" = VArray items
  /\ toString (ofZ 1) = "1"
  /\ (forall nested, GetNumber (VArray items) (ofZ 1) <> VArray nested)
  /\ passed (evaluateJsonPathCheck
               {| j_path := "tags"; j_operator := equals;
                  j_value := Some "typescript";
                  j_element := Some (Index (ofZ 1)) |} reply) = true
  /\ passed (evaluateJsonPathCheck
               {| j_path := "tags" ++ "[" ++ toString (ofZ 1) ++ "]";
                  j_operator := equals; j_value := Some "typescript";
                  j_element := None |} reply)
     = passed (evaluateJsonPathCheck
                 {| j_path := "tags"; j_operator := equals;
                    j_value := Some "typescript";
                    j_element := Some (Index (ofZ 1)) |} reply)
  /\ error (evaluateJsonPathCheck
              {| j_path := "tags" ++ "[" ++ toString (ofZ 1) ++ "]";
                 j_operator := equals; j_value := Some "typescript";
                 j_element := None |} reply)
     = error (evaluateJsonPathCheck
                {| j_path := "tags"; j_operator := equals;
                   j_value := Some "typescript";
                   j_element := Some (Index (ofZ 1)) |} reply)
  /\ actualValue (evaluateJsonPathCheck
                    {| j_path := "tags" ++ "[" ++ toString (ofZ 1) ++ "]";
                       j_operator := equals; j_value := Some "typescript";
                       j_element := None |} reply)
     = actualValue (evaluateJsonPathCheck
                      {| j_path := "tags"; j_operator := equals;
                         j_value := Some "typescript";
                         j_element := Some (Index (ofZ 1)) |} reply).
Proof.
  intros reply document items.
  assert (P : JSON_parse (body reply) = Normal document) by (vm_compute; reflexivity).
  assert (N : "tags" <> "") by discriminate.
  assert (R : "tags" <> "$") by discriminate.
  assert (A : extractJsonPath document "tags" = VArray items)
    by (vm_compute; reflexivity).
  assert (W : toString (ofZ 1) <> ""
              /\ forallChars isWordChar (toString (ofZ 1)) = true)
    by (split; [vm_compute; discriminate | vm_compute; reflexivity]).
  assert (F : forall nested, GetNumber (VArray items) (ofZ 1) <> VArray nested)
    by (intros nested; vm_compute; discriminate).
  split; [exact P |]. split; [exact N |]. split; [exact R |]. split; [exact A |].
  split; [vm_compute; reflexivity |]. split; [exact F |].
  split; [vm_compute; reflexivity |].
  exact (selected_element_is_bracket_index "tags" equals (Some "typescript")
           (Some (Index (ofZ 1))) None (ofZ 1) reply document items
           P N R A eq_refl W F).
Defined.

Lemma check_without_value_ignores_content_witness :
  let ofBody operator :=
    evaluateBodyCheck {| b_operator := operator; b_value := None |} headersResponse in
  let ofHeader operator :=
    evaluateHeaderCheck
      {| h_name := "X-Custom-Header"; h_operator := operator; h_value := None |}
      headersResponse in
  orEmpty None = ""
  /\ passed (ofBody contains) = true
  /\ passed (ofBody not_contains) = false
  /\ (@None string = None ->
      passed (ofBody equals) = false /\ passed (ofBody not_equals) = true)
  /\ passed (ofHeader contains) = passed (ofHeader exists_)
  /\ passed (ofHeader not_contains) = passed (ofHeader not_exists)
  /\ error (ofBody contains) = None /\ error (ofBody not_contains) = None
  /\ error (ofHeader contains) = None /\ error (ofHeader not_contains) = None.
Proof.
  split; [reflexivity |].
  exact (check_without_value_ignores_content "X-Custom-Header" None headersResponse
           eq_refl).
Defined.
